(** * WhatsApp assistant: message routing, retrieval confidence and bot lifecycle

    A shallow embedding of the decision logic of the assistant.

    Definitions:
    - [PyText]: the Python string and regular-expression operations the
      classifier relies on ([str.lower], [str.strip], [in], [str.split],
      [re.findall], [re.sub]);
    - [MessageHelpers]: [src/message_helpers.py], the keyword configuration,
      the classification predicates and [extract_question_from_message];
    - [RAG]: [src/rag/rag_engine.py], [RAGEngine.query];
    - [MessageProcessor]: [src/bot/message_processor.py], the turn pipeline;
    - [BotManager]: [src/bot/bot_manager.py] together with the part of
      [src/bot/whatsapp_automation.py] that the manager observes;
    - [Router]: the rule chain of the specification, to compare with the
      cascade in [process_text_message];
    - [Residue], [Sample], [SampleMore]: predicates and data used in the
      statements;
    - [PyMore], [HelpersMore]: the remaining helpers of
      [src/message_helpers.py];
    - [Repository]: [src/database/student_repository.py], what the queries'
      results are turned into;
    - [Automation]: [src/bot/whatsapp_automation.py], sending, unread
      messages and the routing of a chat;
    - [ManagerMore]: [stop_all_bots], [restart_bot], [get_active_bots] and
      the invariants of the registry.

    Results: [PyTextFacts], [ExtractFacts], [RAGFacts], [ProcessorFacts],
    [BotManagerFacts], [ManagerMoreFacts], [HelpersMoreFacts],
    [RAGMoreFacts], [ProcessorMoreFacts] and [AutomationFacts].

    Text is a list of ASCII characters; the character classes are the ones
    CPython uses for code points below 128.  Confidence values are rationals:
    the floating-point values the code computes (0.0, 0.225, 0.45, 0.675,
    0.9, 1.0) compare with the thresholds 0.65 and 0.75 exactly as these
    rationals do.  Calls that leave the process (embedding, generation,
    database) are inputs of the model: their result, or the fact that they
    raised, is given to the function that makes them.  So is what the
    prompt library does with a template that has fields of the salutation's
    making; that a template which is no format string is refused is part of
    the model. *)

From Stdlib Require Import Ascii String QArith Qminmax.
From stdpp Require Import gmap strings list.

Abbreviation text := (list ascii).

(** [txt "abc"] is the text of a string literal. *)
Definition txt (s : string) : text := list_ascii_of_string s.

(* ===================================================================== *)
(** * Python text operations *)
(* ===================================================================== *)

Module PyText.

Definition code (c : ascii) : N := N_of_ascii c.

Definition in_range (lo hi : N) (c : ascii) : bool :=
  (lo <=? code c)%N && (code c <=? hi)%N.

Definition is_upper (c : ascii) : bool := in_range 65 90 c.
Definition is_lower (c : ascii) : bool := in_range 97 122 c.
Definition is_digit (c : ascii) : bool := in_range 48 57 c.

(** [str.isspace] and the regular-expression class [\s]:
    TAB, LF, VT, FF, CR, FS, GS, RS, US and the blank. *)
Definition isspace (c : ascii) : bool :=
  in_range 9 13 c || in_range 28 32 c.

(** The regular-expression class [\w]. *)
Definition is_word (c : ascii) : bool :=
  is_upper c || is_lower c || is_digit c || (code c =? 95)%N.

Definition to_lower (c : ascii) : ascii :=
  if is_upper c then ascii_of_N (code c + 32) else c.

(** [s.lower()] *)
Definition lower (s : text) : text := map to_lower s.

Fixpoint lstrip (s : text) : text :=
  match s with
  | c :: s' => if isspace c then lstrip s' else s
  | [] => []
  end.

Definition rstrip (s : text) : text := rev (lstrip (rev s)).

(** [s.strip()] *)
Definition strip (s : text) : text := rstrip (lstrip s).

Fixpoint starts_with (p s : text) : bool :=
  match p, s with
  | [], _ => true
  | a :: p', b :: s' => Ascii.eqb a b && starts_with p' s'
  | _ :: _, [] => false
  end.

(** [sub in s] *)
Fixpoint contains (sub s : text) : bool :=
  starts_with sub s ||
  match s with
  | [] => false
  | _ :: s' => contains sub s'
  end.

(** [any(kw in s for kw in kws)] *)
Definition any_in (kws : list text) (s : text) : bool :=
  existsb (fun kw => contains kw s) kws.

(** The maximal runs of characters satisfying [p], left to right.
    [cur] is the run being read, in reverse. *)
Definition flush (cur : text) : list text :=
  match cur with [] => [] | _ => [rev cur] end.

Fixpoint runs_go (p : ascii -> bool) (cur : text) (s : text) : list text :=
  match s with
  | [] => flush cur
  | c :: s' =>
      if p c then runs_go p (c :: cur) s'
      else flush cur ++ runs_go p [] s'
  end.

Definition runs (p : ascii -> bool) (s : text) : list text := runs_go p [] s.

(** The number of runs [runs_go] still delivers when it is inside a run
    ([open]) or not. *)
Fixpoint nruns (p : ascii -> bool) (open : bool) (s : text) : nat :=
  match s with
  | [] => if open then 1 else 0
  | c :: s' =>
      if p c then nruns p true s'
      else ((if open then 1 else 0) + nruns p false s')%nat
  end.

Definition nonempty (cur : text) : bool :=
  match cur with [] => false | _ => true end.

(** [re.findall(r'\w+', s)] *)
Definition findall_words (s : text) : list text := runs is_word s.

(** [s.split()] *)
Definition split (s : text) : list text := runs (fun c => negb (isspace c)) s.

(** [re.sub(r'\s+', ' ', s)]; [in_ws] tells that the previous character
    belonged to a run of white space that was already replaced. *)
Fixpoint collapse_go (in_ws : bool) (s : text) : text :=
  match s with
  | [] => []
  | c :: s' =>
      if isspace c
      then (if in_ws then collapse_go true s' else " "%char :: collapse_go true s')
      else c :: collapse_go false s'
  end.

Definition collapse_ws (s : text) : text := collapse_go false s.

(** The state of that scan after [s]: whether it ends inside white space. *)
Definition end_in_space (in_ws : bool) (s : text) : bool :=
  match last s with
  | Some c => isspace c
  | None => in_ws
  end.

(** [re.sub(r'\s+', ' ', s).strip()] *)
Definition normalize (s : text) : text := strip (collapse_ws s).

(** ** Literal alternatives under [re.IGNORECASE] *)

(** [strip_prefix_ci p s]: the rest of [s] after a case-insensitive
    occurrence of the literal [p] at its start. *)
Fixpoint strip_prefix_ci (p s : text) : option text :=
  match p, s with
  | [], _ => Some s
  | a :: p', b :: s' =>
      if Ascii.eqb (to_lower a) (to_lower b) then strip_prefix_ci p' s' else None
  | _ :: _, [] => None
  end.

(** What [[,.]?\s*] consumes, greedily, at the start of [s]: the rest. *)
Definition skip_punct (s : text) : text :=
  match s with
  | c :: s' =>
      if Ascii.eqb c ","%char || Ascii.eqb c "."%char then lstrip s' else lstrip s
  | [] => []
  end.

(** What [\s*[,.]?\s*] consumes, greedily, at the start of [s]: the rest. *)
Definition skip_sep (s : text) : text := skip_punct (lstrip s).

(** [\b] between the character before the position and the one at it. *)
Definition word_at (c : option ascii) : bool :=
  match c with Some c => is_word c | None => false end.

Definition boundary (before after : option ascii) : bool :=
  xorb (word_at before) (word_at after).

(** [re.sub] replaces an empty match by the empty string and then retries
    the same position for a non-empty one, so what is removed at a position
    is the match of the first alternative whose whole match is not empty.
    [first_match try alts] is the rest after that match. *)
Fixpoint first_match (try : text -> option text) (alts : list text)
  : option text :=
  match alts with
  | [] => None
  | a :: alts' =>
      match try a with
      | Some rest => Some rest
      | None => first_match try alts'
      end
  end.

Definition shorter (rest s : text) : bool := (length rest <? length s)%nat.

(** ['|'.join(re.escape(a) for a in alts)] is the empty string, in which
    case the substitution is skipped altogether. *)
Definition pattern_is_empty (alts : list text) : bool :=
  match alts with
  | [] => true
  | [a] => match a with [] => true | _ => false end
  | _ => false
  end.

(** One attempt of [^(a)\s*[,.]?\s*] at the start of [s]. *)
Definition try_greeting (s a : text) : option text :=
  match strip_prefix_ci a s with
  | Some r => let rest := skip_sep r in
              if shorter rest s then Some rest else None
  | None => None
  end.

(** [re.sub('^(g1|g2|...)\s*[,.]?\s*', '', s, flags=re.IGNORECASE)] *)
Definition sub_greeting (alts : list text) (s : text) : text :=
  match first_match (try_greeting s) alts with
  | Some rest => rest
  | None => s
  end.

(** One attempt of [\b(a)\b[,.]?\s*] at a position: [prev] is the character
    before it, [s] the text from it on. *)
Definition last_or (prev : option ascii) (a : text) (s : text) : option ascii :=
  match a with
  | [] => prev
  | _ => last (take (length a) s)
  end.

Definition try_salutation (prev : option ascii) (s a : text) : option text :=
  match strip_prefix_ci a s with
  | Some r =>
      if boundary prev (head s) && boundary (last_or prev a s) (head r)
      then let rest := skip_punct r in
           if shorter rest s then Some rest else None
      else None
  | None => None
  end.

(** The number of characters removed at a position, if any. *)
Definition salutation_at (alts : list text) (prev : option ascii) (s : text)
  : option nat :=
  match first_match (try_salutation prev s) alts with
  | Some rest => Some (length s - length rest)%nat
  | None => None
  end.

(** [re.sub('\b(s1|s2|...)\b[,.]?\s*', '', s, flags=re.IGNORECASE)]:
    a left-to-right scan; [skip] counts the characters of the current
    match that are still to be dropped. *)
Fixpoint sub_salutation_go (alts : list text) (prev : option ascii)
         (skip : nat) (s : text) : text :=
  match s with
  | [] => []
  | c :: s' =>
      match skip with
      | S k => sub_salutation_go alts (Some c) k s'
      | O =>
          match salutation_at alts prev s with
          | Some (S k) => sub_salutation_go alts (Some c) k s'
          | _ => c :: sub_salutation_go alts (Some c) 0 s'
          end
      end
  end.

Definition sub_salutation (alts : list text) (s : text) : text :=
  sub_salutation_go alts None 0 s.

End PyText.

(* ===================================================================== *)
(** * Keyword configuration and classification predicates *)
(* ===================================================================== *)

Module MessageHelpers.
Import PyText.

(** [self.keywords]: category name to phrases, as loaded from the JSON
    configuration or taken from the defaults. *)
Abbreviation Keywords := (gmap string (list text)).

(** [self.keywords.get(category, [])] *)
Definition get_keywords_for_category (kw : Keywords) (category : string)
  : list text := default [] (kw !! category).

Definition _get_default_keywords : Keywords :=
  list_to_map
    [ ("greetings", txt <$>
        ["hi"; "hello"; "hey"; "good morning"; "good afternoon";
         "good evening"; "good night"; "greetings"; "namaste";
         "hola"; "bonjour"; "salut"]);
      ("acknowledgments", txt <$>
        ["thanks"; "thank you"; "thx"; "ty"; "thanku"; "tnx";
         "noted"; "noted with thanks";
         "okay"; "ok"; "okey"; "okie"; "okk";
         "k"; "kk"; "kay";
         "alright"; "all right"; "rite";
         "got it"; "gotcha"; "understood";
         "cool"; "fine"; "great"; "awesome"; "perfect"; "sure";
         "confirmed"; "confirm"; "done"; "completed";
         "yep"; "yes"; "yeah"; "ya"; "yah"]);
      ("paypal", txt <$>
        ["paypal"; "pay pal"; "paypal payment"; "pay through paypal";
         "paypal option"; "paypal link"; "undertaking letter";
         "paypal account"]);
      ("publications", txt <$>
        ["publication"; "article"; "research paper"; "journal";
         "publish"; "manuscript"; "paper submission";
         "research publication"; "journal article"; "publish paper";
         "research work"; "e-journal"]);
      ("remittance", txt <$>
        ["remittance"; "payment proof"; "receipt"; "transaction";
         "payment receipt"; "bank transfer"; "payment confirmation";
         "proof of payment"; "payment slip"]);
      ("fees", txt <$>
        ["fee"; "fees"; "payment"; "invoice"; "pay"; "due";
         "balance"; "amount"; "bill"; "tuition"; "outstanding";
         "partial"; "next installment"; "fee structure"]);
      ("academic", txt <$>
        ["course"; "grade"; "mark"; "enrollment"; "subject";
         "program"; "academic"; "mentor"; "block"; "test"; "exam";
         "status"; "duration"; "study material"; "assignment"]);
      ("lms_cms", txt <$>
        ["lms"; "cms"; "learning management"; "course management";
         "portal"; "login"; "password"; "access"; "interface"]);
      ("greeting_prefixes", txt <$>
        ["hi"; "hello"; "hey"; "good morning"; "good afternoon";
         "good evening"; "dear"; "respected"; "sir"; "madam"]);
      ("salutations", txt <$>
        ["sir"; "madam"; "ma'am"; "mr"; "mrs"; "ms"; "dr"; "prof"]);
      ("student_specific", txt <$>
        ["my fee"; "my payment"; "my invoice"; "my balance"; "my due";
         "my course"; "my grade"; "my marks"; "my status"; "my enrollment";
         "application number"; "student id"; "my account"]);
      ("tau_university", txt <$>
        ["texila"; "tau"; "texila american university";
         "our university"; "this university"; "university details";
         "about tau"; "about texila"]) ].

Section Helpers.
Variable kw : Keywords.

Definition is_pure_greeting (message : text) : bool :=
  let greetings := get_keywords_for_category kw "greetings" in
  let message_lower := strip (lower message) in
  let words := findall_words message_lower in
  (length words <=? 3)%nat
  && any_in greetings message_lower
  && negb (contains (txt "?") message).

Definition is_satisfied_response (message : text) : bool :=
  let acknowledgments := get_keywords_for_category kw "acknowledgments" in
  let message_lower := strip (lower message) in
  if (length (split message) <=? 3)%nat
  then any_in acknowledgments message_lower
  else false.

Definition is_paypal_query (message : text) : bool :=
  any_in (get_keywords_for_category kw "paypal") (lower message).

Definition is_publication_query (message : text) : bool :=
  any_in (get_keywords_for_category kw "publications") (lower message).

Definition is_remittance_query (message : text) : bool :=
  any_in (get_keywords_for_category kw "remittance") (lower message).

(** The two [re.sub] calls of [extract_question_from_message]. *)
Definition strip_pleasantries (message : text) : text :=
  let greeting_prefixes := get_keywords_for_category kw "greeting_prefixes" in
  let salutations := get_keywords_for_category kw "salutations" in
  let cleaned :=
    if pattern_is_empty greeting_prefixes then message
    else sub_greeting greeting_prefixes message in
  if pattern_is_empty salutations then cleaned
  else sub_salutation salutations cleaned.

Definition extract_question_from_message (message : text) : text :=
  let greeting_prefixes := get_keywords_for_category kw "greeting_prefixes" in
  let salutations := get_keywords_for_category kw "salutations" in
  let cleaned :=
    if pattern_is_empty greeting_prefixes then message
    else sub_greeting greeting_prefixes message in
  let cleaned :=
    if pattern_is_empty salutations then cleaned
    else sub_salutation salutations cleaned in
  let cleaned := strip (collapse_ws cleaned) in
  match cleaned with
  | [] => message
  | _ => cleaned
  end.
End Helpers.

End MessageHelpers.

(* ===================================================================== *)
(** * Retrieval engine *)
(* ===================================================================== *)

Module RAG.
Import PyText.

(** A LangChain [Document]: its text and its metadata dictionary. *)
Record Document := {
  page_content : text;
  metadata : gmap string text
}.

(** [doc.metadata.get(key, '')] *)
Definition metadata_get (doc : Document) (key : string) : text :=
  default [] (metadata doc !! key).

(** The persisted vector index, seen through the two retrievers that
    [query] builds on it.  Both embed the question and search the index;
    for an unchanged index their result is a function of the question. *)
Record VectorStore := {
  (** [as_retriever(search_type="similarity_score_threshold",
      search_kwargs={"k": 4, "score_threshold": 0.65})]:
      the chunks among the four nearest whose score clears the threshold *)
  similarity_score_threshold : text -> list Document;
  (** [as_retriever(search_type="similarity", search_kwargs={"k": 4})]:
      the retriever inside the question-answering chain *)
  similarity : text -> list Document
}.

(** [list(set(xs))]: CPython enumerates a set in hash order, which is fixed
    for the life of a process; any enumeration of the distinct elements
    is allowed for. *)
Record SetOrder := {
  set_list : list text -> list text;
  set_list_perm : forall l, set_list l ≡ₚ remove_dups l
}.

Definition insertion_order : SetOrder :=
  {| set_list := remove_dups; set_list_perm := fun l => reflexivity _ |}.

(** What lies outside the engine during one call of [query]: whether the
    retriever's search returns (it embeds the question remotely; otherwise
    it raised), what the question-answering chain generates ([None]: the
    chain raised), and whether the installed prompt library builds a chain
    from a template into which the salutation has brought replacement
    fields of its own (the release decides, and the repository pins
    none). *)
Record Remote := {
  retrieval_responds : bool;
  generated : option text;
  extra_fields_accepted : bool
}.

(** The states of the scanner behind [string.Formatter().parse]. *)
Inductive FormatState :=
| Literal                   (* outside a replacement field *)
| FieldName                 (* after the opening brace, in the field name *)
| Index                     (* inside the brackets of a field name *)
| Conversion                (* after ['!']: the conversion character is next *)
| AfterConversion           (* after the conversion character *)
| FormatSpec (depth : nat). (* after [':'], with [depth] nested braces open *)

(** One pass of the scanner over a format string: the number of
    replacement fields seen, [None] where it raises [ValueError] (a single
    brace, a brace in a field name, a field that is not closed, a conversion
    that is not followed by [':'] or the closing brace). *)
Fixpoint format_fields_go (st : FormatState) (n : nat) (s : text) : option nat :=
  match s with
  | [] => match st with Literal => Some n | _ => None end
  | c :: s' =>
      match st with
      | Literal =>
          if Ascii.eqb c "{" then
            match s' with
            | c2 :: s2 =>
                if Ascii.eqb c2 "{" then format_fields_go Literal n s2
                else format_fields_go FieldName n s'
            | [] => None
            end
          else if Ascii.eqb c "}" then
            match s' with
            | c2 :: s2 =>
                if Ascii.eqb c2 "}" then format_fields_go Literal n s2 else None
            | [] => None
            end
          else format_fields_go Literal n s'
      | FieldName =>
          if Ascii.eqb c "{" then None
          else if Ascii.eqb c "[" then format_fields_go Index n s'
          else if Ascii.eqb c "}" then format_fields_go Literal (S n) s'
          else if Ascii.eqb c ":" then format_fields_go (FormatSpec 0) n s'
          else if Ascii.eqb c "!" then format_fields_go Conversion n s'
          else format_fields_go FieldName n s'
      | Index =>
          if Ascii.eqb c "]" then format_fields_go FieldName n s'
          else format_fields_go Index n s'
      | Conversion => format_fields_go AfterConversion n s'
      | AfterConversion =>
          if Ascii.eqb c "}" then format_fields_go Literal (S n) s'
          else if Ascii.eqb c ":" then format_fields_go (FormatSpec 0) n s'
          else None
      | FormatSpec depth =>
          if Ascii.eqb c "{" then format_fields_go (FormatSpec (S depth)) n s'
          else if Ascii.eqb c "}" then
            match depth with
            | 0%nat => format_fields_go Literal (S n) s'
            | S depth' => format_fields_go (FormatSpec depth') n s'
            end
          else format_fields_go (FormatSpec depth) n s'
      end
  end.

Definition format_fields (s : text) : option nat := format_fields_go Literal 0 s.

(** A text without a brace. *)
Definition brace_free (s : text) : bool :=
  forallb (fun c => negb (Ascii.eqb c "{" || Ascii.eqb c "}")) s.

(** [setup_qa_chain(salutation)].  The salutation is spliced into the text
    of the prompt before [PromptTemplate] parses that text as a format
    string.  The text around the salutation has its two fields closed before
    it and no brace, bracket, or conversion after it, so the template parses
    exactly when the salutation does.  A salutation that does not parse makes
    the constructor raise; one that brings no field of its own leaves the
    template with the fields [context] and [question] it is written for;
    otherwise the library decides.  [false]: the call raised. *)
Definition setup_qa_chain (r : Remote) (salutation : text) : bool :=
  match format_fields salutation with
  | None => false
  | Some 0%nat => true
  | Some (S _) => extra_fields_accepted r
  end.

Definition K : Q := 4%Q.

Definition not_initialized : text * Q * list text :=
  (txt "I'm having technical difficulties. Please try again.", 0%Q, []).

Definition could_not_find (salutation : text) : text * Q * list text :=
  (salutation ++ txt ", I couldn't find specific information about your query. "
              ++ txt "Could you rephrase or provide more details?",
   0%Q, []).

(** The [except Exception] branch. *)
Definition query_failed (salutation : text) : text * Q * list text :=
  (salutation ++ txt ", I encountered an error processing your question. "
              ++ txt "Please try again or contact support.",
   0%Q, []).

(** [if interface: relevant_docs = [doc for doc in relevant_docs if
    doc.metadata.get('interface', '').lower() == interface.lower()]] *)
Definition interface_filter (interface : option text) (docs : list Document)
  : list Document :=
  match interface with
  | Some (c :: i) =>
      filter (fun doc => lower (metadata_get doc "interface") = lower (c :: i)) docs
  | _ => docs
  end.

(** [min(len(relevant_docs) / 4.0, 1.0) * 0.9] *)
Definition confidence_of (n : nat) : Q :=
  (Qmin (inject_Z (Z.of_nat n) / K) 1 * (9 # 10))%Q.

(** [list(set([doc.metadata.get('question', '') for doc in source_docs
    if doc.metadata.get('question')]))[:3]] *)
Definition source_questions_of (so : SetOrder) (source_docs : list Document)
  : list text :=
  take 3 (set_list so
    ((fun doc => metadata_get doc "question") <$>
     filter (fun doc => metadata_get doc "question" ≠ []) source_docs)).

(** The list that [source_questions_of] makes a set of. *)
Definition questions_of (source_docs : list Document) : list text :=
  (fun doc => metadata_get doc "question") <$>
  filter (fun doc => metadata_get doc "question" ≠ []) source_docs.

Section Engine.
(** [self.vector_store], [None] until an index is created or loaded. *)
Variable vector_store : option VectorStore.
Variable so : SetOrder.

Definition query (r : Remote) (question salutation : text)
           (interface : option text) : text * Q * list text :=
  match vector_store with
  | None => not_initialized
  | Some store =>
      if negb (setup_qa_chain r salutation) then query_failed salutation else
      if negb (retrieval_responds r) then query_failed salutation else
      let relevant_docs := similarity_score_threshold store question in
      match relevant_docs with
      | [] => could_not_find salutation
      | _ :: _ =>
          let relevant_docs := interface_filter interface relevant_docs in
          match generated r with
          | None => query_failed salutation
          | Some answer =>
              let source_docs := similarity store question in
              let confidence := confidence_of (length relevant_docs) in
              (answer, confidence, source_questions_of so source_docs)
          end
      end
  end.
End Engine.

End RAG.

(* ===================================================================== *)
(** * Conversation turn pipeline *)
(* ===================================================================== *)

Module MessageProcessor.
Import PyText MessageHelpers RAG.

(** The dictionary every handler returns. *)
Record Reply := {
  response : text;
  message_type : string;
  confidence : Q;
  sources : list text;
  category : string;
  requires_followup : bool   (* the key is only set, to [True], by PayPal *)
}.

Definition reply (r : text) (mt : string) (c : Q) (s : list text)
           (cat : string) : Reply :=
  {| response := r; message_type := mt; confidence := c; sources := s;
     category := cat; requires_followup := false |}.

(** Everything outside the processor that one turn depends on. *)
Record World := {
  keywords : Keywords;                      (* the helpers singleton *)
  vector_store : option VectorStore;        (* the engine singleton *)
  set_order : SetOrder;
  remote : Remote;                          (* the services during [query] *)
  choice : nat;                             (* the draw of [random.choice] *)
  fetch_invoice_data : text -> option text; (* [str] of the record, if any *)
  fetch_academic_data : text -> option text;
  formatted : option text                   (* the formatting model's reply;
                                               [None]: the call raised *)
}.

Definition nl : text := [ascii_of_nat 10].

(** [random.choice(options)] with draw [i]. *)
Definition random_choice (i : nat) (options : list text) : text :=
  default [] (options !! (i mod length options)%nat).

(** ['\n'.join(parts)] *)
Fixpoint join (sep : text) (parts : list text) : text :=
  match parts with
  | [] => []
  | [p] => p
  | p :: ps => p ++ sep ++ join sep ps
  end.

(** [xs[-3:]] *)
Definition last3 {A} (xs : list A) : list A := drop (length xs - 3)%nat xs.

Definition student_keywords : list text :=
  txt <$> ["my fee"; "my payment"; "my invoice"; "my balance"; "my due";
           "my course"; "my grade"; "my marks"; "my status"; "my enrollment";
           "application number"; "student id"; "my account"].

Definition fees_keywords : list text :=
  txt <$> ["fee"; "payment"; "invoice"; "due"; "balance"; "pay"].

Definition academic_keywords : list text :=
  txt <$> ["course"; "grade"; "mark"; "enrollment"; "subject"; "program"].

Definition _is_student_specific_query (message : text) : bool :=
  any_in student_keywords (lower message).

Section Processor.
Variable w : World.

Definition rag_query (question salutation : text) : text * Q * list text :=
  query (vector_store w) (set_order w) (remote w) question salutation None.

Definition _handle_greeting (salutation : text) : Reply :=
  let greetings :=
    [ salutation ++ txt ", hello! How can I assist you today?";
      txt "Hi " ++ salutation ++ txt "! I'm here to help with your queries.";
      txt "Greetings " ++ salutation ++ txt "! What can I do for you?" ] in
  reply (random_choice (choice w) greetings) "greeting" 1 [] "greeting".

Definition _handle_acknowledgment (salutation : text) : Reply :=
  let responses :=
    [ salutation ++ txt ", glad I could help! Do you have any other questions?";
      txt "You're welcome " ++ salutation
        ++ txt "! Feel free to ask if you need anything else.";
      salutation ++ txt ", happy to assist! Let me know if there's anything more." ] in
  reply (random_choice (choice w) responses) "acknowledgment" 1 []
        "post_interaction".

Definition _handle_paypal_query (salutation : text) : Reply :=
  {| response :=
       salutation ++ txt ", to proceed with PayPal payment, reply with:" ++ nl ++ nl
         ++ txt "1 - I already have the undertaking letter" ++ nl
         ++ txt "2 - Send me the undertaking letter template" ++ nl ++ nl
         ++ txt "Please reply with 1 or 2.";
     message_type := "paypal_query";
     confidence := 1;
     sources := [];
     category := "payment";
     requires_followup := true |}.

Definition publication_contact (salutation : text) : text :=
  salutation ++ txt ", for queries related to publications or research articles, "
    ++ txt "please contact our E-Journal Executive:" ++ nl ++ nl
    ++ txt "📧 Email: sabitha.k@tauedu.org or ejournal.assist@tau.edu.gy" ++ nl
    ++ txt "📱 WhatsApp:" ++ nl
    ++ txt "  • Public Health, Management: +91 7397735325" ++ nl
    ++ txt "  • Academic Research, Medicine: +91 9500108397".

Definition _handle_publication_query (salutation message : text) : Reply :=
  let '(answer, confidence, sources) := rag_query message salutation in
  let faq_addition :=
    if Qle_bool (65 # 100) confidence then nl ++ nl ++ answer else [] in
  reply (publication_contact salutation ++ faq_addition)
        "publication_query" 1 sources "publication".

Definition _handle_remittance_query (salutation : text) : Reply :=
  reply (salutation ++ txt ", thank you for sharing the remittance copy. "
           ++ txt "I will forward it to our Finance team for verification and mapping. "
           ++ txt "You can check the status in the CMS portal within 3-10 business days.")
        "remittance_confirmation" 1 [] "finance".

(** One line of the context: [f"{msg['sender']}: {msg['message']}"].  An
    entry of the context is a dictionary; [None]: it lacks one of the two
    keys and the lookup raises [KeyError]. *)
Definition context_line (msg : gmap string text) : option text :=
  sender ← msg !! "sender";
  message ← msg !! "message";
  Some (sender ++ txt ": " ++ message).

(** The local [enhanced_query] of [_handle_faq_query]; [None]: building it
    raised. *)
Definition enhanced_query (message : text)
           (chat_context : list (gmap string text)) : option text :=
  match chat_context with
  | [] => Some message
  | _ :: _ =>
      lines ← mapM context_line (last3 chat_context);
      Some (txt "Context:" ++ nl ++ join nl lines ++ nl ++ nl
              ++ txt "Current question: " ++ message)
  end.

(** [None]: an exception leaves the handler. *)
Definition _handle_faq_query (message salutation : text)
           (chat_context : list (gmap string text)) : option Reply :=
  enhanced_query ← enhanced_query message chat_context;
  let '(answer, confidence, sources) := rag_query enhanced_query salutation in
  Some
    (if Qle_bool (75 # 100) confidence then
       reply answer "faq_answer_high_confidence" confidence sources "general"
     else if Qle_bool (65 # 100) confidence then
       reply answer "faq_answer" confidence sources "general"
     else
       reply (answer ++ nl ++ nl
                ++ txt "If this doesn't fully answer your question, "
                ++ txt "please provide more details or contact support.")
             "low_confidence_answer" confidence sources "general").

(** The two formatting calls hand the record to a generation model; the
    reply, or the exception, comes from outside. *)
Definition _generate_invoice_response (invoice_data question salutation : text)
  : option text := formatted w.

Definition _generate_academic_response (academic_data question salutation : text)
  : option text := formatted w.

(** [None]: an exception leaves the handler. *)
Definition _handle_student_query (message contact_id salutation : text)
  : option Reply :=
  let question := extract_question_from_message (keywords w) message in
  let is_fees := any_in fees_keywords (lower question) in
  let is_academic := any_in academic_keywords (lower question) in
  if is_fees then
    match fetch_invoice_data w contact_id with
    | Some invoice_data =>
        response ← _generate_invoice_response invoice_data question salutation;
        Some (reply response "invoice_response" 1
                    [txt "Student Invoice Database"] "fees")
    | None =>
        let '(answer, confidence, sources) := rag_query question salutation in
        let answer :=
          if Qle_bool (65 # 100) confidence then answer
          else salutation
                 ++ txt ", I couldn't find invoice details for your account. "
                 ++ txt "Please provide your application number or contact finance support." in
        Some (reply answer "fees_general" confidence sources "fees")
    end
  else if is_academic then
    match fetch_academic_data w contact_id with
    | Some academic_data =>
        response ← _generate_academic_response academic_data question salutation;
        Some (reply response "academic_response" 1
                    [txt "Student Academic Database"] "academic")
    | None =>
        Some (reply (salutation
                       ++ txt ", I couldn't find academic data for your account. "
                       ++ txt "Please provide your application number.")
                    "data_not_found" 0 [] "academic")
    end
  else _handle_faq_query question salutation [].

(** The [except Exception] branch of [process_text_message]. *)
Definition error_reply (salutation : text) : Reply :=
  reply (salutation ++ txt ", I encountered an error. Please try again.")
        "error" 0 [] "error".

Definition process_text_message (message contact_id contact_name salutation : text)
           (chat_context : list (gmap string text)) : Reply :=
  let message_clean := strip message in
  if is_pure_greeting (keywords w) message_clean then
    _handle_greeting salutation
  else if is_satisfied_response (keywords w) message_clean then
    _handle_acknowledgment salutation
  else if is_paypal_query (keywords w) message_clean then
    _handle_paypal_query salutation
  else if is_publication_query (keywords w) message_clean then
    _handle_publication_query salutation message_clean
  else if is_remittance_query (keywords w) message_clean then
    _handle_remittance_query salutation
  else if _is_student_specific_query message_clean then
    default (error_reply salutation)
            (_handle_student_query message_clean contact_id salutation)
  else
    default (error_reply salutation)
            (_handle_faq_query message_clean salutation chat_context).
End Processor.

End MessageProcessor.

(* ===================================================================== *)
(** * Bot lifecycle manager *)
(* ===================================================================== *)

Module BotManager.

Record LogEntry := {
  timestamp : nat;
  level : string;
  message : string
}.

(** One value of [bot_statuses]. *)
Record Status := {
  name : string;
  status : string;
  start_time : option nat;
  stop_time : option nat;
  processed_count : nat;
  unread_count : nat;
  logs : list LogEntry
}.

(** The factory of the [defaultdict]. *)
Definition default_status : Status :=
  {| name := ""; status := "Stopped"; start_time := None; stop_time := None;
     processed_count := 0; unread_count := 0; logs := [] |}.

(** A [WhatsAppBot] object, as far as the manager looks at it. *)
Record Bot := {
  bot_name : string;
  user_data_path : option string;
  driver : bool;          (* [self.driver is not None] *)
  stop_event : nat        (* the [threading.Event] it was given *)
}.

(** A [threading.Thread] running [bot.run]. *)
Record Thread := {
  target : nat;           (* the bot whose [run] it executes *)
  alive : bool            (* [thread.is_alive()] *)
}.

(** The manager's four dictionaries and the objects they refer to: events,
    bots and threads live on the heap and are named by their index. *)
Record State := {
  bots : gmap string nat;
  bot_threads : gmap string nat;
  stop_events : gmap string nat;
  bot_statuses : gmap string Status;
  events : list bool;     (* [event.is_set()] *)
  bot_objs : list Bot;
  threads : list Thread
}.

(** [BotManager()] *)
Definition init : State :=
  {| bots := ∅; bot_threads := ∅; stop_events := ∅; bot_statuses := ∅;
     events := []; bot_objs := []; threads := [] |}.

Definition with_bots (f : gmap string nat -> gmap string nat) (s : State) :=
  {| bots := f (bots s); bot_threads := bot_threads s;
     stop_events := stop_events s; bot_statuses := bot_statuses s;
     events := events s; bot_objs := bot_objs s; threads := threads s |}.
Definition with_bot_threads (f : gmap string nat -> gmap string nat) (s : State) :=
  {| bots := bots s; bot_threads := f (bot_threads s);
     stop_events := stop_events s; bot_statuses := bot_statuses s;
     events := events s; bot_objs := bot_objs s; threads := threads s |}.
Definition with_stop_events (f : gmap string nat -> gmap string nat) (s : State) :=
  {| bots := bots s; bot_threads := bot_threads s;
     stop_events := f (stop_events s); bot_statuses := bot_statuses s;
     events := events s; bot_objs := bot_objs s; threads := threads s |}.
Definition with_statuses (f : gmap string Status -> gmap string Status) (s : State) :=
  {| bots := bots s; bot_threads := bot_threads s;
     stop_events := stop_events s; bot_statuses := f (bot_statuses s);
     events := events s; bot_objs := bot_objs s; threads := threads s |}.
Definition with_events (f : list bool -> list bool) (s : State) :=
  {| bots := bots s; bot_threads := bot_threads s;
     stop_events := stop_events s; bot_statuses := bot_statuses s;
     events := f (events s); bot_objs := bot_objs s; threads := threads s |}.
Definition with_bot_objs (f : list Bot -> list Bot) (s : State) :=
  {| bots := bots s; bot_threads := bot_threads s;
     stop_events := stop_events s; bot_statuses := bot_statuses s;
     events := events s; bot_objs := f (bot_objs s); threads := threads s |}.
Definition with_threads (f : list Thread -> list Thread) (s : State) :=
  {| bots := bots s; bot_threads := bot_threads s;
     stop_events := stop_events s; bot_statuses := bot_statuses s;
     events := events s; bot_objs := bot_objs s; threads := f (threads s) |}.

(** ** The status dictionary *)

(** [bot_statuses[bot_name]]: the value read ... *)
Definition getitem (bot_name : string) (st : gmap string Status) : Status :=
  default default_status (st !! bot_name).

(** ... and [bot_statuses[bot_name]...] followed by a mutation [f] of the
    record: a missing key is first filled in by the factory. *)
Definition modify (bot_name : string) (f : Status -> Status)
           (st : gmap string Status) : gmap string Status :=
  <[bot_name := f (getitem bot_name st)]> st.

Definition set_status (v : string) (r : Status) : Status :=
  {| name := name r; status := v; start_time := start_time r;
     stop_time := stop_time r; processed_count := processed_count r;
     unread_count := unread_count r; logs := logs r |}.
Definition set_unread_count (v : nat) (r : Status) : Status :=
  {| name := name r; status := status r; start_time := start_time r;
     stop_time := stop_time r; processed_count := processed_count r;
     unread_count := v; logs := logs r |}.
Definition set_stop_time (v : option nat) (r : Status) : Status :=
  {| name := name r; status := status r; start_time := start_time r;
     stop_time := v; processed_count := processed_count r;
     unread_count := unread_count r; logs := logs r |}.
Definition set_processed_count (v : nat) (r : Status) : Status :=
  {| name := name r; status := status r; start_time := start_time r;
     stop_time := stop_time r; processed_count := v;
     unread_count := unread_count r; logs := logs r |}.
Definition set_logs (v : list LogEntry) (r : Status) : Status :=
  {| name := name r; status := status r; start_time := start_time r;
     stop_time := stop_time r; processed_count := processed_count r;
     unread_count := unread_count r; logs := v |}.

(** ** The worker, [WhatsAppBot] *)

(** [event.is_set()] *)
Definition is_set (s : State) (e : nat) : bool := default false (events s !! e).

(** [WhatsAppBot.is_running] *)
Definition is_running (s : State) (b : Bot) : bool :=
  driver b && negb (is_set s (stop_event b)).

(** [_update_status] *)
Definition _update_status (bot : string) (v : string) (unread : option nat)
           (st : gmap string Status) : gmap string Status :=
  let st := modify bot (set_status v) st in
  match unread with
  | Some n => modify bot (set_unread_count n) st
  | None => st
  end.

(** What a worker thread does that the manager can see. *)
Inductive Action :=
| DriverUp                                   (* [self.driver = webdriver.Chrome(..)] *)
| SetStatus (v : string) (unread : option nat)
| Processed                                  (* [processed_count += 1] *)
| Finish (now : nat).                        (* [_cleanup], then [run] returns *)

Definition set_driver (b : Bot) : Bot :=
  {| bot_name := bot_name b; user_data_path := user_data_path b;
     driver := true; stop_event := stop_event b |}.

Definition dead (t : Thread) : Thread := {| target := target t; alive := false |}.

(** Thread [t] performs [a]; a thread that is not alive does nothing. *)
Definition act (t : nat) (a : Action) (s : State) : State :=
  match threads s !! t with
  | Some th =>
      if alive th then
        match bot_objs s !! target th with
        | Some b =>
            match a with
            | DriverUp => with_bot_objs (alter set_driver (target th)) s
            | SetStatus v unread =>
                with_statuses (_update_status (bot_name b) v unread) s
            | Processed =>
                with_statuses
                  (modify (bot_name b)
                     (fun r => set_processed_count (processed_count r + 1) r)) s
            | Finish now =>
                with_threads (alter dead t)
                  (with_statuses
                     (fun st => modify (bot_name b) (set_stop_time (Some now))
                                  (_update_status (bot_name b) "Stopped" None st)) s)
            end
        | None => s
        end
      else s
  | None => s
  end.

Definition acts (l : list (nat * Action)) (s : State) : State :=
  foldl (fun s ta => act ta.1 ta.2 s) s l.

(** ** The manager *)

(** How the construction of the worker goes. *)
Inductive StartOutcome :=
| Launched
| ConstructorRaised       (* [WhatsAppBot(...)] raised *)
| ThreadStartRaised.      (* [bot_thread.start()] raised *)

(** [bot_name in self.bots and self.bots[bot_name].is_running()] *)
Definition already_running (s : State) (bot_name : string) : bool :=
  match bots s !! bot_name with
  | Some b => match bot_objs s !! b with
              | Some bot => is_running s bot
              | None => false
              end
  | None => false
  end.

Definition starting (bot_name : string) (now : nat) (r : Status) : Status :=
  {| name := bot_name; status := "Starting"; start_time := Some now;
     stop_time := None; processed_count := 0;
     unread_count := unread_count r; logs := logs r |}.

Definition start_bot (s : State) (bot_name : string)
           (config : gmap string string) (now : nat) (o : StartOutcome)
  : State * bool :=
  if already_running s bot_name then (s, false) else
  let e := length (events s) in
  let s := with_stop_events (insert bot_name e) (with_events (fun l => l ++ [false]) s) in
  let s := with_statuses (modify bot_name (starting bot_name now)) s in
  let failed s := (with_statuses (modify bot_name (set_status "Error")) s, false) in
  match o with
  | ConstructorRaised => failed s
  | _ =>
      let b := length (bot_objs s) in
      let bot := {| bot_name := bot_name;
                    user_data_path := config !! "user_data_path";
                    driver := false; stop_event := e |} in
      let s := with_bots (insert bot_name b) (with_bot_objs (fun l => l ++ [bot]) s) in
      match o with
      | ThreadStartRaised => failed s
      | _ =>
          let t := length (threads s) in
          let s := with_threads (fun l => l ++ [{| target := b; alive := true |}]) s in
          (with_bot_threads (insert bot_name t) s, true)
      end
  end.

(** [thread.is_alive()] *)
Definition is_alive (s : State) (t : nat) : bool :=
  match threads s !! t with Some th => alive th | None => false end.

(** The state in which [stop_bot] looks at the thread again: the stop
    event of the bot, if it has one, is set, and the workers have done
    [during] while the manager waited in [thread.join(timeout)]. *)
Definition after_join (s : State) (bot_name : string)
           (during : list (nat * Action)) : State :=
  acts during (match stop_events s !! bot_name with
               | Some e => with_events (fun l => <[e := true]> l) s
               | None => s
               end).

(** [stop_bot(bot_name, timeout)].  [during] is what the worker threads do
    while the manager waits in [thread.join(timeout)]. *)
Definition stop_bot (s : State) (bot_name : string)
           (during : list (nat * Action)) (now : nat) : State * bool :=
  match bots s !! bot_name with
  | None => (s, false)
  | Some _ =>
      let s := match stop_events s !! bot_name with
               | Some e => with_events (fun l => <[e := true]> l) s
               | None => s
               end in
      let stopped s :=
        let s := with_statuses
                   (modify bot_name
                      (fun r => set_stop_time (Some now) (set_status "Stopped" r))) s in
        (with_bot_threads (delete bot_name) (with_bots (delete bot_name) s), true) in
      match bot_threads s !! bot_name with
      | Some t =>
          let s := acts during s in
          if is_alive s t then (s, false) else stopped s
      | None => stopped s
      end
  end.

(** [get_bot_status]: [None] stands for the empty dictionary.  The lookup
    is [dict.get], which never calls the factory. *)
Definition get_bot_status (s : State) (bot_name : string)
  : State * option Status := (s, bot_statuses s !! bot_name).

Definition get_all_statuses (s : State) : gmap string Status := bot_statuses s.

Definition is_bot_running (s : State) (bot_name : string) : bool :=
  match bots s !! bot_name, bot_threads s !! bot_name with
  | Some _, Some t => is_alive s t
  | _, _ => false
  end.

(** [logs.append(log_entry); if len(logs) > 50: logs.pop(0)] *)
Definition append_bounded (log_entry : LogEntry) (logs : list LogEntry)
  : list LogEntry :=
  let logs := logs ++ [log_entry] in
  if (50 <? length logs)%nat then drop 1 logs else logs.

Definition add_bot_log (s : State) (bot_name message level : string) (now : nat)
  : State :=
  let log_entry := {| timestamp := now; level := level; message := message |} in
  with_statuses
    (modify bot_name (fun r => set_logs (append_bounded log_entry (logs r)) r)) s.

Definition update_bot_status (s : State) (bot_name status : string)
           (unread_count : option nat) : State :=
  with_statuses (_update_status bot_name status unread_count) s.

Definition increment_processed_count (s : State) (bot_name : string) : State :=
  with_statuses
    (modify bot_name (fun r => set_processed_count (processed_count r + 1) r)) s.

(** Every log of a status dictionary is within the capacity. *)
Definition logs_bounded (st : gmap string Status) : Prop :=
  forall n r, st !! n = Some r -> length (logs r) <= 50.

(** ** Histories *)

Inductive Op :=
| StartBot (bot_name : string) (config : gmap string string) (now : nat)
           (o : StartOutcome)
| StopBot (bot_name : string) (during : list (nat * Action)) (now : nat)
| Worker (t : nat) (a : Action)
| GetBotStatus (bot_name : string)
| AddBotLog (bot_name message level : string) (now : nat)
| UpdateBotStatus (bot_name status : string) (unread_count : option nat)
| IncrementProcessedCount (bot_name : string).

Definition step (s : State) (op : Op) : State :=
  match op with
  | StartBot n c now o => (start_bot s n c now o).1
  | StopBot n during now => (stop_bot s n during now).1
  | Worker t a => act t a s
  | GetBotStatus n => (get_bot_status s n).1
  | AddBotLog n m l now => add_bot_log s n m l now
  | UpdateBotStatus n v u => update_bot_status s n v u
  | IncrementProcessedCount n => increment_processed_count s n
  end.

Definition run (ops : list Op) : State := foldl step init ops.

(** The live workers of an identity: the threads that are alive and execute
    the [run] of a bot of that name. *)
Definition works_for (s : State) (bot : string) (th : Thread) : bool :=
  alive th &&
  match bot_objs s !! target th with
  | Some b => bool_decide (bot_name b = bot)
  | None => false
  end.

Definition live_workers (s : State) (bot : string) : nat :=
  length (filter (fun th => works_for s bot th = true) (threads s)).

End BotManager.

(* ===================================================================== *)
(** * The classifier as a rule chain *)
(* ===================================================================== *)

(** The specification describes the router as a fixed-priority chain of
    seven rules; this module states that reading, to be compared with the
    cascade of [if]s in [process_text_message]. *)
Module Router.
Import PyText MessageHelpers RAG MessageProcessor.

Inductive Rule :=
| PureGreeting | Acknowledgment | PayPal | Publication | Remittance
| StudentSpecific | GeneralFAQ.

Global Instance Rule_eq_dec : EqDecision Rule.
Proof. solve_decision. Defined.

(** The rules, highest priority first; the last one always applies. *)
Definition priority : list Rule :=
  [PureGreeting; Acknowledgment; PayPal; Publication; Remittance;
   StudentSpecific; GeneralFAQ].

Definition rank (r : Rule) : nat :=
  match r with
  | PureGreeting => 1 | Acknowledgment => 2 | PayPal => 3 | Publication => 4
  | Remittance => 5 | StudentSpecific => 6 | GeneralFAQ => 7
  end.

Definition rule_matches (kw : Keywords) (r : Rule) (m : text) : bool :=
  match r with
  | PureGreeting => is_pure_greeting kw m
  | Acknowledgment => is_satisfied_response kw m
  | PayPal => is_paypal_query kw m
  | Publication => is_publication_query kw m
  | Remittance => is_remittance_query kw m
  | StudentSpecific => _is_student_specific_query m
  | GeneralFAQ => true
  end.

(** The first rule of the chain that matches. *)
Definition classify (kw : Keywords) (m : text) : Rule :=
  default GeneralFAQ (find (fun r => rule_matches kw r m) priority).

(** The synthesizer branch of a rule. *)
Definition handle (w : World) (r : Rule) (m contact_id salutation : text)
           (chat_context : list (gmap string text)) : Reply :=
  match r with
  | PureGreeting => _handle_greeting w salutation
  | Acknowledgment => _handle_acknowledgment w salutation
  | PayPal => _handle_paypal_query salutation
  | Publication => _handle_publication_query w salutation m
  | Remittance => _handle_remittance_query salutation
  | StudentSpecific =>
      default (error_reply salutation)
              (_handle_student_query w m contact_id salutation)
  | GeneralFAQ =>
      default (error_reply salutation)
              (_handle_faq_query w m salutation chat_context)
  end.

End Router.

(* ===================================================================== *)
(** * Where [extract_question_from_message] still finds something to strip *)
(* ===================================================================== *)

Module Residue.
Import PyText MessageHelpers.

(** The greeting substitution applies to [s]: the pattern is not empty and
    one of the prefixes matches at the start. *)
Definition starts_with_greeting (kw : Keywords) (s : text) : bool :=
  let greeting_prefixes := get_keywords_for_category kw "greeting_prefixes" in
  negb (pattern_is_empty greeting_prefixes)
  && bool_decide (is_Some (first_match (try_greeting s) greeting_prefixes)).

(** No honorific matches at any position of [s]. *)
Fixpoint salutation_free (alts : list text) (prev : option ascii) (s : text)
  : bool :=
  match s with
  | [] => true
  | c :: s' =>
      bool_decide (salutation_at alts prev s = None)
      && salutation_free alts (Some c) s'
  end.

Definition has_honorific (kw : Keywords) (s : text) : bool :=
  let salutations := get_keywords_for_category kw "salutations" in
  negb (pattern_is_empty salutations)
  && negb (salutation_free salutations None s).

End Residue.

(* ===================================================================== *)
(** * Sample data *)
(* ===================================================================== *)

Module Sample.
Import PyText MessageHelpers RAG MessageProcessor BotManager.

Definition chunk (q i c : string) : Document :=
  {| page_content := txt c;
     metadata := {[ "question" := txt q; "interface" := txt i;
                    "category" := txt "general"; "source" := txt "FAQ Database" ]} |}.

Definition refund : Document :=
  chunk "How do I get a refund?" "cms" "Refunds are processed in ten days.".
Definition portal : Document :=
  chunk "How do I log in to the LMS?" "lms" "Use your student e-mail address.".
Definition journal : Document :=
  chunk "Where do I submit an article?" "lms" "Articles go to the e-journal desk.".
Definition fees : Document :=
  chunk "When is the fee due?" "cms" "Fees are due at the start of each block.".

(** An index in which every question has the same neighbours: [hits]
    clear the threshold, [nearest] are the four nearest. *)
Definition index (hits nearest : list Document) : VectorStore :=
  {| similarity_score_threshold := fun _ => hits;
     similarity := fun _ => nearest |}.

Definition answering (a : string) : Remote :=
  {| retrieval_responds := true; generated := Some (txt a);
     extra_fields_accepted := true |}.

Definition generation_down : Remote :=
  {| retrieval_responds := true; generated := None;
     extra_fields_accepted := true |}.

Definition world (store : option VectorStore) (r : Remote) : World :=
  {| keywords := _get_default_keywords;
     vector_store := store;
     set_order := insertion_order;
     remote := r;
     choice := 0;
     fetch_invoice_data := fun _ => None;
     fetch_academic_data := fun _ => None;
     formatted := Some (txt "Your balance is 0.") |}.

(** An enumeration of sets other than the order of insertion. *)
Definition reversed_order : SetOrder :=
  {| set_list := fun l => reverse (remove_dups l);
     set_list_perm := fun l => reverse_Permutation (remove_dups l) |}.

Definition world_in_order (so : SetOrder) (store : option VectorStore)
           (r : Remote) : World :=
  {| keywords := _get_default_keywords;
     vector_store := store;
     set_order := so;
     remote := r;
     choice := 0;
     fetch_invoice_data := fun _ => None;
     fetch_academic_data := fun _ => None;
     formatted := Some (txt "Your balance is 0.") |}.

Definition entry (n : nat) : LogEntry :=
  {| timestamp := n; level := "info"; message := "tick" |}.

(** The manager right after [start_bot("Bot_Primary", {})] returned ... *)
Definition started : State := (start_bot init "Bot_Primary" ∅ 0 Launched).1.

(** ... and once its worker has brought the browser up. *)
Definition running : State :=
  act 0 (SetStatus "Processing messages" (Some 2)) (act 0 DriverUp started).

(** A manager whose log for ["Bot_Primary"] holds fifty entries. *)
Definition logged (n : nat) : State :=
  foldl (fun s i => add_bot_log s "Bot_Primary" "tick" "info" i) init (seq 0 n).

End Sample.

(* ===================================================================== *)
(** * More Python text operations *)
(* ===================================================================== *)

Module PyMore.
Import PyText.

(** [s.isdigit()] *)
Definition isdigit (s : text) : bool := nonempty s && forallb is_digit s.

(** [''.join(filter(str.isdigit, s))] *)
Definition digits_of (s : text) : text := List.filter is_digit s.

(** [s.replace(c, '')] for a one-character [c] *)
Definition remove_char (c : ascii) (s : text) : text :=
  List.filter (fun x => negb (Ascii.eqb x c)) s.

(** [s.split(sep)] for a one-character separator: the pieces between the
    separators, of which there is always at least one. *)
Fixpoint split_on (sep : ascii) (s : text) : list text :=
  match s with
  | [] => [[]]
  | c :: s' =>
      if Ascii.eqb c sep then [] :: split_on sep s'
      else match split_on sep s' with
           | piece :: pieces => (c :: piece) :: pieces
           | [] => [[c]]
           end
  end.

(** A letter the lower-cased message cannot contain. *)
Definition has_upper (phrase : text) : bool := existsb is_upper phrase.



End PyMore.

(* ===================================================================== *)
(** * More of the message helpers *)
(* ===================================================================== *)

Module HelpersMore.
Import PyText PyMore MessageHelpers RAG.

(** [MessageHelpers.is_unsaved_contact]; the number is not looked at. *)
Definition is_unsaved_contact (contact_name contact_number : text) : bool :=
  let cleaned :=
    remove_char "-" (remove_char " " (remove_char "+" contact_name)) in
  isdigit cleaned && (10 <=? length cleaned)%nat.

Section Helpers.
Variable kw : Keywords.

Definition is_fees_query (message : text) : bool :=
  any_in (get_keywords_for_category kw "fees") (lower message).

Definition is_academic_query (message : text) : bool :=
  any_in (get_keywords_for_category kw "academic") (lower message).

Definition is_student_specific_query (message : text) : bool :=
  any_in (get_keywords_for_category kw "student_specific") (lower message).

Definition is_tau_university_query (message : text) : bool :=
  any_in (get_keywords_for_category kw "tau_university") (lower message).

Definition classify_message_category (message : text) : string :=
  if is_paypal_query kw message then "payment"
  else if is_publication_query kw message then "publication"
  else if is_remittance_query kw message then "remittance"
  else if is_fees_query message then "fees"
  else if is_academic_query message then "academic"
  else if is_pure_greeting kw message then "greeting"
  else if is_satisfied_response kw message then "acknowledgment"
  else "general".

(** [add_keywords_to_category]: the new configuration and the result.  The
    list is rebuilt through a set, so its order is that of the set. *)
Definition add_keywords_to_category (so : SetOrder) (category : string)
           (keywords : list text) : Keywords * bool :=
  (<[category := set_list so (get_keywords_for_category kw category ++ keywords)]> kw,
   true).
End Helpers.

(** The characters [is_unsaved_contact] keeps: all but ['+'], the blank and
    ['-']. *)
Definition kept (x : ascii) : bool :=
  negb (Ascii.eqb x "+") && negb (Ascii.eqb x " ") && negb (Ascii.eqb x "-").

End HelpersMore.

(* ===================================================================== *)
(** * Student repository *)
(* ===================================================================== *)

(** [src/database/student_repository.py].  What [execute_query] returns is
    an input: [None] when the query failed, otherwise the rows; a column
    value is [None] for NULL and otherwise its text. *)
Module Repository.
Import PyText PyMore.

Definition Row := list (option text).

(** [row[i]]; the queries select every column they read. *)
Definition col (row : Row) (i : nat) : option text := mjoin (row !! i).

(** [str(v)] *)
Definition str (v : option text) : text := default (txt "None") v.

Record StudentDetails := {
  ApplicationNumber : option text;
  Salutation : text;
  FullName : option text;
  Email : option text;
  ProgramName : option text;
  Status : option text
}.

(** The dictionary returned when no student is found or the lookup fails. *)
Definition unknown_student (contact_name : text) : StudentDetails :=
  {| ApplicationNumber := Some []; Salutation := txt "Student";
     FullName := Some contact_name; Email := Some [];
     ProgramName := Some []; Status := Some [] |}.

(** [v or 'Student'] *)
Definition or_student (v : option text) : text :=
  match v with
  | Some (c :: s) => c :: s
  | _ => txt "Student"
  end.

(** [fetch_student_details] on the result of its query: [None] when the
    query raised.  Indexing a row that lacks a column raises, and the
    handler answers as for no student. *)
Definition fetch_student_details (result : option (list Row))
           (contact_number contact_name : text) : StudentDetails :=
  match result with
  | Some (row :: _) =>
      if (6 <=? length row)%nat then
        {| ApplicationNumber := col row 0; Salutation := or_student (col row 1);
           FullName := col row 2; Email := col row 3;
           ProgramName := col row 4; Status := col row 5 |}
      else unknown_student contact_name
  | _ => unknown_student contact_name
  end.

Record Course := {
  CourseName : option text;
  CourseCode : option text;
  EnrollmentDate : text;
  CourseStatus : option text;
  Grade : option text;
  Credits : option text;
  Mentor : option text
}.

Record AcademicData := {
  courses : list Course;
  total_courses : nat;
  completed_courses : nat;
  in_progress : nat
}.

Definition course_of (row : Row) : Course :=
  {| CourseName := col row 0; CourseCode := col row 1;
     EnrollmentDate := str (col row 2); CourseStatus := col row 3;
     Grade := col row 4; Credits := col row 5; Mentor := col row 6 |}.

(** [sum(1 for c in courses if c['Status'] == status)] *)
Definition count_status (status : string) (cs : list Course) : nat :=
  length (List.filter (fun c => bool_decide (CourseStatus c = Some (txt status))) cs).

(** [fetch_academic_data] on the result of its query; a row that lacks a
    column raises, and the handler returns [None]. *)
Definition fetch_academic_data (result : option (list Row)) : option AcademicData :=
  match result with
  | Some (row :: rows) =>
      if forallb (fun r : Row => (7 <=? length r)%nat) (row :: rows) then
        let courses := course_of <$> (row :: rows) in
        Some {| courses := courses;
                total_courses := length courses;
                completed_courses := count_status "Completed" courses;
                in_progress := count_status "In Progress" courses |}
      else None
  | _ => None
  end.

End Repository.

(* ===================================================================== *)
(** * The worker's message handling *)
(* ===================================================================== *)

(** [src/bot/whatsapp_automation.py], the parts that compute. *)
Module Automation.
Import PyText PyMore HelpersMore Repository MessageProcessor.

(** What [send_message] sends to the input box. *)
Inductive Key :=
| Typed (keys : text)     (* [input_box.send_keys(line)] *)
| ShiftEnter              (* [Keys.SHIFT + Keys.ENTER] *)
| Enter.                  (* [Keys.ENTER] *)

Definition newline : ascii := ascii_of_nat 10.

(** All the [send_keys] calls of one message, in order. *)
Definition keystrokes (message : text) : list Key :=
  concat ((fun line => [Typed line; ShiftEnter]) <$> split_on newline message)
  ++ [Enter].

(** [send_message]: the keys that reached the box and the result.
    [input_box] tells whether the box was found; [raises_at] is the index
    of the [send_keys] call that raises, if one does. *)
Definition send_message (input_box : bool) (raises_at : option nat)
           (message : text) : list Key * bool :=
  if input_box then
    match raises_at with
    | Some n =>
        if (n <? length (keystrokes message))%nat
        then (take n (keystrokes message), false)
        else (keystrokes message, true)
    | None => (keystrokes message, true)
    end
  else ([], false).




(** [''.join(filter(str.isdigit, contact_name.split('\n')[0])) or contact_name],
    the contact number [_process_chat] works with. *)
Definition contact_number_of (contact_name : text) : text :=
  match digits_of (default [] (head (split_on newline contact_name))) with
  | [] => contact_name
  | d :: ds => d :: ds
  end.

(** What [_process_chat] does with a chat. *)
Inductive ChatRoute :=
| UnsavedContact     (* [_handle_unsaved_contact] *)
| Skipped            (* no application number: open, wait, go back *)
| Answered.          (* open the chat and process its unread messages *)

Definition _process_chat (contact_name : text) (lookup : option (list Row))
  : ChatRoute :=
  let contact_number := contact_number_of contact_name in
  if is_unsaved_contact contact_name contact_number then UnsavedContact
  else
    let student_details :=
      fetch_student_details lookup contact_number contact_name in
    match ApplicationNumber student_details with
    | Some (_ :: _) => Answered
    | _ => Skipped
    end.

End Automation.

Module SampleMore.
Import PyText MessageHelpers RAG MessageProcessor Sample.

(** The academic rows of a student with one finished course and one under
    way. *)
Definition transcript : list Repository.Row :=
  [[Some (txt "Anatomy"); Some (txt "AN1"); Some (txt "2024-01-10");
    Some (txt "Completed"); Some (txt "A"); Some (txt "4"); None];
   [Some (txt "Physiology"); Some (txt "PH1"); None;
    Some (txt "In Progress"); None; Some (txt "4"); None]].

(** A configuration whose PayPal phrases are capitalised. *)
Definition capitalised : Keywords :=
  {[ "paypal" := [txt "PayPal"; txt "Undertaking Letter"] ]}.

(** A world in which the student's invoice is on record and the
    formatting model is down. *)
Definition formatter_down : World :=
  {| keywords := _get_default_keywords;
     vector_store := Some (index [fees] [fees]);
     set_order := insertion_order;
     remote := answering "Fees are due at the start of each block.";
     choice := 0;
     fetch_invoice_data := fun _ => Some (txt "{'invoice_count': 1}");
     fetch_academic_data := fun _ => None;
     formatted := None |}.

(** A world that shares only the keywords and the draw with [world]. *)
Definition other_world : World :=
  {| keywords := _get_default_keywords;
     vector_store := None;
     set_order := insertion_order;
     remote := generation_down;
     choice := 0;
     fetch_invoice_data := fun _ => Some (txt "{}");
     fetch_academic_data := fun _ => Some (txt "{}");
     formatted := None |}.

End SampleMore.

(* ===================================================================== *)
(** * More of the lifecycle manager *)
(* ===================================================================== *)

Module ManagerMore.
Import BotManager.

(** [stop_all_bots(timeout)].  [keys] is [list(self.bots.keys())], the
    registered names in the order the dictionary has them; [during] and [now]
    give, for each name, what the workers do while its [stop_bot] waits and
    the time at which it finishes. *)
Definition stop_all_bots (s : State) (keys : list string)
           (during : string -> list (nat * Action)) (now : string -> nat)
  : State * bool :=
  foldl (fun acc bot_name =>
           let '(s', ok) := stop_bot acc.1 bot_name (during bot_name) (now bot_name) in
           (s', if ok then acc.2 else false))
        (s, true) keys.

(** [restart_bot(bot_name, config)] *)
Definition restart_bot (s : State) (bot_name : string)
           (config : gmap string string) (during : list (nat * Action))
           (now_stop now_start : nat) (o : StartOutcome) : State * bool :=
  match bots s !! bot_name with
  | Some _ =>
      let '(s', ok) := stop_bot s bot_name during now_stop in
      if ok then start_bot s' bot_name config now_start o else (s', false)
  | None => start_bot s bot_name config now_start o
  end.

(** [get_active_bots()], over the same enumeration of the keys. *)
Definition get_active_bots (s : State) (keys : list string) : list string :=
  List.filter (is_bot_running s) keys.

(** The dictionary has a record for [n] that carries this name. *)
Definition named (st : gmap string Status) (n : string) : Prop :=
  exists r, st !! n = Some r /\ name r = n.

(** The registry refers to objects that exist and were made for the name
    they are registered under; a name with a bot or a thread has a stop
    event, and a name with a stop event has a record that carries it. *)
Definition registry_wf (s : State) : Prop :=
  (forall n b, bots s !! n = Some b ->
     exists bot, bot_objs s !! b = Some bot /\ bot_name bot = n)
  /\ (forall n t, bot_threads s !! n = Some t ->
        exists th bot, threads s !! t = Some th
                       /\ bot_objs s !! target th = Some bot /\ bot_name bot = n)
  /\ (forall n e, stop_events s !! n = Some e -> e < length (events s))
  /\ (forall n, is_Some (bots s !! n) \/ is_Some (bot_threads s !! n) ->
        is_Some (stop_events s !! n))
  /\ (forall n, is_Some (stop_events s !! n) -> named (bot_statuses s) n).

(** A bot object keeps its name and its event; its driver is only ever
    set. *)
Definition same_bot (b b' : Bot) : Prop :=
  bot_name b' = bot_name b /\ stop_event b' = stop_event b
  /\ (driver b = true -> driver b' = true).

(** [s'] is a later state of [s]: events that were set are set, threads and
    bots are still there under their index, a thread that was dead is dead,
    and a bot is the same bot. *)
Definition later (s s' : State) : Prop :=
  (forall e, is_set s e = true -> is_set s' e = true)
  /\ length (events s) <= length (events s')
  /\ (forall t th, threads s !! t = Some th ->
        exists th', threads s' !! t = Some th' /\ target th' = target th
                    /\ (alive th = false -> alive th' = false))
  /\ (forall i b, bot_objs s !! i = Some b ->
        exists b', bot_objs s' !! i = Some b' /\ same_bot b b').

(** The operations that are not [add_bot_log]. *)
Definition is_add_bot_log (op : Op) : bool :=
  match op with AddBotLog _ _ _ _ => true | _ => false end.

End ManagerMore.

(* ===================================================================== *)
(** * Facts about the text operations *)
(* ===================================================================== *)

Module PyTextFacts.
Import PyText.

Ltac by_cases_on_char c :=
  destruct c as [[] [] [] [] [] [] [] []]; vm_compute; first [reflexivity | discriminate | tauto].

Lemma isspace_to_lower c : isspace (to_lower c) = isspace c.
Proof. by_cases_on_char c. Qed.

Lemma word_not_space c : is_word c = true -> isspace c = false.
Proof. by_cases_on_char c. Qed.

Lemma space_not_word c : isspace c = true -> is_word c = false.
Proof. by_cases_on_char c. Qed.

(** ** [lstrip], [rstrip], [strip] *)

Lemma lstrip_lower s : lstrip (lower s) = lower (lstrip s).
Proof.
  induction s as [|c s IH]; simpl; [done|].
  rewrite isspace_to_lower. destruct (isspace c); [exact IH | done].
Qed.

Lemma lower_rev s : lower (rev s) = rev (lower s).
Proof. unfold lower. by rewrite map_rev. Qed.

Lemma strip_lower s : strip (lower s) = lower (strip s).
Proof.
  unfold strip, rstrip.
  by rewrite lstrip_lower, <- lower_rev, lstrip_lower, lower_rev.
Qed.

Lemma lstrip_idemp s : lstrip (lstrip s) = lstrip s.
Proof.
  induction s as [|c s IH]; simpl; [done|].
  destruct (isspace c) eqn:E; [exact IH | simpl; by rewrite E].
Qed.

Lemma lstrip_snoc_nonspace s c :
  isspace c = false -> lstrip (s ++ [c]) = lstrip s ++ [c].
Proof.
  intros Hc. induction s as [|a s IH]; simpl; [by rewrite Hc|].
  destruct (isspace a); [exact IH | done].
Qed.

Lemma lstrip_snoc_space s c :
  isspace c = true -> lstrip s = [] -> lstrip (s ++ [c]) = [].
Proof.
  intros Hc. induction s as [|a s IH]; simpl; [by rewrite Hc|].
  destruct (isspace a); [exact IH | done].
Qed.

Lemma rstrip_snoc s c :
  rstrip (s ++ [c]) = if isspace c then rstrip s else s ++ [c].
Proof.
  unfold rstrip. rewrite rev_app_distr. simpl.
  destruct (isspace c); [done|]. simpl. by rewrite rev_involutive.
Qed.

Lemma rstrip_nil : rstrip [] = [].
Proof. reflexivity. Qed.

Lemma rstrip_cons_nonspace c s :
  isspace c = false -> rstrip (c :: s) = c :: rstrip s.
Proof.
  intros Hc. unfold rstrip. simpl.
  rewrite lstrip_snoc_nonspace by done.
  by rewrite rev_app_distr.
Qed.

Lemma rstrip_idemp s : rstrip (rstrip s) = rstrip s.
Proof.
  unfold rstrip. by rewrite rev_involutive, lstrip_idemp.
Qed.

(** Trimming on the right keeps the left end trimmed. *)
Lemma lstrip_rstrip_fixed s : lstrip s = s -> lstrip (rstrip s) = rstrip s.
Proof.
  destruct s as [|c s]; [done|]. simpl.
  destruct (isspace c) eqn:E.
  - intros H. exfalso.
    assert (Hlen : (length (lstrip s) <= length s)%nat).
    { clear. induction s as [|a s IH]; simpl; [lia|].
      destruct (isspace a); simpl; lia. }
    rewrite H in Hlen. simpl in Hlen. lia.
  - intros _. rewrite rstrip_cons_nonspace by done. simpl. by rewrite E.
Qed.

Lemma strip_idemp s : strip (strip s) = strip s.
Proof.
  unfold strip.
  rewrite (lstrip_rstrip_fixed (lstrip s)) by apply lstrip_idemp.
  apply rstrip_idemp.
Qed.



(** ** Containment *)





(** ** Counting runs *)

Lemma length_flush cur :
  length (flush cur) = if nonempty cur then 1%nat else 0%nat.
Proof. by destruct cur. Qed.

Lemma length_runs_go p cur s :
  length (runs_go p cur s) = nruns p (nonempty cur) s.
Proof.
  revert cur. induction s as [|c s IH]; intros cur; simpl.
  - apply length_flush.
  - destruct (p c).
    + by rewrite IH.
    + by rewrite length_app, length_flush, IH.
Qed.

Lemma length_runs p s : length (runs p s) = nruns p false s.
Proof. apply length_runs_go. Qed.

Lemma nruns_lstrip s : nruns is_word false (lstrip s) = nruns is_word false s.
Proof.
  induction s as [|c s IH]; simpl; [done|].
  destruct (isspace c) eqn:E; [|done].
  by rewrite (space_not_word _ E).
Qed.

Lemma nruns_snoc_space open s c :
  isspace c = true -> nruns is_word open (s ++ [c]) = nruns is_word open s.
Proof.
  intros E. revert open. induction s as [|a s IH]; intros open; simpl.
  - rewrite (space_not_word _ E). lia.
  - destruct (is_word a); by rewrite IH.
Qed.

Lemma nruns_rstrip open s : nruns is_word open (rstrip s) = nruns is_word open s.
Proof.
  induction s as [|c s IH] using rev_ind; [done|].
  rewrite rstrip_snoc. destruct (isspace c) eqn:E; [|done].
  by rewrite IH, nruns_snoc_space.
Qed.

(** Trimming and lower-casing do not change the number of [\w+] tokens. *)
Lemma count_words_strip s :
  length (findall_words (strip s)) = length (findall_words s).
Proof.
  unfold findall_words, strip.
  by rewrite !length_runs, nruns_rstrip, nruns_lstrip.
Qed.

End PyTextFacts.

(* ===================================================================== *)
(** * Question extraction *)
(* ===================================================================== *)

Module ExtractFacts.
Import PyText PyTextFacts MessageHelpers Residue.

(** ** White-space normalisation *)

Lemma collapse_go_fixed z b b' :
  b = true \/ b' = false ->
  collapse_go b' (collapse_go b z) = collapse_go b z.
Proof.
  revert b b'. induction z as [|c z IH]; intros b b' Hb; simpl; [done|].
  destruct (isspace c) eqn:E.
  - destruct b.
    + apply IH. by left.
    + destruct Hb as [?| ->]; [done|]. simpl.
      change (isspace " ") with true. simpl.
      f_equal. apply IH. by left.
  - simpl. rewrite E. f_equal. apply IH. by right.
Qed.

Lemma collapse_ws_idemp z : collapse_ws (collapse_ws z) = collapse_ws z.
Proof. apply collapse_go_fixed. by right. Qed.

Lemma lstrip_collapse b s : lstrip (collapse_go b s) = collapse_ws (lstrip s).
Proof.
  revert b. induction s as [|c s IH]; intros b; simpl; [done|].
  destruct (isspace c) eqn:E.
  - destruct b; [apply IH|]. simpl. change (isspace " ") with true. apply IH.
  - simpl. rewrite E. unfold collapse_ws. simpl. by rewrite E.
Qed.

Lemma end_in_space_cons b a s :
  end_in_space b (a :: s) = end_in_space (isspace a) s.
Proof.
  unfold end_in_space. destruct s as [|a' s]; [done|].
  change (last (a :: a' :: s)) with (last (a' :: s)).
  destruct (last (a' :: s)) eqn:E; [done|].
  by apply last_None in E.
Qed.

Lemma collapse_go_snoc b s c :
  collapse_go b (s ++ [c]) =
  collapse_go b s ++
    (if isspace c
     then (if end_in_space b s then [] else [" "%char])
     else [c]).
Proof.
  revert b. induction s as [|a s IH]; intros b.
  - simpl. destruct (isspace c), b; done.
  - rewrite end_in_space_cons. simpl.
    destruct (isspace a) eqn:E.
    + destruct b; by rewrite IH.
    + by rewrite IH.
Qed.

Lemma collapse_rstrip b s : collapse_go b (rstrip s) = rstrip (collapse_go b s).
Proof.
  induction s as [|c s IH] using rev_ind; [done|].
  rewrite rstrip_snoc, collapse_go_snoc.
  destruct (isspace c) eqn:E.
  - rewrite IH. destruct (end_in_space b s).
    + by rewrite app_nil_r.
    + by rewrite rstrip_snoc.
  - by rewrite collapse_go_snoc, E, rstrip_snoc, E.
Qed.

Lemma collapse_strip s : collapse_ws (strip s) = strip (collapse_ws s).
Proof.
  unfold strip, collapse_ws. by rewrite collapse_rstrip, lstrip_collapse.
Qed.

Lemma normalize_idemp s : normalize (normalize s) = normalize s.
Proof.
  unfold normalize.
  by rewrite collapse_strip, collapse_ws_idemp, strip_idemp.
Qed.

(** ** The two substitutions *)

Lemma sub_salutation_free alts prev s :
  salutation_free alts prev s = true -> sub_salutation_go alts prev 0 s = s.
Proof.
  revert prev. induction s as [|c s IH]; intros prev; [done|].
  cbn [salutation_free sub_salutation_go].
  intros [Hc Hs]%andb_true_iff.
  apply bool_decide_eq_true in Hc. rewrite Hc. f_equal. by apply IH.
Qed.

Lemma pleasantries_fixed kw s :
  starts_with_greeting kw s = false -> has_honorific kw s = false ->
  strip_pleasantries kw s = s.
Proof.
  unfold starts_with_greeting, has_honorific, strip_pleasantries.
  intros Hg Hh.
  set (gp := get_keywords_for_category kw "greeting_prefixes") in *.
  set (sal := get_keywords_for_category kw "salutations") in *.
  assert (Hg' : (if pattern_is_empty gp then s else sub_greeting gp s) = s).
  { destruct (pattern_is_empty gp); [done|]. simpl in Hg.
    apply bool_decide_eq_false in Hg. unfold sub_greeting.
    destruct (first_match (try_greeting s) gp); [|done].
    exfalso. apply Hg. by eexists. }
  rewrite Hg'.
  destruct (pattern_is_empty sal); [done|]. simpl in Hh.
  apply negb_false_iff in Hh. by apply sub_salutation_free.
Qed.

Lemma extract_unfold kw s :
  extract_question_from_message kw s =
  match normalize (strip_pleasantries kw s) with
  | [] => s
  | _ :: _ => normalize (strip_pleasantries kw s)
  end.
Proof. reflexivity. Qed.

(** ** Re-applying the extraction *)

(** C3, as stated, fails: only one leading greeting is removed per call,
    so a second call removes the next one.  With the default keywords,
    ["hi hello there"] becomes ["hello there"], which becomes ["there"]. *)
Lemma extract_question_not_idempotent :
  extract_question_from_message _get_default_keywords
    (extract_question_from_message _get_default_keywords (txt "hi hello there"))
  <> extract_question_from_message _get_default_keywords (txt "hi hello there").
Proof. vm_compute. discriminate. Qed.

Example extract_once :
  extract_question_from_message _get_default_keywords (txt "hi hello there")
  = txt "hello there".
Proof. vm_compute. reflexivity. Qed.

Example extract_twice :
  extract_question_from_message _get_default_keywords (txt "hello there")
  = txt "there".
Proof. vm_compute. reflexivity. Qed.

(** C3 (amended): re-applying [extract_question_from_message] to its own
    output yields the same text whenever that output no longer begins
    with a configured greeting prefix and no longer contains an honorific
    token. *)
Theorem extract_question_idempotent_on_clean_output kw x :
  starts_with_greeting kw (extract_question_from_message kw x) = false ->
  has_honorific kw (extract_question_from_message kw x) = false ->
  extract_question_from_message kw (extract_question_from_message kw x)
  = extract_question_from_message kw x.
Proof.
  rewrite (extract_unfold kw x).
  destruct (normalize (strip_pleasantries kw x)) as [|c t] eqn:E.
  { intros _ _. by rewrite extract_unfold, E. }
  intros Hg Hh.
  rewrite extract_unfold, (pleasantries_fixed _ _ Hg Hh).
  rewrite <- E, normalize_idemp. rewrite E. done.
Qed.

Lemma extract_question_idempotent_on_clean_output_witness :
  starts_with_greeting _get_default_keywords
    (extract_question_from_message _get_default_keywords
       (txt "Hello Sir,  what is   my fee balance")) = false
  /\ has_honorific _get_default_keywords
    (extract_question_from_message _get_default_keywords
       (txt "Hello Sir,  what is   my fee balance")) = false
  /\ extract_question_from_message _get_default_keywords
       (extract_question_from_message _get_default_keywords
          (txt "Hello Sir,  what is   my fee balance"))
     = extract_question_from_message _get_default_keywords
         (txt "Hello Sir,  what is   my fee balance").
Proof.
  split; [vm_compute; reflexivity|].
  split; [vm_compute; reflexivity|].
  apply (extract_question_idempotent_on_clean_output _get_default_keywords
           (txt "Hello Sir,  what is   my fee balance"));
    vm_compute; reflexivity.
Defined.

End ExtractFacts.

(* ===================================================================== *)
(** * Retrieval confidence *)
(* ===================================================================== *)

Module RAGFacts.
Import PyText RAG Sample.

Lemma ratio_mono n1 n2 :
  (n1 <= n2)%nat ->
  (inject_Z (Z.of_nat n1) / K <= inject_Z (Z.of_nat n2) / K)%Q.
Proof.
  intros H. unfold Qdiv. apply Qmult_le_compat_r; [|done].
  rewrite <- Zle_Qle. lia.
Qed.

Lemma confidence_of_mono n1 n2 :
  (n1 <= n2)%nat -> (confidence_of n1 <= confidence_of n2)%Q.
Proof.
  intros H. unfold confidence_of. apply Qmult_le_compat_r; [|done].
  apply Q.min_le_compat_r. by apply ratio_mono.
Qed.

Lemma confidence_of_le n : (confidence_of n <= 9 # 10)%Q.
Proof.
  unfold confidence_of.
  apply Qle_trans with (1 * (9 # 10))%Q; [|done].
  apply Qmult_le_compat_r; [|done]. apply Q.le_min_r.
Qed.

Lemma confidence_of_zero : (confidence_of 0 == 0)%Q.
Proof. reflexivity. Qed.

(** ** The prompt template *)

Lemma format_fields_go_plain n s :
  brace_free s = true -> format_fields_go Literal n s = Some n.
Proof.
  induction s as [|c s IH]; [done|].
  simpl. intros [Hc Hs]%andb_true_iff.
  apply negb_true_iff, orb_false_iff in Hc as [-> ->]. by apply IH.
Qed.

(** A salutation without braces leaves the template as it is written. *)
Lemma setup_qa_chain_plain r salutation :
  brace_free salutation = true -> setup_qa_chain r salutation = true.
Proof.
  intros H. unfold setup_qa_chain, format_fields.
  by rewrite format_fields_go_plain.
Qed.

Lemma query_setup_failed store so r question salutation interface :
  setup_qa_chain r salutation = false ->
  query (Some store) so r question salutation interface = query_failed salutation.
Proof. intros H. unfold query. by rewrite H. Qed.

(** The confidence of a result, whatever branch produced it. *)
Lemma query_confidence_cases vs so r question salutation interface :
  (query vs so r question salutation interface).1.2 = 0%Q
  \/ exists n, (query vs so r question salutation interface).1.2 = confidence_of n.
Proof.
  unfold query. destruct vs as [store|]; [|by left].
  destruct (setup_qa_chain r salutation); simpl; [|by left].
  destruct (retrieval_responds r); simpl; [|by left].
  destruct (similarity_score_threshold store question); [by left|].
  destruct (generated r); [|by left].
  right. by eexists.
Qed.

(** Two calls that differ in the enumeration of sets and in the text
    generated. *)
Lemma query_up_to_order vs so1 so2 r1 r2 question salutation interface :
  setup_qa_chain r1 salutation = setup_qa_chain r2 salutation ->
  retrieval_responds r1 = retrieval_responds r2 ->
  (is_Some (generated r1) <-> is_Some (generated r2)) ->
  (query vs so1 r1 question salutation interface).1.2
    = (query vs so2 r2 question salutation interface).1.2
  /\ length (query vs so1 r1 question salutation interface).2
     = length (query vs so2 r2 question salutation interface).2
  /\ ((forall l, set_list so1 l = set_list so2 l) ->
      (query vs so1 r1 question salutation interface).2
      = (query vs so2 r2 question salutation interface).2)
  /\ (forall store, vs = Some store ->
      (length (remove_dups (questions_of (similarity store question))) <= 3)%nat ->
      (query vs so1 r1 question salutation interface).2
      ≡ₚ (query vs so2 r2 question salutation interface).2).
Proof.
  intros Hs Hr Hg. unfold query. destruct vs as [store|]; [|done].
  rewrite <- Hs. destruct (setup_qa_chain r1 salutation); simpl; [|done].
  rewrite <- Hr. destruct (retrieval_responds r1); simpl; [|done].
  destruct (similarity_score_threshold store question); [done|].
  destruct (generated r1) as [a1|], (generated r2) as [a2|]; try done.
  - simpl. unfold source_questions_of.
    fold (questions_of (similarity store question)).
    set (qs := questions_of (similarity store question)).
    pose proof (set_list_perm so1 qs) as P1.
    pose proof (set_list_perm so2 qs) as P2.
    split; [done|]. split; [|split].
    + rewrite !length_take. by rewrite P1, P2.
    + intros H. by rewrite H.
    + intros store' [= <-] Hlen.
      rewrite !take_ge; [by rewrite P1, P2 | by rewrite P2 | by rewrite P1].
  - exfalso. destruct Hg as [Hg _]. destruct Hg as [? ?]; [by eexists | done].
  - exfalso. destruct Hg as [_ Hg]. destruct Hg as [? ?]; [by eexists | done].
Qed.

(** C2, as stated, fails in two ways.  When the caller passes an interface
    tag: two chunks clear the similarity threshold, one of them carries the
    tag ["lms"], and the confidence is that of one chunk, not of two.  And
    when the salutation has a single brace: the prompt template it is
    spliced into does not parse, [setup_qa_chain] raises before anything is
    searched, and with no chunk above the threshold the result is the error
    message, not the could-not-find message. *)
Lemma query_confidence_as_stated_fails :
  (length (similarity_score_threshold (index [refund; portal] [refund; portal])
             (txt "how do I log in")) = 2%nat
   /\ ~ ((query (Some (index [refund; portal] [refund; portal])) insertion_order
            (answering "Use your e-mail address.")
            (txt "how do I log in") (txt "Student") (Some (txt "lms"))).1.2
         == Qmin (inject_Z (Z.of_nat 2) / 4) 1 * (9 # 10))%Q)
  /\ (similarity_score_threshold (index [] [refund]) (txt "tell me a joke") = []
      /\ query (Some (index [] [refund])) insertion_order (answering "unused")
           (txt "tell me a joke") (txt "Dr {Rao") None
         = (txt "Dr {Rao"
              ++ txt ", I encountered an error processing your question. "
              ++ txt "Please try again or contact support.",
            0%Q, [])
      /\ query (Some (index [] [refund])) insertion_order (answering "unused")
           (txt "tell me a joke") (txt "Dr {Rao") None
         <> (txt "Dr {Rao"
               ++ txt ", I couldn't find specific information about your query. "
               ++ txt "Could you rephrase or provide more details?",
             0%Q, [])).
Proof.
  split; [split; [reflexivity | vm_compute; discriminate]|].
  split; [reflexivity|]. split; [reflexivity|]. vm_compute. discriminate.
Qed.

(** A failing generation call is another way: the chunk is there, the
    confidence is zero. *)
Example confidence_zero_when_generation_fails :
  (query (Some (index [refund] [refund])) insertion_order generation_down
     (txt "refund") (txt "Student") None).1.2 = 0%Q.
Proof. reflexivity. Qed.

(** C2 (amended): on an initialised index, for a salutation with which the
    chain can be set up (every salutation without a brace is one), when the
    retriever responds: if no chunk clears the similarity threshold the
    result is the could-not-find message addressed with the salutation,
    confidence 0.0 and no sources; otherwise, when the generation call
    returns, the confidence is [min(n / 4, 1.0) * 0.9] where [n] counts the
    chunks that clear the threshold and pass the interface filter (all of
    them when no interface tag is given).  That value is monotonic
    non-decreasing in [n], and the confidence of every result is at most
    0.9.  A salutation that does not parse as a format string (a single
    brace, a field that is not closed) gives the error message with
    confidence 0.0 and no sources on every query. *)
Theorem query_confidence store so r question salutation interface :
  (setup_qa_chain r salutation = true ->
   retrieval_responds r = true ->
   similarity_score_threshold store question = [] ->
   query (Some store) so r question salutation interface
   = (salutation ++ txt ", I couldn't find specific information about your query. "
                 ++ txt "Could you rephrase or provide more details?",
      0%Q, []))
  /\ (setup_qa_chain r salutation = true ->
      retrieval_responds r = true ->
      similarity_score_threshold store question <> [] ->
      is_Some (generated r) ->
      (query (Some store) so r question salutation interface).1.2
      = (Qmin (inject_Z (Z.of_nat
           (length (interface_filter interface
                      (similarity_score_threshold store question)))) / 4) 1
         * (9 # 10))%Q)
  /\ interface_filter None (similarity_score_threshold store question)
     = similarity_score_threshold store question
  /\ (forall n1 n2 : nat, (n1 <= n2)%nat ->
      (Qmin (inject_Z (Z.of_nat n1) / 4) 1 * (9 # 10)
       <= Qmin (inject_Z (Z.of_nat n2) / 4) 1 * (9 # 10))%Q)
  /\ (forall vs, ((query vs so r question salutation interface).1.2 <= 9 # 10)%Q)
  /\ (brace_free salutation = true -> setup_qa_chain r salutation = true)
  /\ (format_fields salutation = None ->
      query (Some store) so r question salutation interface
      = (salutation ++ txt ", I encountered an error processing your question. "
                    ++ txt "Please try again or contact support.",
         0%Q, [])).
Proof.
  split; [|split; [|split; [|split; [|split; [|split]]]]].
  - intros Hs Hr Hhits. unfold query. by rewrite Hs, Hr, Hhits.
  - intros Hs Hr Hhits [answer Hg]. unfold query. rewrite Hs, Hr, Hg. simpl.
    by destruct (similarity_score_threshold store question).
  - reflexivity.
  - apply confidence_of_mono.
  - intros vs.
    destruct (query_confidence_cases vs so r question salutation interface)
      as [-> | [n ->]]; [done | apply confidence_of_le].
  - apply setup_qa_chain_plain.
  - intros Hf. apply query_setup_failed. unfold setup_qa_chain. by rewrite Hf.
Qed.

Lemma query_confidence_witness :
  brace_free (txt "Student") = true
  /\ (query (Some (index [refund; portal; fees] [refund; portal; fees; journal]))
        insertion_order (answering "Fees are due at the start of each block.")
        (txt "when is the fee due") (txt "Student") None).1.2
     = (Qmin (inject_Z (Z.of_nat 3) / 4) 1 * (9 # 10))%Q
  /\ query (Some (index [] [refund])) insertion_order (answering "unused")
       (txt "tell me a joke") (txt "Student") None
     = (txt "Student"
          ++ txt ", I couldn't find specific information about your query. "
          ++ txt "Could you rephrase or provide more details?",
        0%Q, []).
Proof.
  split; [reflexivity|]. split.
  - apply (query_confidence
             (index [refund; portal; fees] [refund; portal; fees; journal])
             insertion_order (answering "Fees are due at the start of each block.")
             (txt "when is the fee due") (txt "Student") None).
    + apply (query_confidence
               (index [refund; portal; fees] [refund; portal; fees; journal])
               insertion_order
               (answering "Fees are due at the start of each block.")
               (txt "when is the fee due") (txt "Student") None).
      reflexivity.
    + reflexivity.
    + discriminate.
    + by eexists.
  - apply (query_confidence (index [] [refund]) insertion_order
             (answering "unused") (txt "tell me a joke") (txt "Student") None);
      reflexivity.
Defined.

End RAGFacts.

(* ===================================================================== *)
(** * Routing and synthesis *)
(* ===================================================================== *)

Module ProcessorFacts.
Import PyText PyTextFacts MessageHelpers RAG MessageProcessor Router Sample.
Import RAGFacts.

(** ** The cascade is the rule chain *)

Lemma process_text_message_dispatch w message contact_id contact_name
      salutation chat_context :
  process_text_message w message contact_id contact_name salutation chat_context
  = handle w (classify (keywords w) (strip message)) (strip message)
           contact_id salutation chat_context.
Proof.
  unfold process_text_message, classify, priority. simpl.
  destruct (is_pure_greeting _ _); [done|].
  destruct (is_satisfied_response _ _); [done|].
  destruct (is_paypal_query _ _); [done|].
  destruct (is_publication_query _ _); [done|].
  destruct (is_remittance_query _ _); [done|].
  destruct (_is_student_specific_query _); done.
Qed.

Ltac earlier_rules_fail :=
  let r' := fresh "r" in let Hr := fresh "Hr" in
  intros r' Hr; destruct r'; simpl in Hr; try lia; assumption.

Ltac rule_is_first Hall r0 :=
  specialize (Hall r0); simpl in Hall;
  lazymatch type of Hall with
  | _ -> ?b = false => assert (b = false) by (apply Hall; lia); congruence
  end.

(** [classify] returns the first rule of the chain that matches. *)
Lemma classify_first_match kw m r :
  classify kw m = r <->
  rule_matches kw r m = true
  /\ forall r', (rank r' < rank r)%nat -> rule_matches kw r' m = false.
Proof.
  unfold classify, priority. simpl.
  destruct (is_pure_greeting kw m) eqn:E1.
  { split.
    - intros <-. split; [done | earlier_rules_fail].
    - intros [Hm Hall]. destruct r; try done; rule_is_first Hall PureGreeting. }
  destruct (is_satisfied_response kw m) eqn:E2.
  { split.
    - intros <-. split; [done | earlier_rules_fail].
    - intros [Hm Hall]. destruct r; simpl in Hm; try done; try congruence;
        rule_is_first Hall Acknowledgment. }
  destruct (is_paypal_query kw m) eqn:E3.
  { split.
    - intros <-. split; [done | earlier_rules_fail].
    - intros [Hm Hall]. destruct r; simpl in Hm; try done; try congruence;
        rule_is_first Hall PayPal. }
  destruct (is_publication_query kw m) eqn:E4.
  { split.
    - intros <-. split; [done | earlier_rules_fail].
    - intros [Hm Hall]. destruct r; simpl in Hm; try done; try congruence;
        rule_is_first Hall Publication. }
  destruct (is_remittance_query kw m) eqn:E5.
  { split.
    - intros <-. split; [done | earlier_rules_fail].
    - intros [Hm Hall]. destruct r; simpl in Hm; try done; try congruence;
        rule_is_first Hall Remittance. }
  destruct (_is_student_specific_query m) eqn:E6.
  { split.
    - intros <-. split; [done | earlier_rules_fail].
    - intros [Hm Hall]. destruct r; simpl in Hm; try done; try congruence;
        rule_is_first Hall StudentSpecific. }
  split.
  - intros <-. split; [done | earlier_rules_fail].
  - intros [Hm Hall]. destruct r; simpl in Hm; try done; congruence.
Qed.

(** C1, as stated, fails in its last part: a short message that matches a
    PayPal phrase and a publication phrase can match the acknowledgment
    rule first.  With the default keywords, ["paypal link article"] has
    three words and contains the acknowledgment ["k"]. *)
Lemma paypal_and_publication_not_always_paypal :
  ~ (is_paypal_query _get_default_keywords (txt "paypal link article") = true ->
     is_publication_query _get_default_keywords (txt "paypal link article") = true ->
     message_type
       (process_text_message (world None (answering "unused"))
          (txt "paypal link article") (txt "c1") (txt "Asha") (txt "Student") [])
     = "paypal_query").
Proof.
  intros H.
  assert (Hc : message_type
       (process_text_message (world None (answering "unused"))
          (txt "paypal link article") (txt "c1") (txt "Asha") (txt "Student") [])
     = "acknowledgment") by (vm_compute; reflexivity).
  rewrite H in Hc; [discriminate Hc | vm_compute; reflexivity..].
Qed.

(** C1 (amended): [process_text_message] answers with the branch of the
    first rule, in the order greeting, acknowledgment, PayPal, publication,
    remittance, student-specific, general FAQ, that matches the trimmed
    message; a rule is chosen exactly when it matches and no earlier rule
    does.  In particular a message matching both a PayPal phrase and a
    publication phrase is classified PayPal whenever it matches neither
    the greeting nor the acknowledgment rule. *)
Theorem classifier_is_priority_chain w message contact_id contact_name
        salutation chat_context :
  process_text_message w message contact_id contact_name salutation chat_context
  = handle w (classify (keywords w) (strip message)) (strip message)
           contact_id salutation chat_context
  /\ (forall r,
       classify (keywords w) (strip message) = r <->
       rule_matches (keywords w) r (strip message) = true
       /\ forall r', (rank r' < rank r)%nat ->
                     rule_matches (keywords w) r' (strip message) = false)
  /\ (is_pure_greeting (keywords w) (strip message) = false ->
      is_satisfied_response (keywords w) (strip message) = false ->
      is_paypal_query (keywords w) (strip message) = true ->
      is_publication_query (keywords w) (strip message) = true ->
      classify (keywords w) (strip message) = PayPal
      /\ process_text_message w message contact_id contact_name salutation
           chat_context
         = _handle_paypal_query salutation).
Proof.
  split; [apply process_text_message_dispatch|].
  split; [intros r; apply classify_first_match|].
  intros Hg Ha Hp _.
  assert (Hc : classify (keywords w) (strip message) = PayPal).
  { apply classify_first_match. split; [exact Hp|].
    intros r' Hr. destruct r'; simpl in Hr; try lia; assumption. }
  split; [exact Hc|].
  by rewrite process_text_message_dispatch, Hc.
Qed.

Lemma classifier_is_priority_chain_witness :
  classify _get_default_keywords
    (strip (txt "  Can I pay my journal article fee through PayPal?  ")) = PayPal
  /\ process_text_message (world None (answering "unused"))
       (txt "  Can I pay my journal article fee through PayPal?  ")
       (txt "c1") (txt "Asha") (txt "Student") []
     = _handle_paypal_query (txt "Student").
Proof.
  apply (classifier_is_priority_chain (world None (answering "unused"))
           (txt "  Can I pay my journal article fee through PayPal?  ")
           (txt "c1") (txt "Asha") (txt "Student") []);
    vm_compute; reflexivity.
Defined.

(** ** Greetings *)

Lemma random_choice_nonempty i a b c :
  a <> [] -> b <> [] -> c <> [] -> random_choice i [a; b; c] <> [].
Proof.
  intros Ha Hb Hc. unfold random_choice. simpl length.
  pose proof (Nat.mod_upper_bound i 3 ltac:(lia)) as Hi.
  destruct (i mod 3)%nat as [|[|[|k]]]; simpl; try done. lia.
Qed.

Lemma greeting_reply w salutation :
  message_type (_handle_greeting w salutation) = "greeting"
  /\ category (_handle_greeting w salutation) = "greeting"
  /\ confidence (_handle_greeting w salutation) = 1%Q
  /\ response (_handle_greeting w salutation) <> [].
Proof.
  repeat split. unfold _handle_greeting, reply; simpl.
  apply random_choice_nonempty.
  - intros [_ H]%app_eq_nil. discriminate H.
  - discriminate.
  - discriminate.
Qed.




(** ** Publication queries *)

Lemma publication_reply w salutation message :
  confidence (_handle_publication_query w salutation message) = 1%Q
  /\ sources (_handle_publication_query w salutation message)
     = (rag_query w message salutation).2
  /\ response (_handle_publication_query w salutation message)
     = publication_contact salutation
         ++ (if Qle_bool (65 # 100) (rag_query w message salutation).1.2
             then nl ++ nl ++ (rag_query w message salutation).1.1
             else []).
Proof.
  unfold _handle_publication_query.
  by destruct (rag_query w message salutation) as [[answer c] srcs].
Qed.

(** C6, as stated, fails for the source list: the publication branch hands
    on the sources of its secondary lookup.  Here one chunk clears the
    threshold, so nothing is appended to the contact text, and yet the
    reply names that chunk's question as its source. *)
Lemma publication_reply_has_sources :
  ~ (classify _get_default_keywords (strip (txt "where do I send my manuscript"))
     = Publication ->
     sources (process_text_message
                (world (Some (index [journal] [journal; refund]))
                       (answering "Send it to the e-journal desk."))
                (txt "where do I send my manuscript")
                (txt "c1") (txt "Asha") (txt "Student") []) = []).
Proof.
  intros H.
  assert (Hs : length (sources (process_text_message
                (world (Some (index [journal] [journal; refund]))
                       (answering "Send it to the e-journal desk."))
                (txt "where do I send my manuscript")
                (txt "c1") (txt "Asha") (txt "Student") [])) = 2%nat)
    by (vm_compute; reflexivity).
  rewrite H in Hs; [discriminate Hs | vm_compute; reflexivity].
Qed.

(** C6 (amended): for every message classified as publication-intent the
    reply has confidence exactly 1.0, its source list is the source list
    of the secondary general-FAQ lookup, and the fixed contact text has
    that lookup's answer appended if and only if the lookup's confidence
    is at least 0.65. *)
Theorem publication_intent_reply w message contact_id contact_name
        salutation chat_context :
  classify (keywords w) (strip message) = Publication ->
  confidence (process_text_message w message contact_id contact_name
                salutation chat_context) = 1%Q
  /\ sources (process_text_message w message contact_id contact_name
                salutation chat_context)
     = (rag_query w (strip message) salutation).2
  /\ ((65 # 100 <= (rag_query w (strip message) salutation).1.2)%Q ->
      response (process_text_message w message contact_id contact_name
                  salutation chat_context)
      = publication_contact salutation ++ nl ++ nl
          ++ (rag_query w (strip message) salutation).1.1)
  /\ (~ (65 # 100 <= (rag_query w (strip message) salutation).1.2)%Q ->
      response (process_text_message w message contact_id contact_name
                  salutation chat_context)
      = publication_contact salutation).
Proof.
  intros Hc. rewrite process_text_message_dispatch, Hc. simpl handle.
  destruct (publication_reply w salutation (strip message)) as (H1 & H2 & H3).
  split; [exact H1|]. split; [exact H2|]. rewrite H3. split.
  - intros Hle. apply Qle_bool_iff in Hle. by rewrite Hle.
  - intros Hlt. destruct (Qle_bool _ _) eqn:E.
    + apply Qle_bool_iff in E. done.
    + by rewrite app_nil_r.
Qed.

Lemma publication_intent_reply_witness :
  classify _get_default_keywords (strip (txt "how do I publish a research paper"))
  = Publication
  /\ sources (process_text_message
                (world (Some (index [journal; portal; refund]
                                    [journal; portal; refund; fees]))
                       (answering "Send it to the e-journal desk."))
                (txt "how do I publish a research paper")
                (txt "c1") (txt "Asha") (txt "Student") [])
     = (rag_query (world (Some (index [journal; portal; refund]
                                      [journal; portal; refund; fees]))
                         (answering "Send it to the e-journal desk."))
                  (strip (txt "how do I publish a research paper"))
                  (txt "Student")).2.
Proof.
  assert (H : classify _get_default_keywords
                (strip (txt "how do I publish a research paper")) = Publication)
    by (vm_compute; reflexivity).
  split; [exact H|].
  apply (publication_intent_reply
           (world (Some (index [journal; portal; refund]
                               [journal; portal; refund; fees]))
                  (answering "Send it to the e-journal desk."))
           (txt "how do I publish a research paper")
           (txt "c1") (txt "Asha") (txt "Student") [] H).
Defined.

(** ** The FAQ branch twice *)

Lemma faq_raises w message salutation chat_context :
  _handle_faq_query w message salutation chat_context = None
  <-> enhanced_query message chat_context = None.
Proof.
  unfold _handle_faq_query.
  destruct (enhanced_query message chat_context) as [q|]; simpl; [|done].
  by destruct (rag_query w q salutation) as [[a c] srcs].
Qed.

Lemma faq_reply_fields w message salutation chat_context r :
  _handle_faq_query w message salutation chat_context = Some r ->
  exists q,
    enhanced_query message chat_context = Some q
    /\ category r = "general"
    /\ confidence r = (rag_query w q salutation).1.2
    /\ sources r = (rag_query w q salutation).2
    /\ requires_followup r = false
    /\ message_type r
       = (if Qle_bool (75 # 100) (confidence r) then "faq_answer_high_confidence"
          else if Qle_bool (65 # 100) (confidence r) then "faq_answer"
          else "low_confidence_answer").
Proof.
  unfold _handle_faq_query.
  destruct (enhanced_query message chat_context) as [q|]; simpl; [|done].
  destruct (rag_query w q salutation) as [[a c] srcs] eqn:Eq.
  intros [= <-]. exists q. rewrite Eq. split; [done|].
  destruct (Qle_bool (75 # 100) c) eqn:E1;
    [|destruct (Qle_bool (65 # 100) c) eqn:E2];
    simpl; rewrite ?E1, ?E2; done.
Qed.

(** C9, as stated, fails in two ways.  A call in which the generation
    service fails ends in the exception branch of [query], with confidence
    zero, where the same call with the service up has the confidence of one
    chunk.  And the three sources kept of four come from the enumeration of
    a set: with the same index and the same services, one enumeration keeps
    the question on refunds and another drops it. *)
Lemma faq_path_as_stated_not_deterministic :
  (exists r1 r2,
     _handle_faq_query
       (world (Some (index [refund] [refund])) (answering "Refunds take ten days."))
       (txt "what is the refund policy") (txt "Student") [] = Some r1
     /\ _handle_faq_query
          (world (Some (index [refund] [refund])) generation_down)
          (txt "what is the refund policy") (txt "Student") [] = Some r2
     /\ ~ (confidence r1 == confidence r2)%Q)
  /\ (exists r1 r2,
        _handle_faq_query
          (world_in_order insertion_order
             (Some (index [refund] [refund; portal; journal; fees]))
             (answering "Refunds take ten days."))
          (txt "what is the refund policy") (txt "Student") [] = Some r1
        /\ _handle_faq_query
             (world_in_order reversed_order
                (Some (index [refund] [refund; portal; journal; fees]))
                (answering "Refunds take ten days."))
             (txt "what is the refund policy") (txt "Student") [] = Some r2
        /\ txt "How do I get a refund?" ∈ sources r1
        /\ txt "How do I get a refund?" ∉ sources r2).
Proof.
  split.
  { eexists _, _. split; [reflexivity|]. split; [reflexivity|].
    vm_compute. discriminate. }
  eexists _, _. split; [reflexivity|]. split; [reflexivity|].
  split; [vm_compute; left|].
  vm_compute. intros H. inversion_clear H as [|? ? ? H1].
  inversion_clear H1 as [|? ? ? H2]. inversion_clear H2 as [|? ? ? H3].
  inversion H3.
Qed.

(** C9 (amended): two calls of the FAQ branch with the same message and
    chat context against the same index, during which the chain set-up, the
    retriever and the generation call are equally available (each returns
    in both calls or in neither), both raise on the chat context or neither
    does, and their replies have the same category, the same confidence,
    the same message type and the same number of sources, whatever text is
    generated.  The sources are the same list when both calls enumerate
    sets alike, as two calls in one process do, and the same set whenever
    the chunks retrieved carry at most three distinct questions. *)
Theorem faq_branch_deterministic w1 w2 message salutation chat_context :
  vector_store w1 = vector_store w2 ->
  setup_qa_chain (remote w1) salutation = setup_qa_chain (remote w2) salutation ->
  retrieval_responds (remote w1) = retrieval_responds (remote w2) ->
  (is_Some (generated (remote w1)) <-> is_Some (generated (remote w2))) ->
  (_handle_faq_query w1 message salutation chat_context = None
   <-> _handle_faq_query w2 message salutation chat_context = None)
  /\ forall r1 r2,
       _handle_faq_query w1 message salutation chat_context = Some r1 ->
       _handle_faq_query w2 message salutation chat_context = Some r2 ->
       category r1 = category r2
       /\ confidence r1 = confidence r2
       /\ message_type r1 = message_type r2
       /\ length (sources r1) = length (sources r2)
       /\ ((forall l, set_list (set_order w1) l = set_list (set_order w2) l) ->
           sources r1 = sources r2)
       /\ (forall store q,
             vector_store w1 = Some store ->
             enhanced_query message chat_context = Some q ->
             (length (remove_dups (questions_of (similarity store q))) <= 3)%nat ->
             sources r1 ≡ₚ sources r2).
Proof.
  intros Hv Hs Hr Hg. split; [by rewrite !faq_raises|].
  intros r1 r2 H1 H2.
  apply faq_reply_fields in H1 as (q & Hq & Hcat1 & Hc1 & Hs1 & _ & Ht1).
  apply faq_reply_fields in H2 as (q' & Hq' & Hcat2 & Hc2 & Hs2 & _ & Ht2).
  rewrite Hq in Hq'. injection Hq' as <-.
  unfold rag_query in *. rewrite <- Hv in *.
  destruct (query_up_to_order (vector_store w1) (set_order w1) (set_order w2)
              (remote w1) (remote w2) q salutation None Hs Hr Hg)
    as (Ec & El & Eo & Ep).
  assert (Hc : confidence r1 = confidence r2) by congruence.
  split; [congruence|]. split; [exact Hc|].
  split; [by rewrite Ht1, Ht2, Hc|].
  split; [by rewrite Hs1, Hs2|].
  split.
  - intros Ho. rewrite Hs1, Hs2. by apply Eo.
  - intros store q0 Hstore Hq0 Hlen. rewrite Hq in Hq0. injection Hq0 as <-.
    rewrite Hs1, Hs2. by apply (Ep store).
Qed.

Lemma faq_branch_deterministic_witness :
  confidence <$> _handle_faq_query
                   (world (Some (index [refund; fees] [refund; fees; portal]))
                          (answering "Refunds take ten days."))
                   (txt "what is the refund policy") (txt "Student") []
  = confidence <$> _handle_faq_query
                     (world (Some (index [refund; fees] [refund; fees; portal]))
                            (answering "A refund is processed within ten days."))
                     (txt "what is the refund policy") (txt "Student") [].
Proof.
  destruct (_handle_faq_query
              (world (Some (index [refund; fees] [refund; fees; portal]))
                     (answering "Refunds take ten days."))
              (txt "what is the refund policy") (txt "Student") [])
    as [r1|] eqn:E1; [|vm_compute in E1; discriminate E1].
  destruct (_handle_faq_query
              (world (Some (index [refund; fees] [refund; fees; portal]))
                     (answering "A refund is processed within ten days."))
              (txt "what is the refund policy") (txt "Student") [])
    as [r2|] eqn:E2; [|vm_compute in E2; discriminate E2].
  simpl. f_equal.
  refine (proj1 (proj2 (proj2
    (faq_branch_deterministic
       (world (Some (index [refund; fees] [refund; fees; portal]))
              (answering "Refunds take ten days."))
       (world (Some (index [refund; fees] [refund; fees; portal]))
              (answering "A refund is processed within ten days."))
       (txt "what is the refund policy") (txt "Student") []
       eq_refl eq_refl eq_refl _) r1 r2 E1 E2))).
  split; intros _; by eexists.
Defined.

End ProcessorFacts.

(* ===================================================================== *)
(** * Lifecycle *)
(* ===================================================================== *)

Module BotManagerFacts.
Import BotManager Sample.

(** ** What the workers leave alone *)

Lemma act_bots t a s : bots (act t a s) = bots s.
Proof.
  unfold act. destruct (threads s !! t) as [th|]; [|done].
  destruct (alive th); [|done].
  destruct (bot_objs s !! target th); [|done]. by destruct a.
Qed.

Lemma act_bot_threads t a s : bot_threads (act t a s) = bot_threads s.
Proof.
  unfold act. destruct (threads s !! t) as [th|]; [|done].
  destruct (alive th); [|done].
  destruct (bot_objs s !! target th); [|done]. by destruct a.
Qed.

Lemma act_with_events f t a s :
  act t a (with_events f s) = with_events f (act t a s).
Proof.
  unfold act. simpl. destruct (threads s !! t) as [th|]; [|done].
  destruct (alive th); [|done].
  destruct (bot_objs s !! target th); [|done]. by destruct a.
Qed.

Lemma acts_bots l s : bots (acts l s) = bots s.
Proof.
  revert s. induction l as [|[t a] l IH]; intros s; [done|].
  simpl. by rewrite IH, act_bots.
Qed.

Lemma acts_bot_threads l s : bot_threads (acts l s) = bot_threads s.
Proof.
  revert s. induction l as [|[t a] l IH]; intros s; [done|].
  simpl. by rewrite IH, act_bot_threads.
Qed.

Lemma acts_with_events f l s :
  acts l (with_events f s) = with_events f (acts l s).
Proof.
  revert s. induction l as [|[t a] l IH]; intros s; [done|].
  simpl. by rewrite act_with_events, IH.
Qed.

(** ** Status records are never dropped *)

Lemma modify_lookup n f st :
  modify n f st !! n = Some (f (getitem n st)).
Proof. unfold modify. by rewrite lookup_insert_eq. Qed.

Lemma modify_lookup_ne n n' f st :
  n <> n' -> modify n f st !! n' = st !! n'.
Proof. intros H. unfold modify. by rewrite lookup_insert_ne. Qed.

Lemma modify_keeps n f st k :
  is_Some (st !! k) -> is_Some (modify n f st !! k).
Proof.
  intros H. destruct (decide (n = k)) as [->|Hne].
  - rewrite modify_lookup. by eexists.
  - by rewrite modify_lookup_ne.
Qed.

Lemma _update_status_keeps n v u st k :
  is_Some (st !! k) -> is_Some (_update_status n v u st !! k).
Proof.
  intros H. unfold _update_status. destruct u; by repeat apply modify_keeps.
Qed.

Lemma act_keeps t a s k :
  is_Some (bot_statuses s !! k) -> is_Some (bot_statuses (act t a s) !! k).
Proof.
  intros H. unfold act. destruct (threads s !! t) as [th|]; [|done].
  destruct (alive th); [|done].
  destruct (bot_objs s !! target th); [|done].
  destruct a as [|v [u|]| |now]; simpl; try done;
    unfold _update_status; by repeat apply modify_keeps.
Qed.

Lemma acts_keeps l s k :
  is_Some (bot_statuses s !! k) -> is_Some (bot_statuses (acts l s) !! k).
Proof.
  revert s. induction l as [|[t a] l IH]; intros s H; [done|].
  simpl. by apply IH, act_keeps.
Qed.

(** ** Stopping *)

(** The state in which [stop_bot] looks at the thread again: the stop
    event is set and the workers have done [during]. *)
Lemma stop_bot_unknown s bot_name during now :
  bots s !! bot_name = None -> stop_bot s bot_name during now = (s, false).
Proof. intros H. unfold stop_bot. by rewrite H. Qed.

Lemma stop_bot_timeout s bot_name during now s' :
  is_Some (bots s !! bot_name) ->
  stop_bot s bot_name during now = (s', false) ->
  (exists t, bot_threads s !! bot_name = Some t /\ is_alive s' t = true)
  /\ bots s' = bots s
  /\ bot_threads s' = bot_threads s
  /\ bot_statuses s' = bot_statuses (acts during s).
Proof.
  intros [b Hb]. unfold stop_bot. rewrite Hb.
  set (s1 := match stop_events s !! bot_name with
             | Some e => with_events (fun l => <[e:=true]> l) s
             | None => s
             end).
  assert (Hs1 : exists f, s1 = with_events f s).
  { subst s1. destruct (stop_events s !! bot_name).
    - by eexists.
    - exists (fun l => l). by destruct s. }
  destruct Hs1 as [f Hs1].
  assert (Ht : bot_threads s1 = bot_threads s) by (by rewrite Hs1).
  rewrite Ht. destruct (bot_threads s !! bot_name) as [t|]; [|done].
  destruct (is_alive (acts during s1) t) eqn:E; [|done].
  intros [= <-]. split; [by exists t|].
  rewrite Hs1, acts_with_events. simpl.
  by rewrite acts_bots, acts_bot_threads.
Qed.

Lemma stop_bot_success s bot_name during now s' :
  stop_bot s bot_name during now = (s', true) ->
  is_Some (bots s !! bot_name)
  /\ bots s' !! bot_name = None
  /\ bot_threads s' !! bot_name = None
  /\ exists r, bot_statuses s' !! bot_name = Some r
               /\ status r = "Stopped" /\ stop_time r = Some now.
Proof.
  unfold stop_bot. destruct (bots s !! bot_name) as [b|] eqn:Hb; [|done].
  set (s1 := match stop_events s !! bot_name with
             | Some e => with_events (fun l => <[e:=true]> l) s
             | None => s
             end).
  assert (Hfin : forall s2 : State,
    let s3 := with_statuses
                (modify bot_name
                   (fun r => set_stop_time (Some now) (set_status "Stopped" r))) s2 in
    bots (with_bot_threads (delete bot_name) (with_bots (delete bot_name) s3))
      !! bot_name = None
    /\ bot_threads (with_bot_threads (delete bot_name) (with_bots (delete bot_name) s3))
         !! bot_name = None
    /\ exists r, bot_statuses
                   (with_bot_threads (delete bot_name) (with_bots (delete bot_name) s3))
                   !! bot_name = Some r
                 /\ status r = "Stopped" /\ stop_time r = Some now).
  { intros s2. simpl. rewrite !lookup_delete_eq. split; [done|]. split; [done|].
    eexists. rewrite modify_lookup. done. }
  destruct (bot_threads s1 !! bot_name) as [t|].
  - destruct (is_alive (acts during s1) t); [done|].
    intros [= <-]. split; [by eexists|]. apply Hfin.
  - intros [= <-]. split; [by eexists|]. apply Hfin.
Qed.

(** What decides the result: the worker as the manager finds it after the
    wait. *)
Lemma stop_bot_decided s bot_name during now :
  is_Some (bots s !! bot_name) ->
  (forall t, bot_threads s !! bot_name = Some t ->
     is_alive (after_join s bot_name during) t = true ->
     stop_bot s bot_name during now = (after_join s bot_name during, false))
  /\ ((forall t, bot_threads s !! bot_name = Some t ->
         is_alive (after_join s bot_name during) t = false) ->
      (stop_bot s bot_name during now).2 = true).
Proof.
  intros [b Hb]. unfold stop_bot, after_join. rewrite Hb.
  set (s1 := match stop_events s !! bot_name with
             | Some e => with_events (fun l => <[e:=true]> l) s
             | None => s
             end).
  assert (Ht : bot_threads s1 = bot_threads s).
  { subst s1. by destruct (stop_events s !! bot_name). }
  rewrite Ht. split.
  - intros t Hthread Halive. by rewrite Hthread, Halive.
  - intros Hdead. destruct (bot_threads s !! bot_name) as [t|]; [|done].
    by rewrite (Hdead t eq_refl).
Qed.

(** C5: [stop_bot] fails on an identity that is not in the registry; when
    the worker is still alive after the wait it fails and leaves the bot
    entry, the thread handle and the status records in place, writing
    nothing to the status record itself; it succeeds only for a registered
    identity, and only then sets the status to [Stopped], stamps the stop
    time and releases the bot and thread handles.  A worker found alive
    after the wait always means failure, in the state the wait ended in,
    and a registered identity whose worker has ended, or which has no
    thread handle, always means success. *)
Theorem stop_bot_outcomes s bot_name during now s' ok :
  stop_bot s bot_name during now = (s', ok) ->
  (bots s !! bot_name = None -> ok = false /\ s' = s)
  /\ (ok = false -> is_Some (bots s !! bot_name) ->
      (exists t, bot_threads s !! bot_name = Some t /\ is_alive s' t = true)
      /\ bots s' = bots s
      /\ bot_threads s' = bot_threads s
      /\ bot_statuses s' = bot_statuses (acts during s)
      /\ forall k, is_Some (bot_statuses s !! k) -> is_Some (bot_statuses s' !! k))
  /\ (ok = true ->
      is_Some (bots s !! bot_name)
      /\ bots s' !! bot_name = None
      /\ bot_threads s' !! bot_name = None
      /\ exists r, bot_statuses s' !! bot_name = Some r
                   /\ status r = "Stopped" /\ stop_time r = Some now)
  /\ (forall t, is_Some (bots s !! bot_name) ->
      bot_threads s !! bot_name = Some t ->
      is_alive (after_join s bot_name during) t = true ->
      ok = false /\ s' = after_join s bot_name during)
  /\ (is_Some (bots s !! bot_name) ->
      (forall t, bot_threads s !! bot_name = Some t ->
         is_alive (after_join s bot_name during) t = false) ->
      ok = true).
Proof.
  intros H. split; [|split; [|split; [|split]]].
  - intros Hb. rewrite (stop_bot_unknown _ _ _ _ Hb) in H. by injection H as <- <-.
  - intros -> Hb.
    destruct (stop_bot_timeout _ _ _ _ _ Hb H) as (Ht & H1 & H2 & H3).
    repeat (split; [done|]). intros k Hk. rewrite H3. by apply acts_keeps.
  - intros ->. by apply stop_bot_success in H.
  - intros t Hb Ht Halive.
    destruct (stop_bot_decided s bot_name during now Hb) as [Hfail _].
    rewrite (Hfail t Ht Halive) in H. by injection H as <- <-.
  - intros Hb Hdead.
    destruct (stop_bot_decided s bot_name during now Hb) as [_ Hok].
    specialize (Hok Hdead). rewrite H in Hok. exact Hok.
Qed.

Lemma stop_bot_outcomes_witness :
  stop_bot running "Bot_Primary" [] 7 = ((stop_bot running "Bot_Primary" [] 7).1, false)
  /\ is_Some (bots running !! "Bot_Primary")
  /\ bots (stop_bot running "Bot_Primary" [] 7).1 = bots running
  /\ (exists r, bot_statuses (stop_bot running "Bot_Primary" [(0, Finish 6)] 7).1
                  !! "Bot_Primary" = Some r
                /\ status r = "Stopped" /\ stop_time r = Some 7).
Proof.
  assert (H1 : stop_bot running "Bot_Primary" [] 7
               = ((stop_bot running "Bot_Primary" [] 7).1, false))
    by (vm_compute; reflexivity).
  assert (H2 : is_Some (bots running !! "Bot_Primary"))
    by (vm_compute; by eexists).
  assert (H3 : stop_bot running "Bot_Primary" [(0, Finish 6)] 7
               = ((stop_bot running "Bot_Primary" [(0, Finish 6)] 7).1, true))
    by (vm_compute; reflexivity).
  split; [exact H1|]. split; [exact H2|]. split.
  - exact (proj1 (proj2 (proj1 (proj2
             (stop_bot_outcomes running "Bot_Primary" [] 7 _ false H1))
             eq_refl H2))).
  - exact (proj2 (proj2 (proj2 (proj1 (proj2 (proj2
             (stop_bot_outcomes running "Bot_Primary" [(0, Finish 6)] 7 _ true H3)))
             eq_refl)))).
Defined.

(** ** Starting *)

Lemma start_bot_refused s bot_name config now o :
  already_running s bot_name = true ->
  start_bot s bot_name config now o = (s, false).
Proof. intros H. unfold start_bot. by rewrite H. Qed.

Example start_bot_refused_once_running :
  start_bot running "Bot_Primary" ∅ 3 Launched = (running, false).
Proof. apply start_bot_refused. vm_compute. reflexivity. Qed.

(** C4: the guard of [start_bot] asks the bot whether its browser is up and
    its stop event clear, not whether its thread is alive.  A second
    [start_bot] for the same identity that arrives while the first worker
    is still bringing the browser up is therefore accepted: both calls
    return [True] and two live workers serve ["Bot_Primary"]. *)
Theorem second_start_while_initialising :
  (start_bot init "Bot_Primary" ∅ 0 Launched).2 = true
  /\ (start_bot started "Bot_Primary" ∅ 1 Launched).2 = true
  /\ live_workers (start_bot started "Bot_Primary" ∅ 1 Launched).1 "Bot_Primary" = 2
  /\ is_bot_running started "Bot_Primary" = true.
Proof. vm_compute. done. Qed.

(** The same happens after a [stop_bot] that timed out: the stop event is
    set, so the guard lets the next [start_bot] through while the old
    worker is still alive. *)
Example start_after_timed_out_stop :
  (stop_bot running "Bot_Primary" [] 7).2 = false
  /\ (start_bot (stop_bot running "Bot_Primary" [] 7).1 "Bot_Primary" ∅ 8 Launched).2
     = true
  /\ live_workers
       (start_bot (stop_bot running "Bot_Primary" [] 7).1 "Bot_Primary" ∅ 8 Launched).1
       "Bot_Primary" = 2.
Proof. vm_compute. done. Qed.

(** ** The bounded log *)

Lemma modify_bounded n f st :
  (forall r, length (logs r) <= 50 -> length (logs (f r)) <= 50) ->
  logs_bounded st -> logs_bounded (modify n f st).
Proof.
  intros Hf Hst k r. destruct (decide (n = k)) as [->|Hne].
  - rewrite modify_lookup. intros [= <-]. apply Hf. unfold getitem.
    destruct (st !! k) as [r'|] eqn:E; simpl; [by eapply Hst | lia].
  - rewrite modify_lookup_ne by done. apply Hst.
Qed.

Lemma _update_status_bounded n v u st :
  logs_bounded st -> logs_bounded (_update_status n v u st).
Proof.
  intros H. unfold _update_status.
  destruct u; repeat apply modify_bounded; done.
Qed.

Lemma length_append_bounded e l :
  length l <= 50 -> length (append_bounded e l) <= 50.
Proof.
  intros H. unfold append_bounded.
  destruct (50 <? length (l ++ [e]))%nat eqn:E.
  - rewrite length_drop, length_app. simpl. lia.
  - by apply Nat.ltb_ge in E.
Qed.

Lemma act_bounded t a s :
  logs_bounded (bot_statuses s) -> logs_bounded (bot_statuses (act t a s)).
Proof.
  intros H. unfold act. destruct (threads s !! t) as [th|]; [|done].
  destruct (alive th); [|done].
  destruct (bot_objs s !! target th); [|done].
  destruct a as [|v [u|]| |now]; simpl; try done;
    unfold _update_status; repeat apply modify_bounded; done.
Qed.

Lemma acts_bounded l s :
  logs_bounded (bot_statuses s) -> logs_bounded (bot_statuses (acts l s)).
Proof.
  revert s. induction l as [|[t a] l IH]; intros s H; [done|].
  simpl. by apply IH, act_bounded.
Qed.

Lemma start_bot_bounded s n c now o :
  logs_bounded (bot_statuses s) ->
  logs_bounded (bot_statuses (start_bot s n c now o).1).
Proof.
  intros H. unfold start_bot. destruct (already_running s n); [done|].
  destruct o; simpl; repeat apply modify_bounded; done.
Qed.

Lemma stop_bot_bounded s n during now :
  logs_bounded (bot_statuses s) ->
  logs_bounded (bot_statuses (stop_bot s n during now).1).
Proof.
  intros H. unfold stop_bot. destruct (bots s !! n); [|done].
  set (s1 := match stop_events s !! n with
             | Some e => with_events (fun l => <[e:=true]> l) s
             | None => s
             end).
  assert (H1 : logs_bounded (bot_statuses s1))
    by (subst s1; by destruct (stop_events s !! n)).
  destruct (bot_threads s1 !! n) as [t|].
  - pose proof (acts_bounded during s1 H1) as H2.
    destruct (is_alive (acts during s1) t); [done|].
    simpl. by apply modify_bounded.
  - simpl. by apply modify_bounded.
Qed.

Lemma step_bounded s op :
  logs_bounded (bot_statuses s) -> logs_bounded (bot_statuses (step s op)).
Proof.
  intros H. destruct op; simpl.
  - by apply start_bot_bounded.
  - by apply stop_bot_bounded.
  - by apply act_bounded.
  - done.
  - apply modify_bounded; [|done]. intros r. apply length_append_bounded.
  - by apply _update_status_bounded.
  - by apply modify_bounded.
Qed.

Lemma run_bounded ops : logs_bounded (bot_statuses (run ops)).
Proof.
  unfold run. induction ops as [|op ops IH] using rev_ind.
  - intros n r. simpl. by rewrite lookup_empty.
  - rewrite foldl_app. simpl. by apply step_bounded.
Qed.

(** C8: whatever the manager and its workers have done, and so after any
    sequence of [add_bot_log] calls, every log holds at most 50 entries;
    [add_bot_log] appends the new entry at the end, and when the log
    already holds 50 entries it removes exactly the oldest one and keeps
    the others in order. *)
Theorem log_is_bounded_fifo :
  (forall ops bot r,
      bot_statuses (run ops) !! bot = Some r -> length (logs r) <= 50)
  /\ (forall s bot message level now,
       length (logs (getitem bot (bot_statuses s))) < 50 ->
       logs (getitem bot (bot_statuses (add_bot_log s bot message level now)))
       = logs (getitem bot (bot_statuses s))
           ++ [{| timestamp := now; level := level; message := message |}])
  /\ (forall s bot message level now,
       length (logs (getitem bot (bot_statuses s))) = 50 ->
       logs (getitem bot (bot_statuses (add_bot_log s bot message level now)))
       = drop 1 (logs (getitem bot (bot_statuses s)))
           ++ [{| timestamp := now; level := level; message := message |}]
       /\ length (logs (getitem bot
                          (bot_statuses (add_bot_log s bot message level now)))) = 50).
Proof.
  split; [|split].
  - intros ops bot r. apply run_bounded.
  - intros s bot message level now H. unfold add_bot_log, getitem at 1. simpl.
    rewrite modify_lookup. simpl. unfold append_bounded.
    destruct (50 <? _)%nat eqn:E; [|done].
    apply Nat.ltb_lt in E. rewrite length_app in E. simpl in E. lia.
  - intros s bot message level now H. unfold add_bot_log, getitem at 1 3. simpl.
    rewrite modify_lookup. simpl. unfold append_bounded.
    destruct (50 <? _)%nat eqn:E.
    + destruct (logs (getitem bot (bot_statuses s))) as [|e l]; [done|].
      simpl. rewrite !drop_0. split; [done|].
      rewrite length_app. simpl in *. lia.
    + apply Nat.ltb_ge in E. rewrite length_app in E. simpl in E. lia.
Qed.

Lemma log_is_bounded_fifo_witness :
  length (logs (getitem "Bot_Primary" (bot_statuses (logged 50)))) = 50
  /\ logs (getitem "Bot_Primary"
             (bot_statuses (add_bot_log (logged 50) "Bot_Primary" "late" "info" 50)))
     = drop 1 (logs (getitem "Bot_Primary" (bot_statuses (logged 50))))
         ++ [{| timestamp := 50; level := "info"; message := "late" |}].
Proof.
  assert (H : length (logs (getitem "Bot_Primary" (bot_statuses (logged 50)))) = 50)
    by (vm_compute; reflexivity).
  split; [exact H|].
  exact (proj1 (proj2 (proj2 log_is_bounded_fifo)
                  (logged 50) "Bot_Primary" "late" "info" 50 H)).
Defined.

(** ** Identities without a record *)

(** C10: for an identity without a status record, [get_bot_status] returns
    the empty dictionary and leaves the registry as it is, while
    [add_bot_log], [update_bot_status] and [increment_processed_count]
    each create the default record (status [Stopped], zero counters, empty
    log), apply their change to it, and leave it in [get_all_statuses];
    all four return normally. *)
Theorem unknown_identity_gets_default_record s bot :
  bot_statuses s !! bot = None ->
  get_bot_status s bot = (s, None)
  /\ (forall message level now,
       get_all_statuses (add_bot_log s bot message level now) !! bot
       = Some (set_logs [{| timestamp := now; level := level; message := message |}]
                        default_status))
  /\ (forall v,
       get_all_statuses (update_bot_status s bot v None) !! bot
       = Some (set_status v default_status))
  /\ (forall v n,
       get_all_statuses (update_bot_status s bot v (Some n)) !! bot
       = Some (set_unread_count n (set_status v default_status)))
  /\ get_all_statuses (increment_processed_count s bot) !! bot
     = Some (set_processed_count 1 default_status)
  /\ status default_status = "Stopped"
  /\ processed_count default_status = 0
  /\ unread_count default_status = 0
  /\ logs default_status = [].
Proof.
  intros H.
  assert (Hd : getitem bot (bot_statuses s) = default_status)
    by (unfold getitem; by rewrite H).
  split; [unfold get_bot_status; by rewrite H|].
  split; [intros; unfold get_all_statuses, add_bot_log; simpl;
          by rewrite modify_lookup, Hd|].
  split; [intros; unfold get_all_statuses, update_bot_status, _update_status; simpl;
          by rewrite modify_lookup, Hd|].
  split; [intros; unfold get_all_statuses, update_bot_status, _update_status; simpl;
          rewrite modify_lookup; unfold getitem at 1;
          by rewrite modify_lookup, Hd|].
  split; [unfold get_all_statuses, increment_processed_count; simpl;
          by rewrite modify_lookup, Hd|].
  done.
Qed.

Lemma unknown_identity_gets_default_record_witness :
  bot_statuses init !! "Bot_Secondary" = None
  /\ get_bot_status init "Bot_Secondary" = (init, None)
  /\ get_all_statuses (increment_processed_count init "Bot_Secondary")
       !! "Bot_Secondary"
     = Some (set_processed_count 1 default_status).
Proof.
  assert (H : bot_statuses init !! "Bot_Secondary" = None) by reflexivity.
  split; [exact H|]. split.
  - exact (proj1 (unknown_identity_gets_default_record init "Bot_Secondary" H)).
  - exact (proj1 (proj2 (proj2 (proj2 (proj2
             (unknown_identity_gets_default_record init "Bot_Secondary" H)))))).
Defined.

End BotManagerFacts.

(* ===================================================================== *)
(** * More about the lifecycle *)
(* ===================================================================== *)

Module ManagerMoreFacts.
Import BotManager ManagerMore Sample.
Import BotManagerFacts.

(** ** What one worker action touches *)

Ltac open_act :=
  unfold act;
  repeat (match goal with
          | |- context [match threads ?s !! ?t with _ => _ end] =>
              destruct (threads s !! t) as [?|] eqn:?
          | |- context [if alive ?th then _ else _] => destruct (alive th) eqn:?
          | |- context [match bot_objs ?s !! ?i with _ => _ end] =>
              destruct (bot_objs s !! i) as [?|] eqn:?
          | |- context [match ?a with DriverUp => _ | _ => _ end] => destruct a
          end; cbv beta iota).

Lemma act_events t a s : events (act t a s) = events s.
Proof. open_act; done. Qed.

Lemma act_stop_events t a s : stop_events (act t a s) = stop_events s.
Proof. open_act; done. Qed.

Lemma acts_events l s : events (acts l s) = events s.
Proof.
  revert s. induction l as [|[t a] l IH]; intros s; [done|].
  simpl. by rewrite IH, act_events.
Qed.

Lemma acts_stop_events l s : stop_events (acts l s) = stop_events s.
Proof.
  revert s. induction l as [|[t a] l IH]; intros s; [done|].
  simpl. by rewrite IH, act_stop_events.
Qed.

Lemma same_bot_refl b : same_bot b b.
Proof. by repeat split. Qed.

Lemma same_bot_trans b1 b2 b3 : same_bot b1 b2 -> same_bot b2 b3 -> same_bot b1 b3.
Proof.
  intros (H1 & H2 & H3) (H4 & H5 & H6). repeat split; [congruence..|auto].
Qed.

Lemma act_bot_objs t a s i b :
  bot_objs s !! i = Some b ->
  exists b', bot_objs (act t a s) !! i = Some b' /\ same_bot b b'.
Proof.
  intros Hb. unfold act.
  destruct (threads s !! t) as [th|]; [|exists b; split; [done | apply same_bot_refl]].
  destruct (alive th); [|exists b; split; [done | apply same_bot_refl]].
  destruct (bot_objs s !! target th) as [bot|];
    [|exists b; split; [done | apply same_bot_refl]].
  destruct a; simpl; try (exists b; split; [done | apply same_bot_refl]).
  destruct (decide (target th = i)) as [->|Hne].
  - exists (set_driver b). rewrite list_lookup_alter_eq, Hb. split; [done|].
    by repeat split.
  - exists b. rewrite list_lookup_alter_ne by done. split; [done | apply same_bot_refl].
Qed.

Lemma act_bot_objs_length t a s : length (bot_objs (act t a s)) = length (bot_objs s).
Proof. open_act; simpl; try done. apply length_alter. Qed.

Lemma act_threads t a s i th :
  threads s !! i = Some th ->
  exists th', threads (act t a s) !! i = Some th'
              /\ target th' = target th /\ (alive th = false -> alive th' = false).
Proof.
  intros Hi. unfold act.
  destruct (threads s !! t) as [th0|]; [|by exists th].
  destruct (alive th0); [|by exists th].
  destruct (bot_objs s !! target th0) as [bot|]; [|by exists th].
  destruct a; simpl; try (by exists th).
  destruct (decide (t = i)) as [->|Hne].
  - exists (dead th). rewrite list_lookup_alter_eq, Hi. done.
  - exists th. by rewrite list_lookup_alter_ne.
Qed.

Lemma act_threads_length t a s : length (threads (act t a s)) = length (threads s).
Proof. open_act; simpl; try done. apply length_alter. Qed.

Lemma acts_bot_objs l s i b :
  bot_objs s !! i = Some b ->
  exists b', bot_objs (acts l s) !! i = Some b' /\ same_bot b b'.
Proof.
  revert s b. induction l as [|[t a] l IH]; intros s b Hb.
  - exists b. split; [done | apply same_bot_refl].
  - simpl. destruct (act_bot_objs t a s i b Hb) as (b1 & H1 & Hs1).
    destruct (IH _ _ H1) as (b2 & H2 & Hs2).
    exists b2. split; [done|]. by eapply same_bot_trans.
Qed.

Lemma acts_threads l s i th :
  threads s !! i = Some th ->
  exists th', threads (acts l s) !! i = Some th'
              /\ target th' = target th /\ (alive th = false -> alive th' = false).
Proof.
  revert s th. induction l as [|[t a] l IH]; intros s th Hi.
  - by exists th.
  - simpl. destruct (act_threads t a s i th Hi) as (th1 & H1 & Ht1 & Ha1).
    destruct (IH _ _ H1) as (th2 & H2 & Ht2 & Ha2).
    exists th2. split; [done|]. split; [congruence | auto].
Qed.

Lemma acts_bot_objs_length l s : length (bot_objs (acts l s)) = length (bot_objs s).
Proof.
  revert s. induction l as [|[t a] l IH]; intros s; [done|].
  simpl. by rewrite IH, act_bot_objs_length.
Qed.

Lemma acts_threads_length l s : length (threads (acts l s)) = length (threads s).
Proof.
  revert s. induction l as [|[t a] l IH]; intros s; [done|].
  simpl. by rewrite IH, act_threads_length.
Qed.

(** ** Later states *)

Lemma later_refl s : later s s.
Proof.
  repeat split; try done.
  - intros t th H. by exists th.
  - intros i b H. exists b. split; [done | apply same_bot_refl].
Qed.

Lemma later_trans s1 s2 s3 : later s1 s2 -> later s2 s3 -> later s1 s3.
Proof.
  intros (E1 & L1 & T1 & B1) (E2 & L2 & T2 & B2). repeat split.
  - auto.
  - lia.
  - intros t th H. destruct (T1 _ _ H) as (th1 & H1 & Ht1 & Ha1).
    destruct (T2 _ _ H1) as (th2 & H2 & Ht2 & Ha2).
    exists th2. split; [done|]. split; [congruence | auto].
  - intros i b H. destruct (B1 _ _ H) as (b1 & H1 & Hs1).
    destruct (B2 _ _ H1) as (b2 & H2 & Hs2).
    exists b2. split; [done|]. by eapply same_bot_trans.
Qed.

Lemma is_set_true s e : is_set s e = true <-> events s !! e = Some true.
Proof.
  unfold is_set. destruct (events s !! e) as [[]|]; simpl; split; congruence.
Qed.

Lemma later_act t a s : later s (act t a s).
Proof.
  repeat split.
  - intros e. unfold is_set. by rewrite act_events.
  - by rewrite act_events.
  - apply act_threads.
  - apply act_bot_objs.
Qed.

Lemma later_acts l s : later s (acts l s).
Proof.
  revert s. induction l as [|[t a] l IH]; intros s; [apply later_refl|].
  simpl. eapply later_trans; [apply later_act | apply IH].
Qed.

(** A change of the dictionaries alone. *)
Lemma later_same_heap s s' :
  events s' = events s -> threads s' = threads s -> bot_objs s' = bot_objs s ->
  later s s'.
Proof.
  intros He Ht Hb. unfold later, is_set. rewrite He, Ht, Hb.
  apply (later_refl s).
Qed.

Lemma later_set_event e s : later s (with_events (fun l => <[e:=true]> l) s).
Proof.
  repeat split; simpl.
  - intros e'. rewrite !is_set_true. simpl. intros H.
    destruct (decide (e = e')) as [->|Hne].
    + apply list_lookup_insert_eq. by eapply lookup_lt_Some.
    + by rewrite list_lookup_insert_ne.
  - by rewrite length_insert.
  - intros t th H. by exists th.
  - intros i b H. exists b. split; [done | apply same_bot_refl].
Qed.

Lemma later_start_bot s n c now o : later s (start_bot s n c now o).1.
Proof.
  unfold start_bot. destruct (already_running s n); [apply later_refl|].
  assert (He : forall e, is_set s e = true ->
                         (events s ++ [false]) !! e = Some true).
  { intros e H. apply is_set_true in H. by apply lookup_app_l_Some. }
  destruct o; simpl; repeat split; simpl;
    try (intros e H; apply is_set_true; simpl; by apply He);
    try (rewrite length_app; simpl; lia);
    try (intros t th H; exists th; split; [|done];
         first [exact H | by apply lookup_app_l_Some]);
    try (intros i b H; exists b; split; [|apply same_bot_refl];
         first [exact H | by apply lookup_app_l_Some]).
Qed.

Lemma later_stop_bot s n during now : later s (stop_bot s n during now).1.
Proof.
  unfold stop_bot. destruct (bots s !! n); [|apply later_refl].
  set (s1 := match stop_events s !! n with
             | Some e => with_events (fun l => <[e:=true]> l) s
             | None => s
             end).
  assert (H1 : later s s1).
  { subst s1. destruct (stop_events s !! n); [apply later_set_event | apply later_refl]. }
  destruct (bot_threads s1 !! n) as [t|].
  - assert (H2 : later s (acts during s1))
      by (eapply later_trans; [exact H1 | apply later_acts]).
    destruct (is_alive (acts during s1) t); [exact H2|].
    simpl. eapply later_trans; [exact H2|]. by apply later_same_heap.
  - simpl. eapply later_trans; [exact H1|]. by apply later_same_heap.
Qed.

Lemma later_step s op : later s (step s op).
Proof.
  destruct op; simpl.
  - apply later_start_bot.
  - apply later_stop_bot.
  - apply later_act.
  - apply later_refl.
  - by apply later_same_heap.
  - by apply later_same_heap.
  - by apply later_same_heap.
Qed.

Lemma later_foldl s ops : later s (foldl step s ops).
Proof.
  revert s. induction ops as [|op ops IH]; intros s; [apply later_refl|].
  simpl. eapply later_trans; [apply later_step | apply IH].
Qed.

(** X1: flags are write-once.  Along every history, a stop event that has
    been set stays set, a worker thread that has ended stays dead, and a bot
    object keeps its name and its stop event and never loses its driver. *)
Theorem flags_are_write_once ops more :
  (forall e, is_set (run ops) e = true -> is_set (run (ops ++ more)) e = true)
  /\ (forall t th, threads (run ops) !! t = Some th -> alive th = false ->
        is_alive (run (ops ++ more)) t = false)
  /\ (forall i b, bot_objs (run ops) !! i = Some b ->
        exists b', bot_objs (run (ops ++ more)) !! i = Some b'
                   /\ bot_name b' = bot_name b /\ stop_event b' = stop_event b
                   /\ (driver b = true -> driver b' = true)).
Proof.
  assert (H : later (run ops) (run (ops ++ more))).
  { unfold run. rewrite foldl_app. apply later_foldl. }
  destruct H as (E & _ & T & B). split; [exact E|]. split; [|exact B].
  intros t th Hth Hdead. destruct (T _ _ Hth) as (th' & H' & _ & Ha).
  unfold is_alive. rewrite H'. auto.
Qed.

Lemma flags_are_write_once_witness :
  is_set (run [StartBot "Bot_Primary" ∅ 0 Launched;
               StopBot "Bot_Primary" [] 5]) 0 = true
  /\ is_set (run ([StartBot "Bot_Primary" ∅ 0 Launched;
                   StopBot "Bot_Primary" [] 5]
                  ++ [StartBot "Bot_Primary" ∅ 7 Launched;
                      Worker 1 DriverUp])) 0 = true.
Proof.
  assert (H : is_set (run [StartBot "Bot_Primary" ∅ 0 Launched;
                           StopBot "Bot_Primary" [] 5]) 0 = true)
    by (vm_compute; reflexivity).
  split; [exact H|].
  exact (proj1 (flags_are_write_once
                  [StartBot "Bot_Primary" ∅ 0 Launched;
                   StopBot "Bot_Primary" [] 5]
                  [StartBot "Bot_Primary" ∅ 7 Launched; Worker 1 DriverUp])
               0 H).
Defined.

(** ** The registry stays well formed *)

Lemma modify_named k f st n :
  (forall r, name (f r) = name r) -> named st n -> named (modify k f st) n.
Proof.
  intros Hf (r & Hr & Hn). destruct (decide (k = n)) as [->|Hne].
  - exists (f r). rewrite modify_lookup. unfold getitem. rewrite Hr. simpl.
    split; [done|]. by rewrite Hf.
  - exists r. by rewrite modify_lookup_ne.
Qed.

Lemma _update_status_named k v u st n :
  named st n -> named (_update_status k v u st) n.
Proof.
  intros H. unfold _update_status. destruct u; by repeat apply modify_named.
Qed.

Lemma act_named t a s n :
  named (bot_statuses s) n -> named (bot_statuses (act t a s)) n.
Proof.
  intros H. unfold act.
  destruct (threads s !! t) as [th|]; [|done].
  destruct (alive th); [|done].
  destruct (bot_objs s !! target th) as [bot|]; [|done].
  destruct a as [|v [u|]| |now]; simpl; try done;
    unfold _update_status; by repeat apply modify_named.
Qed.

Lemma wf_init : registry_wf init.
Proof.
  repeat split; simpl.
  - intros n b H. by rewrite lookup_empty in H.
  - intros n t H. by rewrite lookup_empty in H.
  - intros n e H. by rewrite lookup_empty in H.
  - intros n [[? H]|[? H]]; by rewrite lookup_empty in H.
  - intros n [? H]. by rewrite lookup_empty in H.
Qed.

Lemma wf_act t a s : registry_wf s -> registry_wf (act t a s).
Proof.
  intros (W1 & W2 & W3 & W4 & W5). repeat split.
  - intros n b. rewrite act_bots. intros H.
    destruct (W1 _ _ H) as (bot & Hb & Hn).
    destruct (act_bot_objs t a s _ _ Hb) as (b' & Hb' & Hs & _).
    exists b'. split; [done | congruence].
  - intros n i. rewrite act_bot_threads. intros H.
    destruct (W2 _ _ H) as (th & bot & Hth & Hb & Hn).
    destruct (act_threads t a s _ _ Hth) as (th' & Hth' & Ht & _).
    destruct (act_bot_objs t a s _ _ Hb) as (b' & Hb' & Hs & _).
    exists th', b'. rewrite Ht. split; [done|]. split; [done | congruence].
  - intros n e. rewrite act_stop_events, act_events. apply W3.
  - intros n. rewrite act_bots, act_bot_threads, act_stop_events. apply W4.
  - intros n. rewrite act_stop_events. intros H. by apply act_named, W5.
Qed.

Lemma wf_acts l s : registry_wf s -> registry_wf (acts l s).
Proof.
  revert s. induction l as [|[t a] l IH]; intros s H; [done|].
  simpl. by apply IH, wf_act.
Qed.

(** A change of the records that keeps the named ones named. *)
Lemma wf_with_statuses f s :
  (forall n, named (bot_statuses s) n -> named (f (bot_statuses s)) n) ->
  registry_wf s -> registry_wf (with_statuses f s).
Proof.
  intros Hf (W1 & W2 & W3 & W4 & W5). repeat split; simpl; try done.
  intros n H. by apply Hf, W5.
Qed.

Lemma wf_set_event e s :
  registry_wf s -> registry_wf (with_events (fun l => <[e:=true]> l) s).
Proof.
  intros (W1 & W2 & W3 & W4 & W5). repeat split; simpl; try done.
  intros n e' H. rewrite length_insert. by eapply W3.
Qed.

Lemma wf_forget n s :
  registry_wf s ->
  registry_wf (with_bot_threads (delete n) (with_bots (delete n) s)).
Proof.
  intros (W1 & W2 & W3 & W4 & W5). repeat split; simpl; try done.
  - intros k b [_ H]%lookup_delete_Some. by apply W1.
  - intros k t [_ H]%lookup_delete_Some. by apply W2.
  - intros k [[b [_ H]%lookup_delete_Some]|[t [_ H]%lookup_delete_Some]];
      apply W4; [left | right]; by eexists.
Qed.

Lemma wf_stop_bot s n during now :
  registry_wf s -> registry_wf (stop_bot s n during now).1.
Proof.
  intros W. unfold stop_bot. destruct (bots s !! n); [|done].
  set (s1 := match stop_events s !! n with
             | Some e => with_events (fun l => <[e:=true]> l) s
             | None => s
             end).
  assert (W1 : registry_wf s1).
  { subst s1. destruct (stop_events s !! n); [by apply wf_set_event | done]. }
  assert (Wfin : forall s2, registry_wf s2 ->
    registry_wf
      (with_bot_threads (delete n)
         (with_bots (delete n)
            (with_statuses
               (modify n (fun r => set_stop_time (Some now) (set_status "Stopped" r)))
               s2)))).
  { intros s2 W2. apply wf_forget, wf_with_statuses; [|done].
    intros k Hk. by apply modify_named. }
  destruct (bot_threads s1 !! n) as [t|].
  - pose proof (wf_acts during s1 W1) as W2.
    destruct (is_alive (acts during s1) t); [done|]. by apply Wfin.
  - by apply Wfin.
Qed.

Lemma named_starting n now st k :
  k = n \/ named st k -> named (modify n (starting n now) st) k.
Proof.
  destruct (decide (n = k)) as [->|Hne].
  - intros _. eexists. rewrite modify_lookup. done.
  - intros [->|(r & Hr & Hn)]; [done|].
    exists r. by rewrite modify_lookup_ne.
Qed.

Lemma wf_start_bot s n c now o :
  registry_wf s -> registry_wf (start_bot s n c now o).1.
Proof.
  intros (W1 & W2 & W3 & W4 & W5). unfold start_bot.
  destruct (already_running s n); [done|].
  assert (HW3 : forall k e,
    <[n:=length (events s)]> (stop_events s) !! k = Some e ->
    e < length (events s ++ [false])).
  { intros k e [[_ <-]|[_ H]]%lookup_insert_Some; rewrite length_app; simpl; [lia|].
    apply W3 in H. lia. }
  assert (HW5 : forall k,
    is_Some (<[n:=length (events s)]> (stop_events s) !! k) ->
    named (modify n (starting n now) (bot_statuses s)) k).
  { intros k [Hk|[_ Hk]]%lookup_insert_is_Some; apply named_starting;
      [by left | right; by apply W5]. }
  assert (HW4 : forall k,
    is_Some (bots s !! k) \/ is_Some (bot_threads s !! k) ->
    is_Some (<[n:=length (events s)]> (stop_events s) !! k)).
  { intros k Hk. apply lookup_insert_is_Some'. right. by apply W4. }
  assert (HW1 : forall bot k b,
    bot_name bot = n ->
    <[n:=length (bot_objs s)]> (bots s) !! k = Some b ->
    exists bot', (bot_objs s ++ [bot]) !! b = Some bot' /\ bot_name bot' = k).
  { intros bot k b Hbot [[<- <-]|[_ H]]%lookup_insert_Some.
    - exists bot. split; [|done]. by rewrite list_lookup_middle.
    - destruct (W1 _ _ H) as (bot' & Hb' & Hn').
      exists bot'. split; [|done]. by apply lookup_app_l_Some. }
  assert (HW2 : forall bot k t,
    bot_threads s !! k = Some t ->
    exists th bot', threads s !! t = Some th
                    /\ (bot_objs s ++ [bot]) !! target th = Some bot'
                    /\ bot_name bot' = k).
  { intros bot k t H. destruct (W2 _ _ H) as (th & bot' & Hth & Hb' & Hn').
    exists th, bot'. split; [done|]. split; [|done]. by apply lookup_app_l_Some. }
  destruct o; simpl; repeat split; simpl.
  - (* Launched *) intros k b H. eapply HW1; [|exact H]. done.
  - intros k t [[<- <-]|[_ H]]%lookup_insert_Some.
    + eexists _, _. split; [by rewrite list_lookup_middle|]. simpl.
      split; [by rewrite list_lookup_middle | done].
    + destruct (HW2 {| bot_name := n; user_data_path := c !! "user_data_path";
                       driver := false; stop_event := length (events s) |} _ _ H)
        as (th & bot' & Hth & Hb' & Hn').
      exists th, bot'. split; [by apply lookup_app_l_Some | done].
  - exact HW3.
  - intros k [Hk|Hk]; apply lookup_insert_is_Some'.
    + apply lookup_insert_is_Some' in Hk as [->|Hk]; [by left|].
      right. apply W4. by left.
    + apply lookup_insert_is_Some' in Hk as [->|Hk]; [by left|].
      right. apply W4. by right.
  - exact HW5.
  - (* ConstructorRaised *) exact W1.
  - exact W2.
  - exact HW3.
  - exact HW4.
  - intros k Hk. apply modify_named; [done|]. by apply HW5.
  - (* ThreadStartRaised *) intros k b H. eapply HW1; [|exact H]. done.
  - intros k t H. by apply HW2.
  - exact HW3.
  - intros k [Hk|Hk]; apply lookup_insert_is_Some'.
    + apply lookup_insert_is_Some' in Hk as [->|Hk]; [by left|].
      right. apply W4. by left.
    + right. apply W4. by right.
  - intros k Hk. apply modify_named; [done|]. by apply HW5.
Qed.

Lemma wf_step s op : registry_wf s -> registry_wf (step s op).
Proof.
  intros W. destruct op; simpl.
  - by apply wf_start_bot.
  - by apply wf_stop_bot.
  - by apply wf_act.
  - done.
  - apply wf_with_statuses; [|done]. intros k Hk. by apply modify_named.
  - apply wf_with_statuses; [|done]. intros k Hk. by apply _update_status_named.
  - apply wf_with_statuses; [|done]. intros k Hk. by apply modify_named.
Qed.

Lemma wf_run ops : registry_wf (run ops).
Proof.
  unfold run. induction ops as [|op ops IH] using rev_ind; [apply wf_init|].
  rewrite foldl_app. simpl. by apply wf_step.
Qed.

(** X2: along every history, what the registry holds for a name refers to
    objects made for that name: the bot entry to a bot of that name, the
    thread handle to a thread that runs a bot of that name, and the stop
    event to an event that exists. *)
Theorem handles_refer_to_their_bot ops n :
  (forall b, bots (run ops) !! n = Some b ->
     exists bot, bot_objs (run ops) !! b = Some bot /\ bot_name bot = n)
  /\ (forall t, bot_threads (run ops) !! n = Some t ->
        exists th bot, threads (run ops) !! t = Some th
                       /\ bot_objs (run ops) !! target th = Some bot
                       /\ bot_name bot = n)
  /\ (forall e, stop_events (run ops) !! n = Some e ->
        e < length (events (run ops))).
Proof.
  destruct (wf_run ops) as (W1 & W2 & W3 & _).
  split; [apply W1|]. split; [apply W2 | apply W3].
Qed.

Lemma handles_refer_to_their_bot_witness :
  exists bot, bot_objs (run [StartBot "Bot_Primary" ∅ 0 Launched]) !! 0
              = Some bot /\ bot_name bot = "Bot_Primary".
Proof.
  apply (proj1 (handles_refer_to_their_bot
                  [StartBot "Bot_Primary" ∅ 0 Launched] "Bot_Primary")).
  reflexivity.
Defined.

(** X3: along every history, a name that has a bot entry, a thread handle or
    a stop event has a status record, and that record carries the name:
    [get_bot_status] of a bot that was started is never the empty
    dictionary. *)
Theorem started_bot_has_a_record ops n :
  is_Some (bots (run ops) !! n) \/ is_Some (bot_threads (run ops) !! n)
  \/ is_Some (stop_events (run ops) !! n) ->
  exists r, (get_bot_status (run ops) n).2 = Some r /\ name r = n.
Proof.
  destruct (wf_run ops) as (_ & _ & _ & W4 & W5).
  intros [H|[H|H]]; apply W5; auto.
Qed.

Lemma started_bot_has_a_record_witness :
  exists r,
    (get_bot_status
       (run [StartBot "Bot_Primary" ∅ 0 ConstructorRaised;
             AddBotLog "Bot_Primary" "retry" "warning" 1]) "Bot_Primary").2 = Some r
    /\ name r = "Bot_Primary".
Proof.
  apply (started_bot_has_a_record
           [StartBot "Bot_Primary" ∅ 0 ConstructorRaised;
            AddBotLog "Bot_Primary" "retry" "warning" 1] "Bot_Primary").
  right. right. vm_compute. by eexists.
Defined.

Lemma filter_nonempty {A} (p : A -> bool) (l : list A) x :
  x ∈ l -> p x = true -> 1 <= length (List.filter p l).
Proof.
  intros Hx Hp. induction l as [|a l IH]; [by apply elem_of_nil in Hx|].
  simpl. apply elem_of_cons in Hx as [->|Hx].
  - rewrite Hp. simpl. lia.
  - destruct (p a); simpl; [lia | by apply IH].
Qed.

Lemma live_workers_positive s n th :
  th ∈ threads s -> works_for s n th = true -> 1 <= live_workers s n.
Proof.
  intros Hin Hw. unfold live_workers.
  assert (Hf : th ∈ filter (fun th => works_for s n th = true) (threads s)).
  { apply list_elem_of_filter. done. }
  destruct (filter _ (threads s)); [by apply elem_of_nil in Hf | simpl; lia].
Qed.

(** X4: along every history, a bot that [is_bot_running] reports as running
    has a live worker, and so has every name that [get_active_bots]
    returns. *)
Theorem running_bot_has_live_worker ops keys n :
  (is_bot_running (run ops) n = true -> 1 <= live_workers (run ops) n)
  /\ (n ∈ get_active_bots (run ops) keys -> 1 <= live_workers (run ops) n).
Proof.
  assert (H : is_bot_running (run ops) n = true -> 1 <= live_workers (run ops) n).
  { destruct (wf_run ops) as (_ & W2 & _). unfold is_bot_running.
    destruct (bots (run ops) !! n); [|done].
    destruct (bot_threads (run ops) !! n) as [t|] eqn:Ht; [|done].
    destruct (W2 _ _ Ht) as (th & bot & Hth & Hb & Hn).
    unfold is_alive. rewrite Hth. intros Ha.
    apply (live_workers_positive _ _ th).
    - by eapply list_elem_of_lookup_2.
    - unfold works_for. rewrite Ha, Hb. simpl. by apply bool_decide_eq_true. }
  split; [exact H|].
  unfold get_active_bots. intros Hin. apply H.
  apply list_elem_of_In, filter_In in Hin. tauto.
Qed.

Lemma running_bot_has_live_worker_witness :
  1 <= live_workers (run [StartBot "Bot_Primary" ∅ 0 Launched;
                          Worker 0 DriverUp]) "Bot_Primary".
Proof.
  apply (proj1 (running_bot_has_live_worker
                  [StartBot "Bot_Primary" ∅ 0 Launched; Worker 0 DriverUp]
                  ["Bot_Primary"] "Bot_Primary")).
  vm_compute. reflexivity.
Defined.

(** ** Who writes what *)

Lemma getitem_modify n f st : getitem n (modify n f st) = f (getitem n st).
Proof. unfold getitem at 1. by rewrite modify_lookup. Qed.

Lemma getitem_modify_ne n k f st : n <> k -> getitem k (modify n f st) = getitem k st.
Proof. intros H. unfold getitem. by rewrite modify_lookup_ne. Qed.

Lemma modify_logs k n f st :
  (forall r, logs (f r) = logs r) ->
  logs (getitem k (modify n f st)) = logs (getitem k st).
Proof.
  intros Hf. destruct (decide (n = k)) as [->|Hne].
  - by rewrite getitem_modify, Hf.
  - by rewrite getitem_modify_ne.
Qed.

Lemma _update_status_logs k n v u st :
  logs (getitem k (_update_status n v u st)) = logs (getitem k st).
Proof. unfold _update_status. destruct u; by rewrite !modify_logs. Qed.

Lemma act_logs t a s k :
  logs (getitem k (bot_statuses (act t a s))) = logs (getitem k (bot_statuses s)).
Proof.
  unfold act.
  destruct (threads s !! t) as [th|]; [|done].
  destruct (alive th); [|done].
  destruct (bot_objs s !! target th) as [bot|]; [|done].
  destruct a as [|v [u|]| |now]; simpl; try done;
    unfold _update_status; by rewrite !modify_logs.
Qed.

Lemma acts_logs l s k :
  logs (getitem k (bot_statuses (acts l s))) = logs (getitem k (bot_statuses s)).
Proof.
  revert s. induction l as [|[t a] l IH]; intros s; [done|].
  simpl. by rewrite IH, act_logs.
Qed.

Lemma start_bot_logs s n c now o k :
  logs (getitem k (bot_statuses (start_bot s n c now o).1))
  = logs (getitem k (bot_statuses s)).
Proof.
  unfold start_bot. destruct (already_running s n); [done|].
  destruct o; simpl; by rewrite !modify_logs.
Qed.

Lemma stop_bot_logs s n during now k :
  logs (getitem k (bot_statuses (stop_bot s n during now).1))
  = logs (getitem k (bot_statuses s)).
Proof.
  unfold stop_bot. destruct (bots s !! n); [|done].
  set (s1 := match stop_events s !! n with
             | Some e => with_events (fun l => <[e:=true]> l) s
             | None => s
             end).
  assert (H1 : bot_statuses s1 = bot_statuses s)
    by (subst s1; by destruct (stop_events s !! n)).
  destruct (bot_threads s1 !! n) as [t|].
  - destruct (is_alive (acts during s1) t); simpl.
    + by rewrite acts_logs, H1.
    + rewrite modify_logs by done. by rewrite acts_logs, H1.
  - simpl. rewrite modify_logs by done. by rewrite H1.
Qed.

(** X5: only [add_bot_log] writes to a log.  Starting, stopping, a status
    update, a counter increment, a status query and every action of a
    worker leave the log of every identity as it was. *)
Theorem only_add_bot_log_writes_logs s op k :
  is_add_bot_log op = false ->
  logs (getitem k (bot_statuses (step s op))) = logs (getitem k (bot_statuses s)).
Proof.
  intros H. destruct op; simpl; try done.
  - apply start_bot_logs.
  - apply stop_bot_logs.
  - apply act_logs.
  - apply _update_status_logs.
  - by apply modify_logs.
Qed.

Lemma only_add_bot_log_writes_logs_witness :
  logs (getitem "Bot_Primary"
          (bot_statuses (step (logged 3) (StartBot "Bot_Primary" ∅ 9 Launched))))
  = logs (getitem "Bot_Primary" (bot_statuses (logged 3))).
Proof.
  apply (only_add_bot_log_writes_logs (logged 3)
           (StartBot "Bot_Primary" ∅ 9 Launched) "Bot_Primary").
  reflexivity.
Defined.

Lemma _update_status_lookup_ne n k v u st :
  n <> k -> _update_status n v u st !! k = st !! k.
Proof.
  intros H. unfold _update_status. destruct u; by rewrite !modify_lookup_ne.
Qed.

Lemma act_statuses_ne t a s th bot k :
  threads s !! t = Some th -> bot_objs s !! target th = Some bot ->
  bot_name bot <> k ->
  bot_statuses (act t a s) !! k = bot_statuses s !! k.
Proof.
  intros Hth Hb Hne. unfold act. rewrite Hth.
  destruct (alive th); [|done]. rewrite Hb.
  destruct a as [|v [u|]| |now]; simpl; try done;
    unfold _update_status; by rewrite !modify_lookup_ne.
Qed.

(** X6: the records of different identities are independent.  A call of
    [start_bot], [stop_bot], [add_bot_log], [update_bot_status] or
    [increment_processed_count] for one name, and every action of a worker
    that runs a bot of that name, leave the record of every other name
    untouched (while [stop_bot] waits, other workers may write their own). *)
Theorem records_are_isolated s n k :
  n <> k ->
  (forall c now o, bot_statuses (start_bot s n c now o).1 !! k = bot_statuses s !! k)
  /\ (forall now, bot_statuses (stop_bot s n [] now).1 !! k = bot_statuses s !! k)
  /\ (forall message level now,
        bot_statuses (add_bot_log s n message level now) !! k = bot_statuses s !! k)
  /\ (forall v u, bot_statuses (update_bot_status s n v u) !! k = bot_statuses s !! k)
  /\ bot_statuses (increment_processed_count s n) !! k = bot_statuses s !! k
  /\ (forall t a th bot,
        threads s !! t = Some th -> bot_objs s !! target th = Some bot ->
        bot_name bot = n ->
        bot_statuses (act t a s) !! k = bot_statuses s !! k).
Proof.
  intros Hne.
  assert (Hstop : forall during now,
    bot_statuses (stop_bot s n during now).1 !! k
    = bot_statuses (acts during s) !! k
    \/ bot_statuses (stop_bot s n during now).1 !! k = bot_statuses s !! k).
  { intros during now. unfold stop_bot. destruct (bots s !! n); [|by right].
    set (s1 := match stop_events s !! n with
               | Some e => with_events (fun l => <[e:=true]> l) s
               | None => s
               end).
    assert (H1 : exists f, s1 = with_events f s).
    { subst s1. destruct (stop_events s !! n); [by eexists|].
      exists (fun l => l). by destruct s. }
    destruct H1 as [f H1].
    destruct (bot_threads s1 !! n) as [t|].
    - left. destruct (is_alive (acts during s1) t); simpl;
        rewrite ?modify_lookup_ne by done; by rewrite H1, acts_with_events.
    - right. simpl. rewrite modify_lookup_ne by done. by rewrite H1. }
  split.
  { intros c now o. unfold start_bot. destruct (already_running s n); [done|].
    destruct o; simpl; by rewrite !modify_lookup_ne. }
  split.
  { intros now. by destruct (Hstop [] now) as [H|H]. }
  split; [intros; simpl; by apply modify_lookup_ne|].
  split; [intros; simpl; by apply _update_status_lookup_ne|].
  split; [simpl; by apply modify_lookup_ne|].
  intros t a th bot Hth Hb Hn. eapply act_statuses_ne; [done..|congruence].
Qed.

Lemma records_are_isolated_witness :
  bot_statuses (start_bot running "Bot_Secondary" ∅ 5 Launched).1 !! "Bot_Primary"
  = bot_statuses running !! "Bot_Primary".
Proof.
  apply (records_are_isolated running "Bot_Secondary" "Bot_Primary").
  discriminate.
Defined.

(** ** Stopping all bots *)

Lemma stop_bot_bots s n during now :
  bots (stop_bot s n during now).1
  = if (stop_bot s n during now).2 then delete n (bots s) else bots s.
Proof.
  unfold stop_bot. destruct (bots s !! n); [|done].
  set (s1 := match stop_events s !! n with
             | Some e => with_events (fun l => <[e:=true]> l) s
             | None => s
             end).
  assert (H1 : bots s1 = bots s) by (subst s1; by destruct (stop_events s !! n)).
  destruct (bot_threads s1 !! n) as [t|].
  - destruct (is_alive (acts during s1) t); simpl; by rewrite acts_bots, H1.
  - simpl. by rewrite H1.
Qed.

Lemma stop_bot_bot_threads s n during now :
  bot_threads (stop_bot s n during now).1
  = if (stop_bot s n during now).2 then delete n (bot_threads s) else bot_threads s.
Proof.
  unfold stop_bot. destruct (bots s !! n); [|done].
  set (s1 := match stop_events s !! n with
             | Some e => with_events (fun l => <[e:=true]> l) s
             | None => s
             end).
  assert (H1 : bot_threads s1 = bot_threads s)
    by (subst s1; by destruct (stop_events s !! n)).
  destruct (bot_threads s1 !! n) as [t|].
  - destruct (is_alive (acts during s1) t); simpl; by rewrite acts_bot_threads, H1.
  - simpl. by rewrite H1.
Qed.

Lemma stop_bot_stop_events s n during now :
  stop_events (stop_bot s n during now).1 = stop_events s.
Proof.
  unfold stop_bot. destruct (bots s !! n); [|done].
  set (s1 := match stop_events s !! n with
             | Some e => with_events (fun l => <[e:=true]> l) s
             | None => s
             end).
  assert (H1 : stop_events s1 = stop_events s)
    by (subst s1; by destruct (stop_events s !! n)).
  destruct (bot_threads s1 !! n) as [t|].
  - destruct (is_alive (acts during s1) t); simpl; by rewrite acts_stop_events, H1.
  - simpl. by rewrite H1.
Qed.

Lemma stop_bot_sets_event s n during now e :
  is_Some (bots s !! n) -> stop_events s !! n = Some e -> e < length (events s) ->
  is_set (stop_bot s n during now).1 e = true.
Proof.
  intros [b Hb] He Hlt. unfold stop_bot. rewrite Hb, He.
  set (s1 := with_events (fun l => <[e:=true]> l) s).
  assert (H1 : is_set s1 e = true).
  { apply is_set_true. simpl. by apply list_lookup_insert_eq. }
  assert (H2 : is_set (acts during s1) e = true)
    by (by apply (later_acts during s1)).
  change (bot_threads s1 !! n) with (bot_threads s !! n).
  destruct (bot_threads s !! n) as [t|].
  - destruct (is_alive (acts during s1) t); [done|].
    apply is_set_true. simpl. by apply is_set_true.
  - done.
Qed.

Lemma stop_all_bots_snoc s keys k during now :
  stop_all_bots s (keys ++ [k]) during now
  = ((stop_bot (stop_all_bots s keys during now).1 k (during k) (now k)).1,
     if (stop_bot (stop_all_bots s keys during now).1 k (during k) (now k)).2
     then (stop_all_bots s keys during now).2 else false).
Proof.
  unfold stop_all_bots. rewrite foldl_app. simpl.
  by destruct (stop_bot _ k (during k) (now k)).
Qed.

Lemma stop_all_bots_shrinks s keys during now n :
  bots s !! n = None -> bots (stop_all_bots s keys during now).1 !! n = None.
Proof.
  intros H. induction keys as [|k keys IH] using rev_ind; [done|].
  rewrite stop_all_bots_snoc. simpl. rewrite stop_bot_bots.
  destruct (stop_bot _ k _ _).2; [|done].
  apply lookup_delete_None. by right.
Qed.

(** X7: when [stop_all_bots] returns [True], every name it went through has
    lost its bot entry and its thread handle; if it went through all the
    registered names, the registry of bots is empty. *)
Theorem stop_all_bots_true_empties_registry s keys during now :
  (stop_all_bots s keys during now).2 = true ->
  (forall n, n ∈ keys ->
     bots (stop_all_bots s keys during now).1 !! n = None
     /\ bot_threads (stop_all_bots s keys during now).1 !! n = None)
  /\ ((forall n, is_Some (bots s !! n) -> n ∈ keys) ->
      bots (stop_all_bots s keys during now).1 = ∅).
Proof.
  intros Hok.
  assert (H : forall n, n ∈ keys ->
     bots (stop_all_bots s keys during now).1 !! n = None
     /\ bot_threads (stop_all_bots s keys during now).1 !! n = None).
  { revert Hok. induction keys as [|k keys IH] using rev_ind.
    - intros _ n Hn. by apply elem_of_nil in Hn.
    - rewrite stop_all_bots_snoc. simpl.
      rewrite stop_bot_bots, stop_bot_bot_threads.
      destruct (stop_bot _ k _ _).2; [|done].
      intros Hok n Hn. rewrite !lookup_delete_None.
      apply elem_of_app in Hn as [Hn|Hn%list_elem_of_singleton].
      + destruct (IH Hok n Hn). split; by right.
      + split; by left. }
  split; [exact H|].
  intros Hall. apply map_eq. intros n. rewrite lookup_empty.
  destruct (bots s !! n) as [b|] eqn:Hb.
  - apply H, Hall. by eexists.
  - by apply stop_all_bots_shrinks.
Qed.

Lemma stop_all_bots_true_empties_registry_witness :
  bots (stop_all_bots running ["Bot_Primary"]
          (fun _ => [(0, Finish 6)]) (fun _ => 7)).1 = ∅.
Proof.
  apply (stop_all_bots_true_empties_registry running ["Bot_Primary"]
           (fun _ => [(0, Finish 6)]) (fun _ => 7)).
  - vm_compute. reflexivity.
  - intros n [b Hb]. apply list_elem_of_singleton.
    destruct (decide (n = "Bot_Primary")) as [->|Hne]; [done|].
    exfalso. revert Hb.
    change (bots running) with (<["Bot_Primary":=0]> (∅ : gmap string nat)).
    by rewrite lookup_insert_ne, lookup_empty.
Defined.

Lemma stop_all_bots_later s keys during now :
  later s (stop_all_bots s keys during now).1.
Proof.
  induction keys as [|k keys IH] using rev_ind; [apply later_refl|].
  rewrite stop_all_bots_snoc. simpl.
  eapply later_trans; [exact IH | apply later_stop_bot].
Qed.

(** X8: [stop_all_bots] does not return early.  Along every history, each
    registered name it goes through has its stop event set afterwards,
    whether or not the stops before it, or its own, succeeded. *)
Theorem stop_all_bots_signals_every_bot ops keys during now n e :
  n ∈ keys ->
  is_Some (bots (run ops) !! n) ->
  stop_events (run ops) !! n = Some e ->
  is_set (stop_all_bots (run ops) keys during now).1 e = true.
Proof.
  intros Hn Hb He.
  assert (Hlt : e < length (events (run ops))).
  { destruct (wf_run ops) as (_ & _ & W3 & _). by eapply W3. }
  revert Hn Hb He Hlt. generalize (run ops). intros s.
  induction keys as [|k keys IH] using rev_ind.
  - intros Hn. by apply elem_of_nil in Hn.
  - intros Hn Hb He Hlt. rewrite stop_all_bots_snoc. simpl.
    destruct (decide (n ∈ keys)) as [Hin|Hnin].
    + apply (later_stop_bot (stop_all_bots s keys during now).1 k (during k) (now k)).
      by apply IH.
    + apply elem_of_app in Hn as [Hn|Hn%list_elem_of_singleton]; [done|]. subst k.
      assert (Hsame : forall keys',
        n ∉ keys' ->
        bots (stop_all_bots s keys' during now).1 !! n = bots s !! n
        /\ stop_events (stop_all_bots s keys' during now).1 = stop_events s).
      { clear. induction keys' as [|k keys' IH'] using rev_ind; [done|].
        intros Hnot. rewrite stop_all_bots_snoc. simpl.
        rewrite stop_bot_bots, stop_bot_stop_events.
        assert (Hk : n <> k /\ n ∉ keys').
        { split; intros ?; apply Hnot, elem_of_app; [right|left]; [|done].
          subst. by apply list_elem_of_singleton. }
        destruct Hk as [Hk Hk']. destruct (IH' Hk') as [H1 H2].
        split; [|done].
        destruct (stop_bot _ k _ _).2; [|done].
        by rewrite lookup_delete_ne. }
      destruct (Hsame keys Hnin) as [H1 H2].
      apply stop_bot_sets_event.
      * by rewrite H1.
      * by rewrite H2.
      * destruct (stop_all_bots_later s keys during now) as (_ & Hlen & _). lia.
Qed.

Lemma stop_all_bots_signals_every_bot_witness :
  is_set (stop_all_bots
            (run [StartBot "Bot_Primary" ∅ 0 Launched;
                  StartBot "Bot_Secondary" ∅ 1 Launched])
            ["Bot_Primary"; "Bot_Secondary"] (fun _ => []) (fun _ => 9)).1 1
  = true.
Proof.
  apply (stop_all_bots_signals_every_bot
           [StartBot "Bot_Primary" ∅ 0 Launched;
            StartBot "Bot_Secondary" ∅ 1 Launched]
           ["Bot_Primary"; "Bot_Secondary"] (fun _ => []) (fun _ => 9)
           "Bot_Secondary" 1).
  - apply list_elem_of_In. simpl. tauto.
  - vm_compute. by eexists.
  - vm_compute. reflexivity.
Defined.

(** ** Restarting *)

Lemma stop_bot_heap_sizes s n during now :
  length (events (stop_bot s n during now).1) = length (events s)
  /\ length (bot_objs (stop_bot s n during now).1) = length (bot_objs s)
  /\ length (threads (stop_bot s n during now).1) = length (threads s).
Proof.
  unfold stop_bot. destruct (bots s !! n); [|done].
  set (s1 := match stop_events s !! n with
             | Some e => with_events (fun l => <[e:=true]> l) s
             | None => s
             end).
  assert (H1 : length (events s1) = length (events s)
               /\ bot_objs s1 = bot_objs s /\ threads s1 = threads s).
  { subst s1. destruct (stop_events s !! n); simpl; [|done].
    by rewrite length_insert. }
  destruct H1 as (He & Hb & Ht).
  destruct (bot_threads s1 !! n) as [t|].
  - destruct (is_alive (acts during s1) t); simpl;
      by rewrite acts_events, acts_bot_objs_length, acts_threads_length, He, Hb, Ht.
  - simpl. by rewrite He, Hb, Ht.
Qed.

(** X9: [restart_bot] does not start anything when the stop fails.  For a
    registered bot whose [stop_bot] returns [False], [restart_bot] returns
    [False] in the state that stop left: no event, bot or thread is
    created and the bot entry and thread handle are the old ones. *)
Theorem restart_bot_gives_up_after_failed_stop s n c during t1 t2 o :
  is_Some (bots s !! n) ->
  (stop_bot s n during t1).2 = false ->
  restart_bot s n c during t1 t2 o = ((stop_bot s n during t1).1, false)
  /\ length (events (restart_bot s n c during t1 t2 o).1) = length (events s)
  /\ length (bot_objs (restart_bot s n c during t1 t2 o).1) = length (bot_objs s)
  /\ length (threads (restart_bot s n c during t1 t2 o).1) = length (threads s)
  /\ bots (restart_bot s n c during t1 t2 o).1 = bots s
  /\ bot_threads (restart_bot s n c during t1 t2 o).1 = bot_threads s.
Proof.
  intros [b Hb] Hfail.
  assert (Hr : restart_bot s n c during t1 t2 o = ((stop_bot s n during t1).1, false)).
  { unfold restart_bot. rewrite Hb.
    destruct (stop_bot s n during t1) as [s' ok]. simpl in Hfail. by subst ok. }
  rewrite Hr. simpl. split; [done|].
  destruct (stop_bot_heap_sizes s n during t1) as (H1 & H2 & H3).
  repeat (split; [done|]).
  rewrite stop_bot_bots, stop_bot_bot_threads, Hfail. done.
Qed.

Lemma restart_bot_gives_up_after_failed_stop_witness :
  restart_bot running "Bot_Primary" ∅ [] 7 8 Launched
  = ((stop_bot running "Bot_Primary" [] 7).1, false).
Proof.
  apply (restart_bot_gives_up_after_failed_stop running "Bot_Primary" ∅ [] 7 8 Launched).
  - vm_compute. by eexists.
  - vm_compute. reflexivity.
Defined.

Lemma start_bot_fresh s n c now o :
  bots s !! n = None ->
  ((start_bot s n c now o).2 = true <-> o = Launched)
  /\ exists r, bot_statuses (start_bot s n c now o).1 !! n = Some r
       /\ name r = n /\ processed_count r = 0
       /\ start_time r = Some now /\ stop_time r = None
       /\ logs r = logs (getitem n (bot_statuses s))
       /\ unread_count r = unread_count (getitem n (bot_statuses s))
       /\ status r = (match o with Launched => "Starting" | _ => "Error" end)
       /\ (o = Launched -> is_bot_running (start_bot s n c now o).1 n = true).
Proof.
  intros Hb. unfold start_bot, already_running. rewrite Hb.
  destruct o; simpl.
  - split; [done|]. eexists. rewrite modify_lookup. repeat (split; [done|]).
    intros _. unfold is_bot_running. simpl. rewrite !lookup_insert_eq.
    unfold is_alive. simpl. by rewrite list_lookup_middle.
  - split; [split; discriminate|]. eexists. rewrite modify_lookup, getitem_modify.
    repeat (split; [done|]). discriminate.
  - split; [split; discriminate|]. eexists. rewrite modify_lookup, getitem_modify.
    repeat (split; [done|]). discriminate.
Qed.

(** X10: [restart_bot] after a stop that succeeds.  For a registered bot whose
    [stop_bot] returns [True], the start that follows is never refused:
    [restart_bot] returns [True] exactly when the worker could be launched;
    the record then has its counter back at 0, the new start time and no
    stop time, keeps its log, and after a launch the bot is reported as
    running. *)
Theorem restart_bot_starts_after_stop s n c during t1 t2 o :
  is_Some (bots s !! n) ->
  (stop_bot s n during t1).2 = true ->
  ((restart_bot s n c during t1 t2 o).2 = true <-> o = Launched)
  /\ exists r, bot_statuses (restart_bot s n c during t1 t2 o).1 !! n = Some r
       /\ name r = n /\ processed_count r = 0
       /\ start_time r = Some t2 /\ stop_time r = None
       /\ logs r = logs (getitem n (bot_statuses s))
       /\ status r = (match o with Launched => "Starting" | _ => "Error" end)
       /\ (o = Launched -> is_bot_running (restart_bot s n c during t1 t2 o).1 n = true).
Proof.
  intros [b Hb] Hok.
  assert (Hr : restart_bot s n c during t1 t2 o
               = start_bot (stop_bot s n during t1).1 n c t2 o).
  { unfold restart_bot. rewrite Hb.
    destruct (stop_bot s n during t1) as [s' ok]. simpl in Hok. by subst ok. }
  rewrite Hr.
  assert (Hnone : bots (stop_bot s n during t1).1 !! n = None).
  { rewrite stop_bot_bots, Hok. apply lookup_delete_eq. }
  destruct (start_bot_fresh _ n c t2 o Hnone)
    as (H1 & r & Hr1 & Hr2 & Hr3 & Hr4 & Hr5 & Hr6 & _ & Hr8 & Hr9).
  split; [exact H1|]. exists r. repeat (split; [done|]).
  split; [|done]. by rewrite Hr6, stop_bot_logs.
Qed.

Lemma restart_bot_starts_after_stop_witness :
  is_Some (bots running !! "Bot_Primary")
  /\ (stop_bot running "Bot_Primary" [(0, Finish 6)] 7).2 = true
  /\ ((restart_bot running "Bot_Primary" ∅ [(0, Finish 6)] 7 8 Launched).2 = true
      <-> Launched = Launched).
Proof.
  assert (H1 : is_Some (bots running !! "Bot_Primary"))
    by (vm_compute; by eexists).
  assert (H2 : (stop_bot running "Bot_Primary" [(0, Finish 6)] 7).2 = true)
    by (vm_compute; reflexivity).
  split; [exact H1|]. split; [exact H2|].
  exact (proj1 (restart_bot_starts_after_stop running "Bot_Primary" ∅
                  [(0, Finish 6)] 7 8 Launched H1 H2)).
Defined.

End ManagerMoreFacts.

(* ===================================================================== *)
(** * More about the helpers *)
(* ===================================================================== *)

Module HelpersMoreFacts.
Import PyText PyTextFacts PyMore MessageHelpers HelpersMore RAG.
Import MessageProcessor Router ExtractFacts Automation Repository.
Import ProcessorFacts.

(** ** Case *)

Lemma question_mark_lower c :
  Ascii.eqb "?" (to_lower c) = Ascii.eqb "?" c.
Proof. by_cases_on_char c. Qed.

Lemma to_lower_not_upper c : is_upper (to_lower c) = false.
Proof. by_cases_on_char c. Qed.

Lemma contains_question_lower m :
  contains (txt "?") (lower m) = contains (txt "?") m.
Proof.
  induction m as [|c m IH]; [done|].
  change (contains (txt "?") (lower (c :: m)))
    with (Ascii.eqb "?" (to_lower c) && true || contains (txt "?") (lower m)).
  change (contains (txt "?") (c :: m))
    with (Ascii.eqb "?" c && true || contains (txt "?") m).
  by rewrite question_mark_lower, IH.
Qed.

Lemma nruns_space_lower open s :
  nruns (fun c => negb (isspace c)) open (lower s)
  = nruns (fun c => negb (isspace c)) open s.
Proof.
  revert open. induction s as [|c s IH]; intros open; simpl; [done|].
  rewrite isspace_to_lower. destruct (isspace c); simpl; by rewrite IH.
Qed.

Lemma count_split_lower m : length (split (lower m)) = length (split m).
Proof. unfold split. by rewrite !length_runs, nruns_space_lower. Qed.

Lemma lower_idemp m : lower (lower m) = lower m.
Proof.
  unfold lower. rewrite map_map. apply map_ext. intros c.
  unfold to_lower at 1. by rewrite to_lower_not_upper.
Qed.

Lemma is_pure_greeting_lower kw m :
  is_pure_greeting kw m = is_pure_greeting kw (lower m).
Proof.
  unfold is_pure_greeting. by rewrite lower_idemp, contains_question_lower.
Qed.

Lemma is_satisfied_response_lower kw m :
  is_satisfied_response kw m = is_satisfied_response kw (lower m).
Proof.
  unfold is_satisfied_response. by rewrite lower_idemp, count_split_lower.
Qed.

Lemma rule_matches_lower kw r m :
  rule_matches kw r m = rule_matches kw r (lower m).
Proof.
  destruct r; simpl.
  - apply is_pure_greeting_lower.
  - apply is_satisfied_response_lower.
  - unfold is_paypal_query. by rewrite lower_idemp.
  - unfold is_publication_query. by rewrite lower_idemp.
  - unfold is_remittance_query. by rewrite lower_idemp.
  - unfold _is_student_specific_query. by rewrite lower_idemp.
  - done.
Qed.

Lemma classify_lower kw m : classify kw m = classify kw (lower m).
Proof.
  unfold classify. f_equal.
  induction priority as [|r rs IH]; [done|].
  cbn [find]. rewrite <- rule_matches_lower.
  destruct (rule_matches kw r m); [done | exact IH].
Qed.

Lemma classify_message_category_lower kw m :
  classify_message_category kw m = classify_message_category kw (lower m).
Proof.
  unfold classify_message_category, is_fees_query, is_academic_query.
  rewrite <- is_pure_greeting_lower, <- is_satisfied_response_lower.
  unfold is_paypal_query, is_publication_query, is_remittance_query.
  by rewrite lower_idemp.
Qed.

(** X11: routing does not look at the case of the message.  Two messages
    that are equal up to upper and lower case take the same rule of the
    pipeline's chain, and get the same category from
    [classify_message_category]. *)
Theorem routing_ignores_case kw m1 m2 :
  lower m1 = lower m2 ->
  classify kw (strip m1) = classify kw (strip m2)
  /\ classify_message_category kw m1 = classify_message_category kw m2.
Proof.
  intros H. split.
  - rewrite (classify_lower kw (strip m1)), (classify_lower kw (strip m2)).
    by rewrite <- !strip_lower, H.
  - rewrite (classify_message_category_lower kw m1),
      (classify_message_category_lower kw m2). by rewrite H.
Qed.

Lemma routing_ignores_case_witness :
  classify _get_default_keywords (strip (txt "THANK you"))
  = classify _get_default_keywords (strip (txt "thank YOU")).
Proof.
  apply (routing_ignores_case _get_default_keywords
           (txt "THANK you") (txt "thank YOU")).
  reflexivity.
Defined.

(** ** Phrases that cannot match *)

Lemma starts_with_elem p s c :
  starts_with p s = true -> c ∈ p -> c ∈ s.
Proof.
  revert s. induction p as [|a p IH]; intros [|b s]; simpl; try done.
  - intros _ H. by apply elem_of_nil in H.
  - intros [Hab Hp]%andb_true_iff Hc.
    apply Ascii.eqb_eq in Hab as ->.
    apply elem_of_cons in Hc as [->|Hc]; [left | right; by apply IH].
Qed.

Lemma contains_elem p s c : contains p s = true -> c ∈ p -> c ∈ s.
Proof.
  induction s as [|b s IH]; simpl.
  - rewrite orb_false_r. destruct p; [|done]. intros _ H. by apply elem_of_nil in H.
  - intros [H|H]%orb_true_iff Hc.
    + by apply (starts_with_elem p).
    + right. by apply IH.
Qed.

Lemma upper_phrase_never_found p m :
  has_upper p = true -> contains p (lower m) = false.
Proof.
  intros [c [Hc Hu]]%existsb_exists.
  destruct (contains p (lower m)) eqn:E; [|done].
  apply list_elem_of_In in Hc.
  pose proof (contains_elem _ _ c E Hc) as Hin.
  unfold lower in Hin. apply list_elem_of_In, in_map_iff in Hin as (x & <- & _).
  by rewrite to_lower_not_upper in Hu.
Qed.

Lemma upper_phrases_never_found phrases m :
  forallb has_upper phrases = true -> any_in phrases (lower m) = false.
Proof.
  intros H. unfold any_in. induction phrases as [|p ps IH]; [done|].
  simpl in *. apply andb_true_iff in H as [Hp Hps].
  by rewrite upper_phrase_never_found, IH.
Qed.

(** X12: a configured phrase with an upper-case letter is dead.  Messages are
    lower-cased before the search and phrases are not, so such a phrase is
    found in no message; a category made only of such phrases matches
    nothing. *)
Theorem capitalised_phrases_never_match kw category m :
  forallb has_upper (get_keywords_for_category kw category) = true ->
  any_in (get_keywords_for_category kw category) (lower m) = false
  /\ any_in (get_keywords_for_category kw category) (strip (lower m)) = false
  /\ (category = "paypal" -> is_paypal_query kw m = false)
  /\ (category = "publications" -> is_publication_query kw m = false)
  /\ (category = "remittance" -> is_remittance_query kw m = false)
  /\ (category = "greetings" -> is_pure_greeting kw m = false)
  /\ (category = "acknowledgments" -> is_satisfied_response kw m = false).
Proof.
  intros H.
  pose proof (upper_phrases_never_found _ m H) as H1.
  pose proof (upper_phrases_never_found _ (strip m) H) as H2.
  rewrite <- strip_lower in H2.
  split; [exact H1|]. split; [exact H2|].
  split; [intros E; subst category; exact H1|].
  split; [intros E; subst category; exact H1|].
  split; [intros E; subst category; exact H1|].
  split; intros E; subst category.
  - unfold is_pure_greeting. rewrite H2. by rewrite andb_false_r.
  - unfold is_satisfied_response. rewrite H2. by destruct (_ <=? _)%nat.
Qed.

Lemma capitalised_phrases_never_match_witness :
  is_paypal_query SampleMore.capitalised (txt "Can I pay with PayPal") = false.
Proof.
  exact (proj1 (proj2 (proj2
           (capitalised_phrases_never_match SampleMore.capitalised "paypal"
              (txt "Can I pay with PayPal") eq_refl))) eq_refl).
Defined.

(** ** Adding keywords *)

Lemma any_in_elem phrases s :
  any_in phrases s = true <-> exists p, p ∈ phrases /\ contains p s = true.
Proof.
  unfold any_in. rewrite existsb_exists. split.
  - intros (p & Hp & Hc). exists p. by rewrite list_elem_of_In.
  - intros (p & Hp & Hc). exists p. by rewrite <- list_elem_of_In.
Qed.

Lemma any_in_same_elements l1 l2 s :
  (forall p, p ∈ l1 <-> p ∈ l2) -> any_in l1 s = any_in l2 s.
Proof.
  intros H. apply eq_true_iff_eq. rewrite !any_in_elem.
  split; intros (p & Hp & Hc); exists p; (split; [by apply H | done]).
Qed.

Lemma any_in_app l1 l2 s : any_in (l1 ++ l2) s = any_in l1 s || any_in l2 s.
Proof. unfold any_in. apply existsb_app. Qed.

Lemma set_list_elem (so : SetOrder) l p : p ∈ set_list so l <-> p ∈ l.
Proof. by rewrite (set_list_perm so l), elem_of_remove_dups. Qed.

Lemma set_list_NoDup (so : SetOrder) l : NoDup (set_list so l).
Proof. rewrite (set_list_perm so l). apply NoDup_remove_dups. Qed.

Lemma add_keywords_extends_category_aux kw so category keywords :
  (forall p,
     p ∈ get_keywords_for_category
           (add_keywords_to_category kw so category keywords).1 category
     <-> p ∈ get_keywords_for_category kw category \/ p ∈ keywords)
  /\ NoDup (get_keywords_for_category
              (add_keywords_to_category kw so category keywords).1 category).
Proof.
  unfold add_keywords_to_category, get_keywords_for_category. simpl.
  rewrite lookup_insert_eq. simpl. split.
  - intros p. by rewrite set_list_elem, elem_of_app.
  - apply set_list_NoDup.
Qed.

(** X13: [add_keywords_to_category] returns [True] and leaves a list without
    duplicates that holds exactly the old phrases of the category and the
    new ones; the other categories keep their lists. *)
Theorem add_keywords_extends_category kw so category keywords :
  (add_keywords_to_category kw so category keywords).2 = true
  /\ (forall p,
        p ∈ get_keywords_for_category
              (add_keywords_to_category kw so category keywords).1 category
        <-> p ∈ get_keywords_for_category kw category \/ p ∈ keywords)
  /\ NoDup (get_keywords_for_category
              (add_keywords_to_category kw so category keywords).1 category)
  /\ (forall other, other <> category ->
        get_keywords_for_category
          (add_keywords_to_category kw so category keywords).1 other
        = get_keywords_for_category kw other).
Proof.
  unfold add_keywords_to_category, get_keywords_for_category. simpl.
  split; [done|]. rewrite lookup_insert_eq. simpl. split; [|split].
  - intros p. by rewrite set_list_elem, elem_of_app.
  - apply set_list_NoDup.
  - intros other H. by rewrite lookup_insert_ne.
Qed.

Lemma add_keywords_extends_category_witness :
  get_keywords_for_category
    (add_keywords_to_category _get_default_keywords insertion_order "paypal"
       [txt "venmo"]).1 "salutations"
  = get_keywords_for_category _get_default_keywords "salutations".
Proof.
  apply (add_keywords_extends_category _get_default_keywords insertion_order
           "paypal" [txt "venmo"]).
  discriminate.
Defined.

(** X14: adding keywords only widens a rule.  After
    [add_keywords_to_category], a text matches the category exactly when it
    matched before or contains one of the new phrases; so a PayPal,
    publication or remittance query stays one, and a message that contains a
    new phrase becomes one. *)
Theorem add_keywords_widens_matching kw so category keywords s m :
  any_in (get_keywords_for_category
            (add_keywords_to_category kw so category keywords).1 category) s
  = any_in (get_keywords_for_category kw category) s || any_in keywords s
  /\ is_paypal_query (add_keywords_to_category kw so "paypal" keywords).1 m
     = is_paypal_query kw m || any_in keywords (lower m)
  /\ is_publication_query (add_keywords_to_category kw so "publications" keywords).1 m
     = is_publication_query kw m || any_in keywords (lower m)
  /\ is_remittance_query (add_keywords_to_category kw so "remittance" keywords).1 m
     = is_remittance_query kw m || any_in keywords (lower m).
Proof.
  assert (H : forall c t,
    any_in (get_keywords_for_category
              (add_keywords_to_category kw so c keywords).1 c) t
    = any_in (get_keywords_for_category kw c) t || any_in keywords t).
  { intros c t. rewrite <- any_in_app. apply any_in_same_elements. intros p.
    destruct (add_keywords_extends_category_aux kw so c keywords) as [Hp _].
    rewrite Hp. by rewrite elem_of_app. }
  split; [apply H|].
  unfold is_paypal_query, is_publication_query, is_remittance_query.
  by rewrite !H.
Qed.

(** ** The two classifiers *)

(** X15: [classify_message_category] and the pipeline order their rules
    differently, and agree where the orders allow.  A message the pipeline
    routes to PayPal, publication or remittance has the helper's category
    payment, publication or remittance; a message the helper calls a
    greeting or an acknowledgment takes that rule in the pipeline; and what
    the helper calls general is a student-specific or FAQ message for the
    pipeline. *)
Theorem classifiers_agree_where_orders_allow kw m :
  (classify kw m = PayPal -> classify_message_category kw m = "payment")
  /\ (classify kw m = Publication -> classify_message_category kw m = "publication")
  /\ (classify kw m = Remittance -> classify_message_category kw m = "remittance")
  /\ (classify_message_category kw m = "greeting" -> classify kw m = PureGreeting)
  /\ (classify_message_category kw m = "acknowledgment" ->
      classify kw m = Acknowledgment)
  /\ (classify_message_category kw m = "general" ->
      classify kw m = StudentSpecific \/ classify kw m = GeneralFAQ).
Proof.
  unfold classify, priority, classify_message_category. simpl.
  destruct (is_pure_greeting kw m), (is_satisfied_response kw m),
    (is_paypal_query kw m), (is_publication_query kw m),
    (is_remittance_query kw m), (is_fees_query kw m), (is_academic_query kw m),
    (_is_student_specific_query m); simpl;
    repeat split; intros H; try done; auto.
Qed.

Lemma classifiers_agree_where_orders_allow_witness :
  classify_message_category _get_default_keywords (txt "namaste") = "greeting"
  /\ classify _get_default_keywords (txt "namaste") = PureGreeting.
Proof.
  assert (H : classify_message_category _get_default_keywords (txt "namaste")
              = "greeting") by (vm_compute; reflexivity).
  split; [exact H|].
  exact (proj1 (proj2 (proj2 (proj2
           (classifiers_agree_where_orders_allow _get_default_keywords
              (txt "namaste"))))) H).
Defined.

(** They do differ: the helper asks about PayPal first, the pipeline about
    greetings. *)
Example classifiers_differ :
  classify_message_category _get_default_keywords (txt "hi paypal") = "payment"
  /\ classify _get_default_keywords (txt "hi paypal") = PureGreeting.
Proof. vm_compute. done. Qed.

(** ** Unsaved contacts *)

Lemma cleaned_is_filter s :
  remove_char "-" (remove_char " " (remove_char "+" s)) = List.filter kept s.
Proof.
  unfold remove_char, kept. induction s as [|c s IH]; [done|].
  simpl. destruct (Ascii.eqb c "+"); simpl; [exact IH|].
  destruct (Ascii.eqb c " "); simpl; [exact IH|].
  destruct (Ascii.eqb c "-"); simpl; [exact IH|].
  by rewrite IH.
Qed.

Lemma digit_is_kept c : is_digit c = true -> kept c = true.
Proof. unfold kept. by_cases_on_char c. Qed.

Lemma newline_is_kept : kept newline = true /\ is_digit newline = false.
Proof. done. Qed.

Lemma split_on_absent sep s :
  (forall c, c ∈ s -> Ascii.eqb c sep = false) -> split_on sep s = [s].
Proof.
  induction s as [|c s IH]; intros H; [done|].
  simpl. rewrite (H c) by left.
  rewrite IH; [done|]. intros x Hx. apply H. by right.
Qed.

Lemma filter_agree {A} (p q : A -> bool) l :
  (forall x, x ∈ l -> p x = q x) -> List.filter p l = List.filter q l.
Proof.
  induction l as [|a l IH]; intros H; [done|].
  simpl. rewrite (H a) by left. rewrite IH; [done|].
  intros x Hx. apply H. by right.
Qed.

Lemma forallb_filter_elem (p q : ascii -> bool) l x :
  forallb p (List.filter q l) = true -> x ∈ l -> q x = true -> p x = true.
Proof.
  intros H Hx Hq. rewrite forallb_forall in H. apply H.
  apply filter_In. split; [by apply list_elem_of_In | done].
Qed.

(** X16: for a chat that [is_unsaved_contact] takes for an unsaved contact,
    the contact number [_process_chat] works with is the name with ['+'],
    blanks and ['-'] removed: it consists of digits only, at least ten of
    them, and the chat is answered with the greeting for unsaved
    contacts. *)
Theorem unsaved_contact_number_is_its_digits contact_name lookup :
  is_unsaved_contact contact_name (contact_number_of contact_name) = true ->
  contact_number_of contact_name
  = remove_char "-" (remove_char " " (remove_char "+" contact_name))
  /\ isdigit (contact_number_of contact_name) = true
  /\ 10 <= length (contact_number_of contact_name)
  /\ _process_chat contact_name lookup = UnsavedContact.
Proof.
  intros H.
  assert (Hroute : _process_chat contact_name lookup = UnsavedContact)
    by (unfold _process_chat; by rewrite H).
  unfold is_unsaved_contact in H. rewrite cleaned_is_filter in *.
  apply andb_true_iff in H as [Hd Hlen]. apply Nat.leb_le in Hlen.
  unfold isdigit in Hd. apply andb_true_iff in Hd as [Hne Hall].
  assert (Hchars : forall x, x ∈ contact_name -> is_digit x = kept x).
  { intros x Hx. destruct (kept x) eqn:Hk.
    - by eapply forallb_filter_elem.
    - destruct (is_digit x) eqn:Hdx; [|done].
      apply digit_is_kept in Hdx. congruence. }
  assert (Hnl : forall c, c ∈ contact_name -> Ascii.eqb c newline = false).
  { intros c Hc. destruct (Ascii.eqb c newline) eqn:E; [|done].
    apply Ascii.eqb_eq in E. subst c. by apply Hchars in Hc. }
  assert (Hnum : contact_number_of contact_name = List.filter kept contact_name).
  { unfold contact_number_of. rewrite (split_on_absent _ _ Hnl). simpl.
    unfold digits_of. rewrite (filter_agree _ _ _ Hchars).
    by destruct (List.filter kept contact_name). }
  rewrite Hnum. repeat split; try done.
  unfold isdigit. by rewrite Hne, Hall.
Qed.

Lemma unsaved_contact_number_is_its_digits_witness :
  is_unsaved_contact (txt "+91 98765-43210")
    (contact_number_of (txt "+91 98765-43210")) = true
  /\ contact_number_of (txt "+91 98765-43210") = txt "919876543210".
Proof.
  assert (H : is_unsaved_contact (txt "+91 98765-43210")
                (contact_number_of (txt "+91 98765-43210")) = true)
    by (vm_compute; reflexivity).
  split; [exact H|].
  exact (proj1 (unsaved_contact_number_is_its_digits
                  (txt "+91 98765-43210") None H)).
Defined.

(** ** The shape of an extracted question *)

Lemma length_lstrip s : length (lstrip s) <= length s.
Proof.
  induction s as [|c s IH]; simpl; [lia|].
  destruct (isspace c); simpl; lia.
Qed.

Lemma length_strip s : length (strip s) <= length s.
Proof.
  unfold strip, rstrip. rewrite length_rev.
  pose proof (length_lstrip (rev (lstrip s))) as H1.
  rewrite length_rev in H1. pose proof (length_lstrip s). lia.
Qed.

Lemma length_collapse_go b s : length (collapse_go b s) <= length s.
Proof.
  revert b. induction s as [|c s IH]; intros b; simpl; [lia|].
  destruct (isspace c); [destruct b|]; simpl;
    [pose proof (IH true) | pose proof (IH true) | pose proof (IH false)]; lia.
Qed.

Lemma length_normalize s : length (normalize s) <= length s.
Proof.
  unfold normalize, collapse_ws.
  pose proof (length_strip (collapse_go false s)).
  pose proof (length_collapse_go false s). lia.
Qed.

Lemma first_match_Some try alts r :
  first_match try alts = Some r -> exists a, try a = Some r.
Proof.
  induction alts as [|a alts IH]; simpl; [done|].
  destruct (try a) as [r'|] eqn:E; [|exact IH].
  intros [= <-]. by exists a.
Qed.

Lemma length_sub_greeting alts s : length (sub_greeting alts s) <= length s.
Proof.
  unfold sub_greeting.
  destruct (first_match (try_greeting s) alts) as [r|] eqn:E; [|lia].
  apply first_match_Some in E as [a Ha]. unfold try_greeting in Ha.
  destruct (strip_prefix_ci a s); [|done].
  destruct (shorter _ s) eqn:Hs; [|done].
  injection Ha as <-. unfold shorter in Hs. apply Nat.ltb_lt in Hs. lia.
Qed.

Lemma length_sub_salutation_go alts prev skip s :
  length (sub_salutation_go alts prev skip s) <= length s.
Proof.
  revert prev skip. induction s as [|c s IH]; intros prev skip; [simpl; lia|].
  cbn [sub_salutation_go]. destruct skip as [|k].
  - destruct (salutation_at alts prev (c :: s)) as [[|k]|]; simpl;
      [pose proof (IH (Some c) 0) | pose proof (IH (Some c) k)
       | pose proof (IH (Some c) 0)]; lia.
  - pose proof (IH (Some c) k). simpl. lia.
Qed.

Lemma length_strip_pleasantries kw s :
  length (strip_pleasantries kw s) <= length s.
Proof.
  unfold strip_pleasantries.
  set (gp := get_keywords_for_category kw "greeting_prefixes").
  set (sal := get_keywords_for_category kw "salutations").
  assert (H1 : length (if pattern_is_empty gp then s else sub_greeting gp s)
               <= length s).
  { destruct (pattern_is_empty gp); [lia | apply length_sub_greeting]. }
  destruct (pattern_is_empty sal); [exact H1|].
  unfold sub_salutation.
  etrans; [apply length_sub_salutation_go | exact H1].
Qed.

(** X17: [extract_question_from_message] never returns an empty question for
    a message that is not empty, never returns more characters than it was
    given, and returns either the message itself or a text that is trimmed
    and has single blanks for its white space. *)
Theorem extracted_question_shape kw message :
  (message <> [] -> extract_question_from_message kw message <> [])
  /\ length (extract_question_from_message kw message) <= length message
  /\ (extract_question_from_message kw message = message
      \/ normalize (extract_question_from_message kw message)
         = extract_question_from_message kw message).
Proof.
  rewrite extract_unfold.
  destruct (normalize (strip_pleasantries kw message)) as [|c t] eqn:E.
  - split; [done|]. split; [lia | by left].
  - split; [done|]. split.
    + rewrite <- E. etrans; [apply length_normalize | apply length_strip_pleasantries].
    + right. rewrite <- E. apply normalize_idemp.
Qed.

Lemma extracted_question_shape_witness :
  extract_question_from_message _get_default_keywords (txt "Dear") <> [].
Proof.
  apply (extracted_question_shape _get_default_keywords (txt "Dear")).
  discriminate.
Defined.

End HelpersMoreFacts.

(* ===================================================================== *)
(** * More facts about retrieval *)
(* ===================================================================== *)

Module RAGMoreFacts.
Import PyText RAG Sample RAGFacts.

Lemma confidence_of_nonneg n : (0 <= confidence_of n)%Q.
Proof.
  unfold confidence_of. apply Qmult_le_0_compat; [|done].
  apply Q.min_glb; [|done].
  unfold Qdiv, K. apply Qmult_le_0_compat; [|done].
  change 0%Q with (inject_Z 0). rewrite <- Zle_Qle. lia.
Qed.

Lemma confidence_of_pos n : (0 < confidence_of n)%Q -> (0 < n)%nat.
Proof.
  destruct n; [|lia]. intros H. exfalso.
  rewrite confidence_of_zero in H. by apply Qlt_irrefl in H.
Qed.

Lemma source_questions_sublist so docs :
  source_questions_of so docs `sublist_of`
    set_list so ((fun doc => metadata_get doc "question") <$>
                 filter (fun doc => metadata_get doc "question" ≠ []) docs).
Proof. apply sublist_take. Qed.

Lemma source_questions_shape so docs :
  (length (source_questions_of so docs) <= 3)%nat
  /\ NoDup (source_questions_of so docs)
  /\ forall q, q ∈ source_questions_of so docs ->
       q <> [] /\ exists doc, doc ∈ docs /\ metadata_get doc "question" = q.
Proof.
  split; [apply firstn_le_length|]. split.
  - eapply sublist_NoDup; [|apply source_questions_sublist].
    rewrite set_list_perm. apply NoDup_remove_dups.
  - intros q Hq.
    eapply elem_of_sublist in Hq; [|apply source_questions_sublist].
    rewrite set_list_perm, elem_of_remove_dups in Hq.
    apply list_elem_of_fmap in Hq as (doc & -> & Hdoc).
    apply list_elem_of_filter in Hdoc as [Hne Hdoc].
    split; [done|]. by exists doc.
Qed.

(** X18: the sources [query] reports are at most three, pairwise different,
    never the empty string, and each is the question recorded in the
    metadata of a chunk that the chain's own retriever returned; a result
    that has a source was answered by the generation call after a search
    that found a chunk above the threshold. *)
Theorem sources_are_questions_of_retrieved_chunks
        store so r question salutation interface :
  (length (query (Some store) so r question salutation interface).2 <= 3)%nat
  /\ NoDup (query (Some store) so r question salutation interface).2
  /\ forall q, q ∈ (query (Some store) so r question salutation interface).2 ->
       q <> []
       /\ (exists doc, doc ∈ similarity store question
                       /\ metadata_get doc "question" = q)
       /\ retrieval_responds r = true
       /\ similarity_score_threshold store question <> []
       /\ generated r
          = Some (query (Some store) so r question salutation interface).1.1.
Proof.
  unfold query.
  destruct (setup_qa_chain r salutation); simpl;
    [|split; [lia | split; [constructor | by intros q ?%elem_of_nil]]].
  destruct (retrieval_responds r); simpl;
    [|split; [lia | split; [constructor | by intros q ?%elem_of_nil]]].
  destruct (similarity_score_threshold store question) as [|d ds];
    [split; [simpl; lia | split; [constructor | by intros q ?%elem_of_nil]]|].
  destruct (generated r) as [answer|];
    [|split; [simpl; lia | split; [constructor | by intros q ?%elem_of_nil]]].
  simpl.
  destruct (source_questions_shape so (similarity store question))
    as (Hlen & Hnd & Hall).
  split; [done|]. split; [done|].
  intros q Hq. destruct (Hall q Hq) as [Hne Hdoc]. done.
Qed.

Lemma sources_are_questions_of_retrieved_chunks_witness :
  txt "When is the fee due?"
    ∈ (query (Some (index [fees] [fees; refund])) insertion_order
         (answering "At the start of each block.")
         (txt "fee due date") (txt "Student") None).2
  /\ exists doc, doc ∈ [fees; refund]
                 /\ metadata_get doc "question" = txt "When is the fee due?".
Proof.
  assert (H : txt "When is the fee due?"
    ∈ (query (Some (index [fees] [fees; refund])) insertion_order
         (answering "At the start of each block.")
         (txt "fee due date") (txt "Student") None).2)
    by (vm_compute; left).
  split; [exact H|].
  exact (proj1 (proj2 (proj2 (proj2
    (sources_are_questions_of_retrieved_chunks
       (index [fees] [fees; refund]) insertion_order
       (answering "At the start of each block.")
       (txt "fee due date") (txt "Student") None)) _ H))).
Defined.

(** X19: a positive confidence is only ever attached to generated text.  When
    [query] reports a confidence above zero, the index was there, the
    search responded and found chunks above the threshold of which at least
    one passed the interface filter, and the answer is what the generation
    call returned: none of the three fixed messages carries a positive
    confidence. *)
Theorem positive_confidence_means_generated_answer
        vs so r question salutation interface :
  (0 < (query vs so r question salutation interface).1.2)%Q ->
  exists store,
    vs = Some store
    /\ retrieval_responds r = true
    /\ interface_filter interface (similarity_score_threshold store question) <> []
    /\ generated r = Some (query vs so r question salutation interface).1.1.
Proof.
  unfold query. destruct vs as [store|]; [|by intros ?%Qlt_irrefl].
  destruct (setup_qa_chain r salutation); simpl; [|by intros ?%Qlt_irrefl].
  destruct (retrieval_responds r); simpl; [|by intros ?%Qlt_irrefl].
  destruct (similarity_score_threshold store question) as [|d ds] eqn:E;
    [by intros ?%Qlt_irrefl|].
  destruct (generated r) as [answer|]; [|by intros ?%Qlt_irrefl].
  simpl. intros H%confidence_of_pos. exists store.
  repeat split; try done.
  rewrite E. intros Hnil. rewrite Hnil in H. simpl in H. lia.
Qed.

Lemma positive_confidence_means_generated_answer_witness :
  (0 < (query (Some (index [fees] [fees])) insertion_order
          (answering "At the start of each block.")
          (txt "fee due date") (txt "Student") None).1.2)%Q
  /\ exists store,
       Some (index [fees] [fees]) = Some store
       /\ retrieval_responds (answering "At the start of each block.") = true
       /\ interface_filter None (similarity_score_threshold store (txt "fee due date"))
          <> []
       /\ generated (answering "At the start of each block.")
          = Some (query (Some (index [fees] [fees])) insertion_order
                    (answering "At the start of each block.")
                    (txt "fee due date") (txt "Student") None).1.1.
Proof.
  assert (H : (0 < (query (Some (index [fees] [fees])) insertion_order
          (answering "At the start of each block.")
          (txt "fee due date") (txt "Student") None).1.2)%Q)
    by (vm_compute; reflexivity).
  split; [exact H|].
  exact (positive_confidence_means_generated_answer _ _ _ _ _ _ H).
Defined.

End RAGMoreFacts.

(* ===================================================================== *)
(** * More facts about the processor *)
(* ===================================================================== *)

Module ProcessorMoreFacts.
Import PyText MessageHelpers RAG MessageProcessor Router Sample SampleMore.
Import RAGFacts RAGMoreFacts ProcessorFacts.

Lemma rag_confidence_range w question salutation :
  (0 <= (rag_query w question salutation).1.2)%Q
  /\ ((rag_query w question salutation).1.2 <= 9 # 10)%Q.
Proof.
  unfold rag_query.
  destruct (query_confidence_cases (vector_store w) (set_order w) (remote w)
              question salutation None) as [-> | [n ->]]; [done|].
  split; [apply confidence_of_nonneg | apply confidence_of_le].
Qed.

Lemma student_reply_cases w message contact_id salutation r :
  _handle_student_query w message contact_id salutation = Some r ->
  requires_followup r = false
  /\ message_type r <> "error"
  /\ (confidence r = 1%Q \/ confidence r = 0%Q
      \/ exists q, confidence r = (rag_query w q salutation).1.2).
Proof.
  unfold _handle_student_query.
  set (question := extract_question_from_message (keywords w) message).
  destruct (any_in fees_keywords (lower question)).
  { destruct (fetch_invoice_data w contact_id).
    - unfold _generate_invoice_response. destruct (formatted w); [|done].
      simpl. intros [= <-]. simpl. by repeat split; auto.
    - destruct (rag_query w question salutation) as [[answer c] srcs] eqn:E.
      intros [= <-]. simpl. repeat split; [done|].
      right. right. exists question. by rewrite E. }
  destruct (any_in academic_keywords (lower question)).
  { destruct (fetch_academic_data w contact_id).
    - unfold _generate_academic_response. destruct (formatted w); [|done].
      simpl. intros [= <-]. simpl. by repeat split; auto.
    - intros [= <-]. simpl. by repeat split; auto. }
  intros (q & _ & _ & Hc & _ & Hf & Ht)%faq_reply_fields.
  split; [done|]. split.
  - rewrite Ht. by repeat case_match.
  - right. right. by exists q.
Qed.

Lemma student_query_raises w message contact_id salutation :
  _handle_student_query w message contact_id salutation = None ->
  formatted w = None
  /\ (is_Some (fetch_invoice_data w contact_id)
      \/ is_Some (fetch_academic_data w contact_id)).
Proof.
  unfold _handle_student_query.
  set (question := extract_question_from_message (keywords w) message).
  destruct (any_in fees_keywords (lower question)).
  { destruct (fetch_invoice_data w contact_id) eqn:E.
    - unfold _generate_invoice_response. destruct (formatted w); [done|].
      intros _. split; [done|]. left. by eexists.
    - by destruct (rag_query w question salutation) as [[answer c] srcs]. }
  destruct (any_in academic_keywords (lower question)).
  { destruct (fetch_academic_data w contact_id) eqn:E.
    - unfold _generate_academic_response. destruct (formatted w); [done|].
      intros _. split; [done|]. right. by eexists.
    - done. }
  by intros ?%faq_raises.
Qed.

(** A context of which one of the last three entries lacks a key. *)
Lemma enhanced_query_raises message chat_context :
  enhanced_query message chat_context = None ->
  exists msg, msg ∈ last3 chat_context
              /\ (msg !! "sender" = None \/ msg !! "message" = None).
Proof.
  unfold enhanced_query. destruct chat_context as [|m ms]; [done|].
  destruct (mapM context_line (last3 (m :: ms))) as [lines|] eqn:E; [done|].
  intros _. apply mapM_None in E. apply Exists_exists in E as (msg & Hin & Hmsg).
  exists msg. split; [done|]. unfold context_line in Hmsg.
  destruct (msg !! "sender"); [|by left].
  destruct (msg !! "message"); [done | by right].
Qed.

(** X20: the confidence of every reply of [process_text_message] lies
    between 0 and 1; it is exactly 1, or at most 0.9: the fixed replies
    and those built from a student's record carry 1, and whatever comes
    from retrieval is capped at 0.9. *)
Theorem reply_confidence_is_one_or_capped w message contact_id contact_name
        salutation chat_context :
  (0 <= confidence (process_text_message w message contact_id contact_name
                      salutation chat_context))%Q
  /\ (confidence (process_text_message w message contact_id contact_name
                    salutation chat_context) = 1%Q
      \/ (confidence (process_text_message w message contact_id contact_name
                        salutation chat_context) <= 9 # 10)%Q).
Proof.
  rewrite process_text_message_dispatch.
  destruct (classify (keywords w) (strip message)); simpl;
    try (split; [done | by left]).
  - destruct (publication_reply w salutation (strip message)) as [-> _].
    split; [done | by left].
  - destruct (_handle_student_query w (strip message) contact_id salutation)
      as [r|] eqn:E; simpl; [|split; [done | by right]].
    destruct (student_reply_cases _ _ _ _ _ E) as (_ & _ & [-> | [-> | [q ->]]]).
    + split; [done | by left].
    + split; [done | by right].
    + destruct (rag_confidence_range w q salutation). split; [done | by right].
  - destruct (_handle_faq_query w (strip message) salutation chat_context)
      as [r|] eqn:E; simpl; [|split; [done | by right]].
    apply faq_reply_fields in E as (q & _ & _ & -> & _).
    destruct (rag_confidence_range w q salutation). split; [done | by right].
Qed.

Lemma faq_query_result w store answer message salutation :
  vector_store w = Some store ->
  setup_qa_chain (remote w) salutation = true ->
  retrieval_responds (remote w) = true ->
  generated (remote w) = Some answer ->
  (rag_query w message salutation).1.2 = 0%Q
     /\ similarity_score_threshold store message = []
  \/ (rag_query w message salutation).1.2
     = confidence_of (length (similarity_score_threshold store message)).
Proof.
  intros Hs Hq Hr Hg. unfold rag_query, query. rewrite Hs, Hq, Hr, Hg. simpl.
  destruct (similarity_score_threshold store message); [by left | by right].
Qed.

(** X21: on the FAQ route without chat context, for a salutation with
    which the chain can be set up (every salutation without a brace is
    one), when the search and the generation call both return, the label of
    the reply is decided by the number of chunks above the threshold alone:
    four or more give [faq_answer_high_confidence], exactly three give
    [faq_answer], and fewer, none included, give
    [low_confidence_answer]. *)
Theorem faq_label_is_decided_by_hit_count w store answer message salutation :
  vector_store w = Some store ->
  setup_qa_chain (remote w) salutation = true ->
  retrieval_responds (remote w) = true ->
  generated (remote w) = Some answer ->
  message_type <$> _handle_faq_query w message salutation []
  = Some (if (4 <=? length (similarity_score_threshold store message))%nat
          then "faq_answer_high_confidence"
          else if (3 <=? length (similarity_score_threshold store message))%nat
               then "faq_answer"
               else "low_confidence_answer").
Proof.
  intros Hs Hq Hr Hg.
  pose proof (faq_query_result w store answer message salutation Hs Hq Hr Hg) as H.
  unfold _handle_faq_query. simpl.
  destruct (rag_query w message salutation) as [[a c] srcs]. simpl in H.
  destruct H as [[-> ->] | ->]; [done|].
  destruct (length (similarity_score_threshold store message))
    as [|[|[|[|n]]]]; try done.
  assert (Hc : Qle_bool (75 # 100) (confidence_of (S (S (S (S n))))) = true).
  { apply Qle_bool_iff.
    apply Qle_trans with (confidence_of 4); [done|].
    apply confidence_of_mono. lia. }
  simpl. by rewrite Hc.
Qed.

Lemma faq_label_is_decided_by_hit_count_witness :
  message_type <$> _handle_faq_query
                     (world (Some (index [fees; refund; portal] [fees]))
                            (answering "At the start of each block."))
                     (txt "fee due date") (txt "Student") []
  = Some "faq_answer".
Proof.
  exact (faq_label_is_decided_by_hit_count
           (world (Some (index [fees; refund; portal] [fees]))
                  (answering "At the start of each block."))
           (index [fees; refund; portal] [fees])
           (txt "At the start of each block.")
           (txt "fee due date") (txt "Student")
           eq_refl eq_refl eq_refl eq_refl).
Defined.

(** X22: a reply asks for a follow-up exactly when the message took the
    PayPal rule. *)
Theorem followup_is_asked_exactly_for_paypal w message contact_id contact_name
        salutation chat_context :
  requires_followup (process_text_message w message contact_id contact_name
                       salutation chat_context) = true
  <-> classify (keywords w) (strip message) = PayPal.
Proof.
  rewrite process_text_message_dispatch.
  destruct (classify (keywords w) (strip message)); simpl; try done.
  - unfold _handle_publication_query.
    by destruct (rag_query w (strip message) salutation) as [[a c] s].
  - destruct (_handle_student_query w (strip message) contact_id salutation)
      as [r|] eqn:E; simpl; [|done].
    destruct (student_reply_cases _ _ _ _ _ E) as (-> & _). done.
  - destruct (_handle_faq_query w (strip message) salutation chat_context)
      as [r|] eqn:E; simpl; [|done].
    apply faq_reply_fields in E as (q & _ & _ & _ & _ & -> & _). done.
Qed.

Lemma followup_is_asked_exactly_for_paypal_witness :
  requires_followup (process_text_message (world None generation_down)
                       (txt "Can I pay through PayPal please, what is needed")
                       (txt "c1") (txt "Asha") (txt "Student") []) = true.
Proof.
  apply (followup_is_asked_exactly_for_paypal (world None generation_down)
           (txt "Can I pay through PayPal please, what is needed")).
  vm_compute. reflexivity.
Defined.

(** X23: the error reply of [process_text_message] has two causes.  With
    a keyword configuration of lists of phrases, a reply labelled [error]
    means either that the message took the
    student-specific rule, a record of the student was found, and the call
    which formats the record raised; or that the message took the general
    FAQ rule and one of the last three entries of the chat context lacks
    the key [sender] or the key [message].  A missing index, a salutation
    the prompt template cannot take, a failing search and a failing
    generation call never surface as the error reply. *)
Theorem error_reply_causes w message contact_id contact_name
        salutation chat_context :
  message_type (process_text_message w message contact_id contact_name
                  salutation chat_context) = "error" ->
  (classify (keywords w) (strip message) = StudentSpecific
   /\ formatted w = None
   /\ (is_Some (fetch_invoice_data w contact_id)
       \/ is_Some (fetch_academic_data w contact_id)))
  \/ (classify (keywords w) (strip message) = GeneralFAQ
      /\ exists msg, msg ∈ last3 chat_context
                     /\ (msg !! "sender" = None \/ msg !! "message" = None)).
Proof.
  rewrite process_text_message_dispatch.
  destruct (classify (keywords w) (strip message)); simpl; try done.
  - unfold _handle_publication_query.
    by destruct (rag_query w (strip message) salutation) as [[a c] s].
  - destruct (_handle_student_query w (strip message) contact_id salutation)
      as [r|] eqn:E; simpl.
    + destruct (student_reply_cases _ _ _ _ _ E) as (_ & Hne & _). done.
    + intros _. left. split; [done|]. by apply student_query_raises in E.
  - destruct (_handle_faq_query w (strip message) salutation chat_context)
      as [r|] eqn:E; simpl.
    + apply faq_reply_fields in E as (q & _ & _ & _ & _ & _ & ->).
      by repeat case_match.
    + intros _. right. split; [done|].
      apply faq_raises in E. by apply enhanced_query_raises in E.
Qed.

Lemma error_reply_causes_witness :
  message_type (process_text_message formatter_down (txt "what is my fee balance")
                  (txt "c1") (txt "Asha") (txt "Student") []) = "error"
  /\ classify (keywords formatter_down) (strip (txt "what is my fee balance"))
     = StudentSpecific
  /\ formatted formatter_down = None.
Proof.
  assert (H : message_type (process_text_message formatter_down
                  (txt "what is my fee balance")
                  (txt "c1") (txt "Asha") (txt "Student") []) = "error")
    by (vm_compute; reflexivity).
  split; [exact H|].
  destruct (error_reply_causes _ _ _ _ _ _ H)
    as [(Hc & Hf & _) | (_ & msg & Hin & _)]; [by split|].
  by apply elem_of_nil in Hin.
Defined.

(** The second cause at work: an entry of the context without a sender. *)
Example error_reply_from_chat_context :
  message_type (process_text_message (world None generation_down)
                  (txt "where is the library") (txt "c1") (txt "Asha")
                  (txt "Student") [{[ "message" := txt "hello" ]}]) = "error".
Proof. vm_compute. reflexivity. Qed.

(** X24: the replies to greetings, acknowledgments, PayPal and remittance
    messages consult nothing but the keywords and the random draw.  Two
    turns with the same message and salutation get the same reply on these
    four rules whatever the index, the remote services, the database, the
    contact and the chat context are; that reply has confidence 1, no
    sources and a text that is not empty. *)
Theorem fixed_replies_consult_nothing_else w1 w2 message contact_id1 contact_id2
        contact_name1 contact_name2 salutation chat_context1 chat_context2 :
  keywords w1 = keywords w2 ->
  choice w1 = choice w2 ->
  classify (keywords w1) (strip message)
    ∈ [PureGreeting; Acknowledgment; PayPal; Remittance] ->
  process_text_message w1 message contact_id1 contact_name1 salutation chat_context1
  = process_text_message w2 message contact_id2 contact_name2 salutation chat_context2
  /\ confidence (process_text_message w1 message contact_id1 contact_name1
                   salutation chat_context1) = 1%Q
  /\ sources (process_text_message w1 message contact_id1 contact_name1
                salutation chat_context1) = []
  /\ response (process_text_message w1 message contact_id1 contact_name1
                 salutation chat_context1) <> [].
Proof.
  intros Hk Hc Hrule. rewrite !process_text_message_dispatch. rewrite <- Hk.
  destruct (classify (keywords w1) (strip message)); simpl.
  - unfold _handle_greeting. rewrite Hc. repeat split.
    apply (greeting_reply w2 salutation).
  - unfold _handle_acknowledgment. rewrite Hc. repeat split. simpl.
    apply random_choice_nonempty.
    + intros [_ H]%app_eq_nil. discriminate H.
    + discriminate.
    + intros [_ H]%app_eq_nil. discriminate H.
  - repeat split. simpl. intros [_ H]%app_eq_nil. discriminate H.
  - exfalso. repeat (apply elem_of_cons in Hrule as [?|Hrule]; [done|]).
    by apply elem_of_nil in Hrule.
  - repeat split. simpl. intros [_ H]%app_eq_nil. discriminate H.
  - exfalso. repeat (apply elem_of_cons in Hrule as [?|Hrule]; [done|]).
    by apply elem_of_nil in Hrule.
  - exfalso. repeat (apply elem_of_cons in Hrule as [?|Hrule]; [done|]).
    by apply elem_of_nil in Hrule.
Qed.

Lemma fixed_replies_consult_nothing_else_witness :
  process_text_message (world None generation_down) (txt "Thanks a lot")
    (txt "c1") (txt "Asha") (txt "Dr. Rao") []
  = process_text_message other_world (txt "Thanks a lot")
      (txt "c2") (txt "Ravi") (txt "Dr. Rao")
      [{[ "sender" := txt "user"; "message" := txt "hello" ]}].
Proof.
  apply (fixed_replies_consult_nothing_else (world None generation_down)
           other_world (txt "Thanks a lot")); [reflexivity | reflexivity |].
  vm_compute. right. left.
Defined.

End ProcessorMoreFacts.

(* ===================================================================== *)
(** * Facts about the repository and the worker *)
(* ===================================================================== *)

Module AutomationFacts.
Import PyText PyMore HelpersMore MessageProcessor Repository Automation.
Import SampleMore.

(** ** Sending *)






Lemma enter_not_in_lines lines :
  Enter ∉ concat ((fun line => [Typed line; ShiftEnter]) <$> lines).
Proof.
  induction lines as [|l lines IH]; simpl; [apply not_elem_of_nil|].
  intros [?|[?|?]%elem_of_cons]%elem_of_cons; done.
Qed.






(** X26: a send that fails never submits.  When [send_message] returns
    [False], the keys that reached the box are a proper beginning of those
    of the message, none at all when the box was not found, and enter is
    not among them. *)
Theorem failed_send_never_submits input_box raises_at message keys :
  send_message input_box raises_at message = (keys, false) ->
  (Enter ∉ keys)
  /\ (keys `prefix_of` keystrokes message)
  /\ (length keys < length (keystrokes message))%nat
  /\ (input_box = false -> keys = []).
Proof.
  unfold send_message. destruct input_box.
  - destruct raises_at as [n|]; [|done].
    destruct (n <? length (keystrokes message))%nat eqn:E; [|done].
    apply Nat.ltb_lt in E. intros [= <-].
    split; [|split; [apply prefix_take | split; [|done]]].
    + unfold keystrokes in *. rewrite length_app in E. simpl in E.
      rewrite take_app_le by lia.
      intros H. eapply elem_of_sublist in H; [|apply sublist_take].
      by apply enter_not_in_lines in H.
    + rewrite length_take. lia.
  - intros [= <-]. split; [apply not_elem_of_nil|].
    split; [apply prefix_nil|]. split; [|done].
    unfold keystrokes. rewrite length_app. simpl. lia.
Qed.

Lemma failed_send_never_submits_witness :
  Enter ∉ (send_message true (Some 3) (txt "Dear Asha," ++ nl ++ txt "noted.")).1.
Proof.
  apply (failed_send_never_submits true (Some 3)
           (txt "Dear Asha," ++ nl ++ txt "noted.")).
  reflexivity.
Defined.

(** ** Unread messages *)



(** ** Which chats are answered *)


(** X29: [_process_chat] goes on to read and answer a chat only for a
    contact that is not an unsaved number and for whom the lookup returned
    a row with an application number that is not empty.  A failed lookup,
    no match, and a null or empty application number all leave the chat
    unanswered. *)
Theorem chat_is_answered_only_for_known_students contact_name lookup :
  _process_chat contact_name lookup = Answered <->
  is_unsaved_contact contact_name (contact_number_of contact_name) = false
  /\ exists row rest c s,
       lookup = Some (row :: rest)
       /\ (6 <= length row)%nat
       /\ row !! 0%nat = Some (Some (c :: s)).
Proof.
  unfold _process_chat.
  destruct (is_unsaved_contact contact_name (contact_number_of contact_name));
    [split; [done | by intros [? _]]|].
  unfold fetch_student_details. split.
  - intros H. split; [done|].
    destruct lookup as [[|row rest]|]; try done.
    destruct (6 <=? length row)%nat eqn:E; [|done].
    apply Nat.leb_le in E. simpl in H. unfold col in H.
    destruct (row !! 0%nat) as [[[|c s]|]|] eqn:E0; try done.
    by exists row, rest, c, s.
  - intros [_ (row & rest & c & s & -> & Hlen & Hrow)].
    apply Nat.leb_le in Hlen. rewrite Hlen. simpl. unfold col. by rewrite Hrow.
Qed.

Lemma chat_is_answered_only_for_known_students_witness :
  _process_chat (txt "Asha Rao")
    (Some [[Some (txt "TAU-1042"); None; Some (txt "Asha Rao"); None; None; None]])
  = Answered.
Proof.
  apply (chat_is_answered_only_for_known_students (txt "Asha Rao")).
  split; [reflexivity|].
  exists [Some (txt "TAU-1042"); None; Some (txt "Asha Rao"); None; None; None],
    [], "T"%char, (txt "AU-1042").
  split; [reflexivity|]. split; [simpl; lia | reflexivity].
Defined.

(** ** The academic summary *)

Lemma count_status_le status cs : (count_status status cs <= length cs)%nat.
Proof.
  unfold count_status. induction cs as [|c cs IH]; simpl; [lia|].
  destruct (bool_decide _); simpl; lia.
Qed.

Lemma count_status_disjoint s1 s2 cs :
  txt s1 <> txt s2 ->
  (count_status s1 cs + count_status s2 cs <= length cs)%nat.
Proof.
  intros Hne. unfold count_status. induction cs as [|c cs IH]; simpl; [lia|].
  destruct (bool_decide (CourseStatus c = Some (txt s1))) eqn:E1;
    destruct (bool_decide (CourseStatus c = Some (txt s2))) eqn:E2; simpl; try lia.
  apply bool_decide_eq_true in E1. apply bool_decide_eq_true in E2. congruence.
Qed.

Lemma count_status_all status cs :
  count_status status cs = length cs ->
  forall c, c ∈ cs -> CourseStatus c = Some (txt status).
Proof.
  unfold count_status. induction cs as [|c cs IH]; simpl.
  - by intros _ c ?%elem_of_nil.
  - pose proof (count_status_le status cs) as Hle. unfold count_status in Hle.
    destruct (bool_decide (CourseStatus c = Some (txt status))) eqn:E; simpl.
    + intros [= H] c' [->|Hc']%elem_of_cons.
      * by apply bool_decide_eq_true in E.
      * by apply IH.
    + intros H. lia.
Qed.

(** X30: the summary [fetch_academic_data] returns counts the rows of the
    query: there is at least one course, [total_courses] is the number of
    rows and of courses listed, completed and in-progress courses together
    are no more than the total, and when all are counted as completed every
    course listed has the status [Completed]. *)
Theorem academic_summary_counts_the_rows result d :
  fetch_academic_data result = Some d ->
  exists rows,
    result = Some rows
    /\ (1 <= total_courses d)%nat
    /\ total_courses d = length rows
    /\ length (courses d) = total_courses d
    /\ (completed_courses d + in_progress d <= total_courses d)%nat
    /\ (completed_courses d = total_courses d ->
        forall c, c ∈ courses d -> CourseStatus c = Some (txt "Completed")).
Proof.
  unfold fetch_academic_data.
  destruct result as [[|row rows]|]; try done.
  destruct (forallb _ _); [|done].
  intros [= <-]. exists (row :: rows). cbn [total_courses courses
    completed_courses in_progress].
  split; [done|]. split; [simpl; lia|].
  split; [by rewrite length_fmap|]. split; [done|].
  split; [by apply count_status_disjoint | apply count_status_all].
Qed.

Lemma academic_summary_counts_the_rows_witness :
  match fetch_academic_data (Some transcript) with
  | Some d => (completed_courses d + in_progress d <= total_courses d)%nat
  | None => False
  end.
Proof.
  destruct (fetch_academic_data (Some transcript)) as [d|] eqn:E.
  - destruct (academic_summary_counts_the_rows _ d E)
      as (rows & _ & _ & _ & _ & H & _).
    exact H.
  - vm_compute in E. discriminate E.
Defined.

End AutomationFacts.
